(** * discretize: structured-mesh bookkeeping, grids and operators

    A shallow embedding of the mesh classes of [discretize]
    ([base/base_mesh.py], [base/base_tensor_mesh.py], [curvilinear_mesh.py],
    [pydantic/typing.py]) together with the properties their specification
    states about them.

    Conventions of the embedding.
    - numpy [float64] values are modelled by the real numbers [R]: sums,
      products, quotients and square roots are the exact ones, and
      comparisons are those of [R].
    - numpy integer arrays ([shape], the counts derived from it) are modelled
      by [Z] without wrap-around, sizes and positions inside arrays by [nat].
    - a Python exception is the [Raise] outcome of the result type [res];
      a Python [None] is [None] of an [option].
    - a property of a class is a function of the fields it reads; a lazily
      cached attribute is the value its first access computes.
    - the package [utils] (mkvc, ndgrid, indexCube, faceInfo, volTetra,
      interpmat, sdiag, ...) and the operator classes (the averaging
      operators, the cell volumes of a tensor mesh) are not among the
      sources: what is used of them is either a parameter or a definition
      marked as modelled from the specification.
    - of pydantic only the order of a validation is used: the validator of
      each field, then the root validators on the values that passed; a
      validator that raises nothing accepts the value. *)

From Stdlib Require Import String Ascii.
From Stdlib Require Import List ZArith Reals Lia Lra Bool Arith PeanoNat.
Import ListNotations.

Set Implicit Arguments.

(** ** Outcomes of Python code *)

Inductive exn : Type :=
| ValueError
| TypeError
| AssertionError
| IndexError
| NotImplementedError
| Exception.

Inductive res (A : Type) : Type :=
| Ok (a : A)
| Raise (e : exn).

Arguments Ok {A} a.
Arguments Raise {A} e.

Definition bind {A B : Type} (m : res A) (k : A -> res B) : res B :=
  match m with
  | Ok a => k a
  | Raise e => Raise e
  end.

Notation "x <- m ;; k" := (bind m (fun x => k))
  (at level 61, m at next level, right associativity).

(** ** The fragment of numpy used by the meshes *)

Module Np.

(** Element-wise sum of two integer arrays of one length. *)
Fixpoint addz (a b : list Z) : list Z :=
  match a, b with
  | x :: a', y :: b' => (x + y)%Z :: addz a' b'
  | _, _ => []
  end.

(** [a.prod()] and [a.sum()] on integer arrays. *)
Definition prodz (a : list Z) : Z := fold_left Z.mul a 1%Z.
Definition sumz (a : list Z) : Z := fold_left Z.add a 0%Z.

(** [np.ones(n)] and [np.zeros(n)]: a negative length is refused. *)
Definition ones (n : Z) : res (list R) :=
  if (n <? 0)%Z then Raise ValueError else Ok (repeat 1%R (Z.to_nat n)).
Definition zeros (n : Z) : res (list R) :=
  if (n <? 0)%Z then Raise ValueError else Ok (repeat 0%R (Z.to_nat n)).

(** [np.c_[a, b]] and [np.c_[a, b, c]]: 1-D arrays become the columns of a
    2-D array, given here by its rows. *)
Fixpoint c_2 (a b : list R) : list (list R) :=
  match a, b with
  | x :: a', y :: b' => [x; y] :: c_2 a' b'
  | _, _ => []
  end.

Fixpoint c_3 (a b c : list R) : list (list R) :=
  match a, b, c with
  | x :: a', y :: b', z :: c' => [x; y; z] :: c_3 a' b' c'
  | _, _, _ => []
  end.

End Np.

(** ** base_mesh.py: [BaseMesh], the counting *)

Module BaseMesh.

Local Open Scope Z_scope.

(** [dim]: the number of axes. *)
Definition dim (shape : list Z) : nat := List.length shape.

(** [nC] and [nN]. *)
Definition nC (shape : list Z) : Z := Np.prodz shape.
Definition nN (shape : list Z) : Z := Np.prodz (map (fun n => n + 1) shape).

(** [nEx], [nEy], [nEz]: the last two are [None] below their dimension. *)
Definition nEx (shape : list Z) : Z :=
  Np.prodz (Np.addz shape (firstn (dim shape) [0; 1; 1])).

Definition nEy (shape : list Z) : option Z :=
  if (dim shape <? 2)%nat then None
  else Some (Np.prodz (Np.addz shape (firstn (dim shape) [1; 0; 1]))).

Definition nEz (shape : list Z) : option Z :=
  if (dim shape <? 3)%nat then None
  else Some (Np.prodz (Np.addz shape (firstn (dim shape) [1; 1; 0]))).

(** The comprehension [[x for x in [a, b, c] if x is not None]]. *)
Definition not_none (l : list (option Z)) : list Z :=
  flat_map (fun o => match o with Some x => [x] | None => [] end) l.

Definition vnE (shape : list Z) : list Z :=
  not_none [Some (nEx shape); nEy shape; nEz shape].

Definition nE (shape : list Z) : Z := Np.sumz (vnE shape).

(** [nFx], [nFy], [nFz]. *)
Definition nFx (shape : list Z) : Z :=
  Np.prodz (Np.addz shape (firstn (dim shape) [1; 0; 0])).

Definition nFy (shape : list Z) : option Z :=
  if (dim shape <? 2)%nat then None
  else Some (Np.prodz (Np.addz shape (firstn (dim shape) [0; 1; 0]))).

Definition nFz (shape : list Z) : option Z :=
  if (dim shape <? 3)%nat then None
  else Some (Np.prodz (Np.addz shape (firstn (dim shape) [0; 0; 1]))).

Definition vnF (shape : list Z) : list Z :=
  not_none [Some (nFx shape); nFy shape; nFz shape].

Definition nF (shape : list Z) : Z := Np.sumz (vnF shape).

(** The count of the faces normal to axis [a], through the property of that
    axis; an axis the mesh does not have gives [None]. *)
Definition nF_axis (shape : list Z) (a : nat) : option Z :=
  match a with
  | 0%nat => Some (nFx shape)
  | 1%nat => nFy shape
  | 2%nat => nFz shape
  | _ => None
  end.

(** The product of [shape[i] + f i] over the axes [i], counted from [i0]. *)
Fixpoint prod_from (f : nat -> Z) (i0 : nat) (shape : list Z) : Z :=
  match shape with
  | [] => 1
  | n :: rest => (n + f i0) * prod_from f (S i0) rest
  end.


(** The formula the code computes: the axis [a] itself carries the [+1]
    (there is one more layer of faces than of cells along their normal). *)
Definition faceCountAxis (shape : list Z) (a : nat) : Z :=
  prod_from (fun i => if (i =? a)%nat then 1 else 0) 0 shape.

(** [normals]: [None] stands for the Python [None] that a call falling
    through both branches returns. *)
Definition opt_count (o : option Z) : res Z :=
  match o with
  | Some n => Ok n
  | None => Raise TypeError
  end.

Definition normals (shape : list Z) : res (option (list (list R))) :=
  if (dim shape =? 2)%nat then
    a <- Np.ones (nFx shape) ;; b <- Np.zeros (nFx shape) ;;
    let nX := Np.c_2 a b in
    ny <- opt_count (nFy shape) ;;
    a <- Np.zeros ny ;; b <- Np.ones ny ;;
    let nY := Np.c_2 a b in
    Ok (Some (nX ++ nY))
  else if (dim shape =? 3)%nat then
    a <- Np.ones (nFx shape) ;; b <- Np.zeros (nFx shape) ;;
    c <- Np.zeros (nFx shape) ;;
    let nX := Np.c_3 a b c in
    ny <- opt_count (nFy shape) ;;
    a <- Np.zeros ny ;; b <- Np.ones ny ;; c <- Np.zeros ny ;;
    let nY := Np.c_3 a b c in
    nz <- opt_count (nFz shape) ;;
    a <- Np.zeros nz ;; b <- Np.zeros nz ;; c <- Np.ones nz ;;
    let nZ := Np.c_3 a b c in
    Ok (Some (nX ++ nY ++ nZ))
  else Ok None.

Definition tangents (shape : list Z) : res (option (list (list R))) :=
  if (dim shape =? 2)%nat then
    a <- Np.ones (nEx shape) ;; b <- Np.zeros (nEx shape) ;;
    let tX := Np.c_2 a b in
    ny <- opt_count (nEy shape) ;;
    a <- Np.zeros ny ;; b <- Np.ones ny ;;
    let tY := Np.c_2 a b in
    Ok (Some (tX ++ tY))
  else if (dim shape =? 3)%nat then
    a <- Np.ones (nEx shape) ;; b <- Np.zeros (nEx shape) ;;
    c <- Np.zeros (nEx shape) ;;
    let tX := Np.c_3 a b c in
    ny <- opt_count (nEy shape) ;;
    a <- Np.zeros ny ;; b <- Np.ones ny ;; c <- Np.zeros ny ;;
    let tY := Np.c_3 a b c in
    nz <- opt_count (nEz shape) ;;
    a <- Np.zeros nz ;; b <- Np.zeros nz ;; c <- Np.ones nz ;;
    let tZ := Np.c_3 a b c in
    Ok (Some (tX ++ tY ++ tZ))
  else Ok None.

End BaseMesh.

(** ** n-dimensional arrays

    A numpy array is its shape and its elements in the default (C-contiguous,
    last index fastest) order.  Fortran order, which the meshes use whenever
    they flatten or reshape, is the other enumeration of the same
    multi-indices: first index fastest. *)

Module Nd.

Section Arrays.

Variable A : Type.
(** The value read at a position an array does not have; no well-shaped
    array is read there. *)
Variable d : A.

Record ndarray : Type := mk { shape : list nat; data : list A }.

(** [x.size] of an array of the given shape. *)
Definition size (sh : list nat) : nat := fold_right Nat.mul 1%nat sh.

Definition wf (a : ndarray) : Prop :=
  List.length (data a) = size (shape a).

(** Offsets of a multi-index and multi-indices of an offset, in Fortran
    ([F]) and in C order. *)
Fixpoint ravelF (sh idx : list nat) : nat :=
  match sh, idx with
  | n :: sh', i :: idx' => i + n * ravelF sh' idx'
  | _, _ => 0
  end.

Fixpoint unravelF (sh : list nat) (k : nat) : list nat :=
  match sh with
  | [] => []
  | n :: sh' => (k mod n) :: unravelF sh' (k / n)
  end.

Fixpoint ravelC (sh idx : list nat) : nat :=
  match sh, idx with
  | _ :: sh', i :: idx' => i * size sh' + ravelC sh' idx'
  | _, _ => 0
  end.

Fixpoint unravelC (sh : list nat) (c : nat) : list nat :=
  match sh with
  | [] => []
  | _ :: sh' => (c / size sh') :: unravelC sh' (c mod size sh')
  end.

(** A multi-index inside the shape. *)
Definition valid (sh idx : list nat) : Prop := Forall2 lt idx sh.

(** [a[i0, i1, ...]]. *)
Definition get (a : ndarray) (idx : list nat) : A :=
  nth (ravelC (shape a) idx) (data a) d.

(** The array of a given shape whose element at [idx] is [f idx]. *)
Definition of_fun (sh : list nat) (f : list nat -> A) : ndarray :=
  mk sh (map (fun c => f (unravelC sh c)) (seq 0 (size sh))).

(** A 1-D array. *)
Definition vec (l : list A) : ndarray := mk [List.length l] l.

(** [a.reshape(nn, order='F')]: the elements of [a], read in Fortran order,
    are placed in Fortran order into the shape [nn].  A negative entry of
    [nn] is refused (the sizes have been compared before, so that numpy's
    [-1] wildcard cannot apply). *)
Definition reshape_F (a : ndarray) (nn : list Z) : res ndarray :=
  if existsb (fun n => (n <? 0)%Z) nn then Raise ValueError
  else
    let sh := map Z.to_nat nn in
    if (size (shape a) =? size sh)%nat then
      Ok (of_fun sh (fun idx => get a (unravelF (shape a) (ravelF sh idx))))
    else Raise ValueError.

(** Modelled from the spec: [utils.mkvc], which is not among the sources;
    it brings an array to vector form, its elements in column-major
    (Fortran) order. *)
Definition mkvc (a : ndarray) : ndarray :=
  vec (map (fun k => get a (unravelF (shape a) k)) (seq 0 (size (shape a)))).

(** [x[:, ii]] of a 2-D array. *)
Definition column (a : ndarray) (ii : nat) : ndarray :=
  vec (map (fun i => get a [i; ii]) (seq 0 (nth 0 (shape a) 0%nat))).

(** [xx[start:end]] of a 1-D array. *)
Definition slice (a : ndarray) (start stop : nat) : ndarray :=
  vec (firstn (stop - start) (skipn start (data a))).

(** The 2-D array with the given rows, each of [ncols] elements. *)
Definition of_rows (ncols : nat) (rows : list (list A)) : ndarray :=
  mk [List.length rows; ncols] (concat rows).

End Arrays.

Arguments mk {A} shape data.
Arguments vec {A} l.
Arguments of_rows {A} ncols rows.

End Nd.

(** ** base_mesh.py: [BaseRectangularMesh], per-axis counts and [r] *)

Module BaseRectangularMesh.

Import BaseMesh.
Local Open Scope Z_scope.

Definition nCx (shape : list Z) : res Z :=
  match shape with
  | n :: _ => Ok n
  | [] => Raise IndexError
  end.

Definition nCy (shape : list Z) : option Z :=
  if (dim shape <? 2)%nat then None else nth_error shape 1.

Definition nCz (shape : list Z) : option Z :=
  if (dim shape <? 3)%nat then None else nth_error shape 2.

Definition vnC (shape : list Z) : list Z := shape.

Definition nNx (shape : list Z) : res Z :=
  n <- nCx shape ;; Ok (n + 1).

Definition nNy (shape : list Z) : option Z :=
  if (dim shape <? 2)%nat then None
  else option_map (fun n => n + 1) (nCy shape).

Definition nNz (shape : list Z) : option Z :=
  if (dim shape <? 3)%nat then None
  else option_map (fun n => n + 1) (nCz shape).

Definition vnN (shape : list Z) : list Z := map (fun n => n + 1) shape.

Definition vnEx (shape : list Z) : res (list Z) :=
  cx <- nCx shape ;; Ok (not_none [Some cx; nNy shape; nNz shape]).

Definition vnEy (shape : list Z) : res (option (list Z)) :=
  if (dim shape <? 2)%nat then Ok None
  else nx <- nNx shape ;; Ok (Some (not_none [Some nx; nCy shape; nNz shape])).

Definition vnEz (shape : list Z) : res (option (list Z)) :=
  if (dim shape <? 3)%nat then Ok None
  else nx <- nNx shape ;; Ok (Some (not_none [Some nx; nNy shape; nCz shape])).

Definition vnFx (shape : list Z) : res (list Z) :=
  nx <- nNx shape ;; Ok (not_none [Some nx; nCy shape; nCz shape]).

Definition vnFy (shape : list Z) : res (option (list Z)) :=
  if (dim shape <? 2)%nat then Ok None
  else cx <- nCx shape ;; Ok (Some (not_none [Some cx; nNy shape; nCz shape])).

Definition vnFz (shape : list Z) : res (option (list Z)) :=
  if (dim shape <? 3)%nat then Ok None
  else cx <- nCx shape ;; Ok (Some (not_none [Some cx; nCy shape; nNz shape])).

(** [s in t] on strings. *)
Definition str_in (s t : string) : bool :=
  existsb (fun n => String.eqb (substring n (String.length s) t) s)
          (seq 0 (S (String.length t))).

Definition mem (s : string) (l : list string) : bool :=
  existsb (String.eqb s) l.

Definition char_in (c : option Ascii.ascii) (l : list Ascii.ascii) : bool :=
  match c with
  | Some x => existsb (Ascii.eqb x) l
  | None => false
  end.

Definition allowed_xType : list string :=
  ["CC"; "N"; "F"; "Fx"; "Fy"; "Fz"; "E"; "Ex"; "Ey"; "Ez"]%string.

(** What [r] returns: one array, or a tuple of arrays.  A component is
    [None] where [switchKernal] runs off its end. *)
Inductive r_out : Type :=
| RArr (a : option (Nd.ndarray R))
| RTuple (l : list (option (Nd.ndarray R))).

Section R.

Variable shape : list Z.

(** [outKernal]: [xx] as a matrix of shape [nn] or as a vector. *)
Definition outKernal (format : string) (xx : Nd.ndarray R) (nn : list Z)
  : res (option (Nd.ndarray R)) :=
  if String.eqb format "M" then
    m <- Nd.reshape_F 0%R xx nn ;; Ok (Some m)
  else if String.eqb format "V" then Ok (Some (Nd.mkvc 0%R xx))
  else Ok None.

Definition size_is (xx : Nd.ndarray R) (n : Z) : bool :=
  (Z.of_nat (Nd.size (Nd.shape xx)) =? n).

(** The loop of [switchKernal] over [enumerate(['x', 'y', 'z'])] for a
    field on faces or edges, from position [i]. *)
Fixpoint switch_FE (format xType outType : string) (xx : Nd.ndarray R)
    (nn : list Z) (nx : list (option (list Z)))
    (names : list string) (i : nat) : res (option (Nd.ndarray R)) :=
  match names with
  | [] => Ok None
  | dimName :: names' =>
      if str_in dimName outType then
        if (dim shape <=? i)%nat then Raise Exception
        else if negb (size_is xx (Np.sumz nn)) then Raise Exception
        else
          let start := Np.sumz (firstn (i + 1) nn) in
          let stop := Np.sumz (firstn (i + 2) nn) in
          match nth i nx None with
          | Some n =>
              outKernal format
                (Nd.slice xx (Z.to_nat start) (Z.to_nat stop)) n
          | None => Raise TypeError
          end
      else switch_FE format xType outType xx nn nx names' (S i)
  end.

(** [switchKernal]. *)
Definition switchKernal (format xType outType : string) (xx : Nd.ndarray R)
  : res (option (Nd.ndarray R)) :=
  if mem xType ["CC"; "N"]%string then
    let nn := if String.eqb xType "CC" then shape
              else map (fun n => n + 1) shape in
    if negb (size_is xx (Np.prodz nn)) then Raise Exception
    else outKernal format xx nn
  else if mem xType ["F"; "E"]%string then
    let xx := Nd.mkvc 0%R xx in
    let isF := String.eqb xType "F" in
    let nn := 0 :: (if isF then vnF shape else vnE shape) in
    n0 <- (if isF then vnFx shape else vnEx shape) ;;
    n1 <- (if isF then vnFy shape else vnEy shape) ;;
    n2 <- (if isF then vnFz shape else vnEz shape) ;;
    switch_FE format xType outType xx nn [Some n0; n1; n2]
      ["x"; "y"; "z"]%string 0
  else if ((1 <? String.length xType)%nat
           && char_in (String.get 0 xType) ["F"; "E"]%char
           && char_in (String.get 1 xType) ["x"; "y"; "z"]%char)%bool then
    let isF := str_in "F" xType in
    nn <- (if str_in "x" xType then
             n <- (if isF then vnFx shape else vnEx shape) ;; Ok (Some n)
           else if str_in "y" xType then
             (if isF then vnFy shape else vnEy shape)
           else if str_in "z" xType then
             (if isF then vnFz shape else vnEz shape)
           else Raise Exception) ;;
    match nn with
    | None => Raise Exception
    | Some nn =>
        if negb (size_is xx (Np.prodz nn)) then Raise Exception
        else outKernal format xx nn
    end
  else Ok None.

Fixpoint collect (l : list (res (option (Nd.ndarray R))))
  : res (list (option (Nd.ndarray R))) :=
  match l with
  | [] => Ok []
  | m :: l' => a <- m ;; rest <- collect l' ;; Ok (a :: rest)
  end.

(** [r(x, xType, outType, format)] on an array [x] (the branch for a Python
    list of arrays is left out: the input here is an array). *)
Definition r (x : Nd.ndarray R) (xType outType format : string) : res r_out :=
  if negb (mem xType allowed_xType) then Raise Exception
  else if negb (mem outType allowed_xType) then Raise Exception
  else if negb (mem format ["M"; "V"]%string) then Raise Exception
  else if negb (String.eqb (substring 0 (String.length xType) outType) xType)
  then Raise Exception
  else if negb (str_in xType outType) then Raise Exception
  else
    let isVectorQuantity :=
      ((List.length (Nd.shape x) =? 2)%nat
       && (nth 1 (Nd.shape x) 0%nat =? dim shape)%nat)%bool in
    if mem outType ["F"; "E"]%string then
      if isVectorQuantity then Raise Exception
      else
        out <- collect
                 (map (fun dirName =>
                         switchKernal format xType (String.append outType dirName) x)
                      (firstn (dim shape) ["x"; "y"; "z"]%string)) ;;
        Ok (RTuple out)
    else if isVectorQuantity then
      out <- collect
               (map (fun ii => switchKernal format xType outType
                                 (Nd.column 0%R x ii))
                    (seq 0 (nth 1 (Nd.shape x) 0%nat))) ;;
      Ok (RTuple out)
    else
      a <- switchKernal format xType outType x ;; Ok (RArr a).

End R.

End BaseRectangularMesh.

(** ** Float arrays and matrices *)

Module Arr.

Local Open Scope R_scope.

(** [a op b], entry by entry, on two arrays of one length. *)
Fixpoint zip_with (op : R -> R -> R) (a b : list R) : list R :=
  match a, b with
  | x :: a', y :: b' => op x y :: zip_with op a' b'
  | _, _ => []
  end.

(** [a op b] on 1-D float arrays with numpy's broadcasting: an array of
    length 1 is combined with every entry of the other one; otherwise the
    lengths must agree. *)
Definition broadcast (op : R -> R -> R) (a b : list R) : res (list R) :=
  match a, b with
  | [x], _ => Ok (map (fun y => op x y) b)
  | _, [y] => Ok (map (fun x => op x y) a)
  | _, _ =>
      if (List.length a =? List.length b)%nat then Ok (zip_with op a b)
      else Raise ValueError
  end.

Definition sum (a : list R) : R := fold_left Rplus a 0.

(** [a.cumsum()]: the running sums, accumulated from the left. *)
Fixpoint cumsum_from (acc : R) (a : list R) : list R :=
  match a with
  | [] => []
  | x :: a' => (acc + x) :: cumsum_from (acc + x) a'
  end.

Definition cumsum (a : list R) : list R :=
  match a with
  | [] => []
  | x :: a' => x :: cumsum_from x a'
  end.

(** [np.diff(a)]. *)
Fixpoint diff (a : list R) : list R :=
  match a with
  | x :: ((y :: _) as a') => (y - x) :: diff a'
  | _ => []
  end.

(** [a.min()] and [a.max()]: an empty array has neither. *)
Definition min (a : list R) : res R :=
  match a with
  | [] => Raise ValueError
  | x :: a' => Ok (fold_left Rmin a' x)
  end.

Definition max (a : list R) : res R :=
  match a with
  | [] => Raise ValueError
  | x :: a' => Ok (fold_left Rmax a' x)
  end.

(** [a.mean()]. *)
Definition mean (a : list R) : R := sum a / INR (List.length a).

Definition Rleb (x y : R) : bool := if Rle_dec x y then true else false.
Definition Reqb (x y : R) : bool := if Req_dec_T x y then true else false.

End Arr.

(** Matrices, dense: the sparse matrices of scipy hold the same entries. *)

Module Mat.

Local Open Scope R_scope.

Record t : Type := mk { ncols : nat; rows : list (list R) }.

Definition nrows (m : t) : nat := List.length (rows m).

Definition entry (m : t) (i j : nat) : R := nth j (nth i (rows m) []) 0.

Definition wf (m : t) : Prop :=
  Forall (fun row => List.length row = ncols m) (rows m).

(** [Av.T]. *)
Definition transpose (m : t) : t :=
  mk (nrows m)
     (map (fun j => map (fun row => nth j row 0) (rows m)) (seq 0 (ncols m))).

Definition dot (a b : list R) : R := Arr.sum (Arr.zip_with Rmult a b).

(** [M * v] for a vector [v]: the sizes must agree. *)
Definition mulv (m : t) (v : list R) : res (list R) :=
  if (ncols m =? List.length v)%nat then Ok (map (fun row => dot row v) (rows m))
  else Raise ValueError.

(** [M * N] for two matrices. *)
Definition mul (m n : t) : res t :=
  if (ncols m =? nrows n)%nat then
    Ok (mk (ncols n)
           (map (fun row => map (fun col => dot row col) (rows (transpose n)))
                (rows m)))
  else Raise ValueError.

(** [c * M] for a number [c]. *)
Definition scale (c : R) (m : t) : t :=
  mk (ncols m) (map (map (fun x => c * x)) (rows m)).

(** Modelled from the spec: [utils.sdiag], which is not among the sources;
    the (sparse) diagonal matrix of a vector. *)
Definition sdiag (v : list R) : t :=
  let n := List.length v in
  mk n (map (fun i => map (fun j => if (i =? j)%nat then nth i v 0 else 0)
                          (seq 0 n))
            (seq 0 n)).

Definition diagonal (m : t) : list R :=
  map (fun i => entry m i i) (seq 0 (Nat.min (nrows m) (ncols m))).

(** Modelled from the spec: [utils.sdInv], which is not among the sources;
    the "diagonal inverse" of a diagonal matrix. *)
Definition sdInv (m : t) : t := sdiag (map (fun x => 1 / x) (diagonal m)).

(** [utils.spzeros(n, m)]: the [n] by [m] matrix of zeros. *)
Definition spzeros (n m : nat) : t := mk m (repeat (repeat 0 m) n).

(** [sp.hstack(blocks)] of blocks of [n] rows each (the rows of one block
    side by side with those of the next); no block at all is refused. *)
Definition hstack (n : nat) (blocks : list t) : res t :=
  match blocks with
  | [] => Raise ValueError
  | _ =>
      if forallb (fun b => (nrows b =? n)%nat) blocks then
        Ok (mk (fold_right (fun b acc => (ncols b + acc)%nat) 0%nat blocks)
               (map (fun i => concat (map (fun b => nth i (rows b) []) blocks))
                    (seq 0 n)))
      else Raise ValueError
  end.

(** [Q[mask, :] = 0]: the boolean mask must have one entry per row. *)
Definition zero_rows (m : t) (mask : list bool) : res t :=
  if (nrows m =? List.length mask)%nat then
    Ok (mk (ncols m)
           (map (fun rb : list R * bool =>
                   if snd rb then repeat 0 (ncols m) else fst rb)
                (combine (rows m) mask)))
  else Raise IndexError.

End Mat.

(** ** base_tensor_mesh.py: [BaseTensorMesh] *)

Module BaseTensorMesh.

Import BaseRectangularMesh.
Local Open Scope R_scope.

(** The fields of a tensor mesh that the operations below read: the cell
    widths per axis, the origin, and the class attribute [_meshType]
    (['CYL'] on cylindrical meshes).  [shape] is the one the constructor
    derives from [h]. *)
Record mesh : Type := mk { h : list (list R); x0 : list R; _meshType : string }.

Definition shape (m : mesh) : list Z :=
  map (fun hi => Z.of_nat (List.length hi)) (h m).

Definition dim (m : mesh) : nat := BaseMesh.dim (shape m).
Definition nC (m : mesh) : Z := BaseMesh.nC (shape m).

Definition item {A : Type} (l : list A) (i : nat) : res A :=
  match nth_error l i with
  | Some a => Ok a
  | None => Raise IndexError
  end.

Definition hx (m : mesh) : res (list R) := item (h m) 0.

Definition hy (m : mesh) : res (option (list R)) :=
  if (dim m <? 2)%nat then Ok None else a <- item (h m) 1 ;; Ok (Some a).

Definition hz (m : mesh) : res (option (list R)) :=
  if (dim m <? 3)%nat then Ok None else a <- item (h m) 2 ;; Ok (Some a).

(** [np.r_[0., hi.cumsum()] + o]. *)
Definition nodes_of (hi : list R) (o : R) : list R :=
  map (fun v => v + o) (0 :: Arr.cumsum hi).

(** [np.r_[0, hi[:-1].cumsum()] + hi*0.5 + o]. *)
Definition centers_of (hi : list R) (o : R) : res (list R) :=
  s <- Arr.broadcast Rplus (0 :: Arr.cumsum (removelast hi))
                     (map (fun w => w * 0.5) hi) ;;
  Ok (map (fun v => v + o) s).

Definition vectorNx (m : mesh) : res (list R) :=
  a <- hx m ;; o <- item (x0 m) 0 ;; Ok (nodes_of a o).

Definition vectorNy (m : mesh) : res (option (list R)) :=
  if (dim m <? 2)%nat then Ok None
  else a <- item (h m) 1 ;; o <- item (x0 m) 1 ;; Ok (Some (nodes_of a o)).

Definition vectorNz (m : mesh) : res (option (list R)) :=
  if (dim m <? 3)%nat then Ok None
  else a <- item (h m) 2 ;; o <- item (x0 m) 2 ;; Ok (Some (nodes_of a o)).

Definition vectorCCx (m : mesh) : res (list R) :=
  a <- hx m ;; o <- item (x0 m) 0 ;; centers_of a o.

Definition vectorCCy (m : mesh) : res (option (list R)) :=
  if (dim m <? 2)%nat then Ok None
  else a <- item (h m) 1 ;; o <- item (x0 m) 1 ;;
       c <- centers_of a o ;; Ok (Some c).

Definition vectorCCz (m : mesh) : res (option (list R)) :=
  if (dim m <? 3)%nat then Ok None
  else a <- item (h m) 2 ;; o <- item (x0 m) 2 ;;
       c <- centers_of a o ;; Ok (Some c).

(** The node and the centre vector of axis [a], through the property of
    that axis. *)
Definition vectorN (m : mesh) (a : nat) : res (option (list R)) :=
  match a with
  | 0%nat => v <- vectorNx m ;; Ok (Some v)
  | 1%nat => vectorNy m
  | 2%nat => vectorNz m
  | _ => Ok None
  end.

Definition vectorCC (m : mesh) (a : nat) : res (option (list R)) :=
  match a with
  | 0%nat => v <- vectorCCx m ;; Ok (Some v)
  | 1%nat => vectorCCy m
  | 2%nat => vectorCCz m
  | _ => Ok None
  end.

Definition some_of (l : list (option (list R))) : list (list R) :=
  flat_map (fun o => match o with Some x => [x] | None => [] end) l.

(** The list [ten] of [getTensor] and its filtering. *)
Definition ten (a : res (list R)) (b c : res (option (list R)))
  : res (list (list R)) :=
  x <- a ;; y <- b ;; z <- c ;; Ok (some_of [Some x; y; z]).

Definition getTensor (m : mesh) (key : string) : res (list (list R)) :=
  if String.eqb key "Fx" then ten (vectorNx m) (vectorCCy m) (vectorCCz m)
  else if String.eqb key "Fy" then ten (vectorCCx m) (vectorNy m) (vectorCCz m)
  else if String.eqb key "Fz" then ten (vectorCCx m) (vectorCCy m) (vectorNz m)
  else if String.eqb key "Ex" then ten (vectorCCx m) (vectorNy m) (vectorNz m)
  else if String.eqb key "Ey" then ten (vectorNx m) (vectorCCy m) (vectorNz m)
  else if String.eqb key "Ez" then ten (vectorNx m) (vectorNy m) (vectorCCz m)
  else if String.eqb key "CC" then ten (vectorCCx m) (vectorCCy m) (vectorCCz m)
  else if String.eqb key "N" then ten (vectorNx m) (vectorNy m) (vectorNz m)
  else Raise Exception.

(** Modelled from the spec: [utils.ndgrid], which is not among the sources;
    the outer (Cartesian) product of the per-axis vectors, one point per
    row, flattened in column-major order: the first axis varies fastest. *)
Fixpoint outer (vs : list (list R)) : list (list R) :=
  match vs with
  | [] => [[]]
  | v :: rest => flat_map (fun tail => map (fun x => x :: tail) v) (outer rest)
  end.

Definition ndgrid (vs : list (list R)) : Nd.ndarray R :=
  Nd.of_rows (List.length vs) (outer vs).

(** [_getTensorGrid(key)]; the cache holds what the first call computed. *)
Definition _getTensorGrid (m : mesh) (key : string) : res (Nd.ndarray R) :=
  t <- getTensor m key ;; Ok (ndgrid t).

Definition gridN (m : mesh) : res (Nd.ndarray R) := _getTensorGrid m "N".
Definition gridCC (m : mesh) : res (Nd.ndarray R) := _getTensorGrid m "CC".

(** Modelled from the spec: [utils.asArray_N_x_Dim], which is not among the
    sources; the points are an array of [dim] columns, one point per row,
    and anything else is refused. *)
Definition asArray_N_x_Dim (pts : list (list R)) (d : nat)
  : res (list (list R)) :=
  if forallb (fun p => (List.length p =? d)%nat) pts then Ok pts
  else Raise AssertionError.

(** The two assignments of [isInside] on a cylindrical mesh:
    [tensors[0] = np.r_[0., tensors[0]]] and
    [tensors[1] = np.r_[tensors[1], 2.0*np.pi]]. *)
Definition cyl_tensors (tensors : list (list R)) : res (list (list R)) :=
  match tensors with
  | t0 :: t1 :: rest => Ok ((0 :: t0) :: (t1 ++ [2 * PI]) :: rest)
  | _ => Raise IndexError
  end.

(** One turn of the loop of [isInside], for axis [i]. *)
Definition inside_axis (pts : list (list R)) (i : nat) (tensor : list R)
    (inside : list bool) : res (list bool) :=
  dmin <- Arr.min (Arr.diff tensor) ;;
  let TOL := dmin * 1e-10 in
  tmin <- Arr.min tensor ;;
  tmax <- Arr.max tensor ;;
  Ok (map (fun bp : bool * list R =>
             (fst bp && Arr.Rleb (tmin - TOL) (nth i (snd bp) 0)
                     && Arr.Rleb (nth i (snd bp) 0) (tmax + TOL))%bool)
          (combine inside pts)).

Fixpoint inside_loop (pts : list (list R)) (i : nat)
    (tensors : list (list R)) (inside : list bool) : res (list bool) :=
  match tensors with
  | [] => Ok inside
  | tensor :: rest =>
      inside' <- inside_axis pts i tensor inside ;;
      inside_loop pts (S i) rest inside'
  end.

(** [isInside(pts, locType)]. *)
Definition isInside (m : mesh) (pts : list (list R)) (locType : string)
  : res (list bool) :=
  pts <- asArray_N_x_Dim pts (dim m) ;;
  tensors <- getTensor m locType ;;
  tensors <- (if (String.eqb locType "N" && String.eqb (_meshType m) "CYL")%bool
              then cyl_tensors tensors else Ok tensors) ;;
  inside_loop pts 0 tensors (repeat true (List.length pts)).

Section Operators.

(** [utils.interpmat(loc, *tensors)] is not among the sources: the matrix
    of the per-axis linear basis functions is whatever it returns. *)
Variable interpmat : list (list R) -> list (list R) -> Mat.t.

Definition xyz_index (c : option ascii) : res nat :=
  match c with
  | Some "x"%char => Ok 0%nat
  | Some "y"%char => Ok 1%nat
  | Some "z"%char => Ok 2%nat
  | _ => Raise Exception
  end.

Fixpoint set_item {A : Type} (l : list A) (i : nat) (a : A) : res (list A) :=
  match l, i with
  | [], _ => Raise IndexError
  | _ :: l', O => Ok (a :: l')
  | x :: l', S i' => r <- set_item l' i' a ;; Ok (x :: r)
  end.

(** The chain [if locType in [...] / elif / else] of
    [_getInterpolationMat], which builds the matrix [Q] for the points
    [loc]. *)
Definition locType_dispatch (m : mesh) (loc : list (list R))
    (locType : string) : res Mat.t :=
  let n := List.length loc in
  if mem locType ["Fx"; "Fy"; "Fz"; "Ex"; "Ey"; "Ez"]%string then
    ind <- xyz_index (String.get 1 locType) ;;
    if (dim m <? ind)%nat then Raise AssertionError
    else
      let nF_nE := if str_in "F" locType then BaseMesh.vnF (shape m)
                   else BaseMesh.vnE (shape m) in
      let components := map (fun k => Mat.spzeros n (Z.to_nat k)) nF_nE in
      t <- getTensor m locType ;;
      components <- set_item components ind (interpmat loc t) ;;
      Mat.hstack n (filter (fun c => (0 <? Mat.ncols c)%nat) components)
  else if mem locType ["CC"; "N"]%string then
    t <- getTensor m locType ;; Ok (interpmat loc t)
  else if mem locType ["CCVx"; "CCVy"; "CCVz"]%string then
    t <- getTensor m "CC" ;;
    let Q := interpmat loc t in
    let Z := Mat.spzeros n (Z.to_nat (nC m)) in
    if String.eqb locType "CCVx" then Mat.hstack n [Q; Z; Z]
    else if String.eqb locType "CCVy" then Mat.hstack n [Z; Q; Z]
    else Mat.hstack n [Z; Z; Q]
  else Raise NotImplementedError.

(** [loc[indZeros, :] = centre]. *)
Definition snap (loc : list (list R)) (indZeros : list bool)
    (centre : list R) : list (list R) :=
  map (fun pz : list R * bool => if snd pz then centre else fst pz)
      (combine loc indZeros).

(** [_getInterpolationMat(loc, locType, zerosOutside)]. *)
Definition _getInterpolationMat (m : mesh) (loc : list (list R))
    (locType : string) (zerosOutside : bool) : res Mat.t :=
  loc <- asArray_N_x_Dim loc (dim m) ;;
  inside <- isInside m loc "N" ;;
  st <- (if negb zerosOutside then
           if forallb (fun b => b) inside then Ok (loc, [])
           else Raise AssertionError
         else
           let indZeros := map negb inside in
           cc <- getTensor m "CC" ;;
           Ok (snap loc indZeros (map Arr.mean cc), indZeros)) ;;
  let loc := fst st in
  let indZeros := snd st in
  Q <- locType_dispatch m loc locType ;;
  if zerosOutside then Mat.zero_rows Q indZeros else Ok Q.

Definition getInterpolationMat := _getInterpolationMat.

(** The attributes [aveF2CC], [aveE2CC], [aveF2CCV], [aveE2CCV] (the
    averaging operators, looked up by name) and [vol] (the cell volumes)
    come from classes that are not among the sources. *)
Variable ave : string -> Mat.t.
Variable vol : list R.

(** The material property handed to the inner products. *)
Inductive prop_t : Type :=
| PNone
| PScalar (x : R)
| PArray (a : Nd.ndarray R).

Definition prop_size (a : Nd.ndarray R) : Z :=
  Z.of_nat (Nd.size (Nd.shape a)).

(** [np.sum(vn.nonzero())]: the sum of the positions of the non-zero
    entries. *)
Fixpoint sum_nonzero_from (i : nat) (vn : list Z) : nat :=
  match vn with
  | [] => 0%nat
  | k :: vn' =>
      ((if (k =? 0)%Z then 0 else i) + sum_nonzero_from (S i) vn')%nat
  end.

Definition n_elements (m : mesh) (projType : string) : nat :=
  if String.eqb (_meshType m) "CYL" then
    sum_nonzero_from 0
      (if String.eqb projType "F" then BaseMesh.vnF (shape m)
       else BaseMesh.vnE (shape m))
  else dim m.

(** [prop[:, [0, 2]]]. *)
Definition columns02 (a : Nd.ndarray R) : Nd.ndarray R :=
  Nd.of_rows 2
    (map (fun i => [Nd.get 0 a [i; 0%nat]; Nd.get 0 a [i; 2%nat]])
         (seq 0 (nth 0 (Nd.shape a) 0%nat))).

(** [_fastInnerProduct(projType, prop, invProp, invMat)]. *)
Definition _fastInnerProduct (m : mesh) (projType : string) (prop : prop_t)
    (invProp invMat : bool) : res (option Mat.t) :=
  if negb (mem projType ["F"; "E"]%string) then Raise AssertionError
  else
    ones <- Np.ones (nC m) ;;
    let prop := match prop with PNone => PArray (Nd.vec ones) | _ => prop end in
    let prop :=
      if invProp then
        match prop with
        | PScalar x => PScalar (1 / x)
        | PArray a => PArray (Nd.mk (Nd.shape a) (map (fun x => 1 / x) (Nd.data a)))
        | PNone => PNone
        end
      else prop in
    let prop :=
      match prop with
      | PScalar x => Nd.vec (map (fun o => x * o) ones)
      | PArray a => a
      | PNone => Nd.vec []
      end in
    let n := n_elements m projType in
    M <- (if (prop_size prop =? nC m)%Z then
            let Av := ave (String.append "ave" (String.append projType "2CC")) in
            Vprop <- Arr.broadcast Rmult vol (Nd.data (Nd.mkvc 0 prop)) ;;
            d <- Mat.mulv (Mat.transpose Av) Vprop ;;
            Ok (Some (Mat.scale (INR n) (Mat.sdiag d)))
          else if (prop_size prop =? nC m * Z.of_nat (dim m))%Z then
            let Av := ave (String.append "ave" (String.append projType "2CCV")) in
            prop <- (if String.eqb (_meshType m) "CYL" then
                       if (List.length (Nd.shape prop) =? 2)%nat then
                         if String.eqb projType "E" then Ok (Nd.column 0 prop 1)
                         else if String.eqb projType "F" then Ok (columns02 prop)
                         else Ok prop
                       else Raise IndexError
                     else Ok prop) ;;
            let V := Mat.sdiag (concat (repeat vol n)) in
            AV <- Mat.mul (Mat.transpose Av) V ;;
            d <- Mat.mulv AV (Nd.data (Nd.mkvc 0 prop)) ;;
            Ok (Some (Mat.sdiag d))
          else Ok None) ;;
    match M with
    | None => Ok None
    | Some M => if invMat then Ok (Some (Mat.sdInv M)) else Ok (Some M)
    end.

(** The matrix in the words of the specification:
    [scale * Average^T * diag(cellVolume * property) * Average]. *)
Definition innerProduct_spec (scale : R) (Average : Mat.t)
    (cellVolume property : list R) : res Mat.t :=
  w <- Arr.broadcast Rmult cellVolume property ;;
  AtD <- Mat.mul (Mat.transpose Average) (Mat.sdiag w) ;;
  AtDA <- Mat.mul AtD Average ;;
  Ok (Mat.scale scale AtDA).

End Operators.

End BaseTensorMesh.

(** ** Notions used to state the properties of grids *)

Module GridSpec.

Import Nd.

(** The point whose [a]-th coordinate is entry [idx[a]] of the [a]-th
    vector. *)
Fixpoint coords (vs : list (list R)) (idx : list nat) : list R :=
  match vs, idx with
  | v :: vs', i :: idx' => nth i v 0%R :: coords vs' idx'
  | _, _ => []
  end.

(** The matrix that [r] makes of a vector [l] of the right size. *)
Definition as_matrix (sh : list nat) (l : list R) : ndarray R :=
  of_fun sh (fun idx => get 0%R (vec l) (unravelF [List.length l] (ravelF sh idx))).

End GridSpec.

(** ** Notions used to state the properties of the operators *)

Module OperatorSpec.

Local Open Scope R_scope.

(** The sum of [f c] over the cells [c < n]. *)
Definition sum_over (n : nat) (f : nat -> R) : R :=
  Arr.sum (map f (seq 0 n)).

(** The averaging operator from the two faces of the single cell of a 1-D
    mesh to the centre of the cell, and the volume of that cell of width 1. *)
Definition ave_one_cell : string -> Mat.t :=
  fun _ => Mat.mk 2 [[1 / 2; 1 / 2]].

Definition vol_one_cell : list R := [1].

Definition one_cell : BaseTensorMesh.mesh :=
  BaseTensorMesh.mk [[1]] [0] "TENSOR".

End OperatorSpec.

(** ** Notions used to state the containment test *)

Module ContainmentSpec.

Import BaseTensorMesh.
Local Open Scope R_scope.

(** [x] lies within [[min - tol, max + tol]] of the tensor, with [tol]
    [1e-10] times the smallest spacing of the tensor. *)
Definition within (tensor : list R) (x : R) : Prop :=
  exists lo hi dmin,
    Arr.min tensor = Ok lo /\ Arr.max tensor = Ok hi /\
    Arr.min (Arr.diff tensor) = Ok dmin /\
    lo - dmin * 1e-10 <= x <= hi + dmin * 1e-10.

(** Every coordinate of the point [p] lies within its tensor. *)
Definition within_all (tensors : list (list R)) (p : list R) : Prop :=
  forall i t, nth_error tensors i = Some t -> within t (nth i p 0).

(** The tensors of the test in the words of the claim: the location
    tensors, and on a cylindrical mesh the angular one with a node at
    [2*pi] added. *)
Definition tensors_claimed (m : mesh) (locType : string)
  : res (list (list R)) :=
  tensors <- getTensor m locType ;;
  if String.eqb (_meshType m) "CYL" then
    match tensors with
    | t0 :: t1 :: rest => Ok (t0 :: (t1 ++ [2 * PI]) :: rest)
    | _ => Raise IndexError
    end
  else Ok tensors.

(** The tensors of the test in the code: on a cylindrical mesh queried at
    the nodes, the radial tensor gets a node at 0 and the angular one a node
    at [2*pi]. *)
Definition tensors_tested (m : mesh) (locType : string)
  : res (list (list R)) :=
  tensors <- getTensor m locType ;;
  if (String.eqb locType "N" && String.eqb (_meshType m) "CYL")%bool
  then cyl_tensors tensors else Ok tensors.

(** A cylindrical mesh of one cell whose radial nodes are 1 and 2. *)
Definition ring_mesh : mesh := mk [[1]; [1]; [1]] [1; 0; 0] "CYL".

(** A 1-D mesh of one cell, from 0 to 1. *)
Definition unit_mesh : mesh := mk [[1]] [0] "TENSOR".

End ContainmentSpec.

(** ** curvilinear_mesh.py: [CurvilinearMesh.vol] *)

Module CurvilinearMesh.

Local Open Scope R_scope.


(** Modelled from the spec: [utils.indexCube], which is not among the
    sources.  The drawing above [vol] in the source names the corners of
    cell [(i, j, k)]: A is node [(i, j, k)], B [(i, j+1, k)],
    C [(i+1, j+1, k)], D [(i+1, j, k)], and E, F, G, H are the same with
    [k+1]; [indexCube(letters, gridSize)] gives, per letter, the position
    in [gridN] of that corner of every cell, the cells and the nodes both
    counted in column-major order. *)
Definition nodeMap (c : ascii) : list nat :=
  match c with
  | "A"%char => [0; 0; 0]
  | "B"%char => [0; 1; 0]
  | "C"%char => [1; 1; 0]
  | "D"%char => [1; 0; 0]
  | "E"%char => [0; 0; 1]
  | "F"%char => [0; 1; 1]
  | "G"%char => [1; 1; 1]
  | "H"%char => [1; 0; 1]
  | _ => [0; 0; 0]
  end%nat.

Fixpoint add_idx (a b : list nat) : list nat :=
  match a, b with
  | x :: a', y :: b' => (x + y)%nat :: add_idx a' b'
  | _, _ => []
  end.

Definition corner_index (gs n : list nat) (c : ascii) : list nat :=
  map (fun cell => Nd.ravelF gs (add_idx (Nd.unravelF n cell) (nodeMap c)))
      (seq 0 (Nd.size n)).

Definition indexCube (letters : list ascii) (gridSize : list Z)
  : list (list nat) :=
  let gs := map Z.to_nat gridSize in
  let n := map (fun g => Z.to_nat (g - 1)) gridSize in
  map (corner_index gs n) letters.

(** Modelled from the spec: [utils.faceInfo], which is not among the
    sources.  Of its pair (normal, area) only the area is used by [vol]:
    the signed area of the quadrilateral A, B, C, D by the cross products
    of the edge vectors at its four corners, averaged (each corner gives
    twice the area of a triangle, any two opposite corners the
    quadrilateral).  The corners are taken in the order of the drawing, for
    which the cells of an axis-aligned grid have positive area. *)
Definition coord (p : list R) (i : nat) : R := nth i p 0.

Definition sub3 (p q : list R) : list R :=
  [coord p 0 - coord q 0; coord p 1 - coord q 1; coord p 2 - coord q 2].

Definition cross_z (u v : list R) : R :=
  coord u 0 * coord v 1 - coord u 1 * coord v 0.

Definition quad_area (pA pB pC pD : list R) : R :=
  let AB := sub3 pB pA in
  let BC := sub3 pC pB in
  let CD := sub3 pD pC in
  let DA := sub3 pA pD in
  (cross_z AB DA + cross_z BC AB + cross_z CD BC + cross_z DA CD) / 4.

Definition faceInfo_area (xyz : list (list R)) (A B C D : list nat) : list R :=
  map (fun abcd : (nat * nat) * (nat * nat) =>
         quad_area (nth (fst (fst abcd)) xyz []) (nth (snd (fst abcd)) xyz [])
                   (nth (fst (snd abcd)) xyz []) (nth (snd (snd abcd)) xyz []))
      (combine (combine A B) (combine C D)).

(** [np.c_[gridN, np.zeros((nN, 1))]], [nN] being the number of rows of
    [gridN]: a zero is appended to every node. *)
Definition pad_zero (gridN : list (list R)) : list (list R) :=
  map (fun p => p ++ [0]) gridN.

Section Vol.

(** [utils.volTetra(gridN, A, B, C, D)] is not among the sources: the
    volumes of the tetrahedra on the given corners, one per cell. *)
Variable volTetra :
  list (list R) -> list nat -> list nat -> list nat -> list nat -> list R.

Definition plus5 (a b c d e : list R) : res (list R) :=
  s <- Arr.broadcast Rplus a b ;;
  s <- Arr.broadcast Rplus s c ;;
  s <- Arr.broadcast Rplus s d ;;
  Arr.broadcast Rplus s e.

(** [vol], computed on first access; the mesh is given by its cell counts
    [vnC] and its node grid [gridN]. *)
Definition vol (vnC : list Z) (gridN : list (list R))
  : res (option (list R)) :=
  let gridSize := map (fun n => (n + 1)%Z) vnC in
  if (List.length vnC =? 2)%nat then
    match indexCube ["A"; "B"; "C"; "D"]%char gridSize with
    | [A; B; C; D] => Ok (Some (faceInfo_area (pad_zero gridN) A B C D))
    | _ => Raise ValueError
    end
  else if (List.length vnC =? 3)%nat then
    match indexCube ["A"; "B"; "C"; "D"; "E"; "F"; "G"; "H"]%char gridSize with
    | [A; B; C; D; E; F; G; H] =>
        vol1 <- plus5 (volTetra gridN A B D E) (volTetra gridN B E F G)
                      (volTetra gridN B D E G) (volTetra gridN B C D G)
                      (volTetra gridN D E G H) ;;
        vol2 <- plus5 (volTetra gridN A F B C) (volTetra gridN A E F H)
                      (volTetra gridN A H F C) (volTetra gridN C H D A)
                      (volTetra gridN C G H F) ;;
        s <- Arr.broadcast Rplus vol1 vol2 ;;
        Ok (Some (map (fun x => x / 2) s))
    | _ => Raise ValueError
    end
  else Ok None.

End Vol.





End CurvilinearMesh.

(** ** pydantic/typing.py and the validators of [BaseMesh] *)

Module Validation.

Local Open Scope R_scope.

(** [TypedArray.validate_type] for a class of declared shape [cshape]
    ([None] when the class declares none). *)
Definition validate_type (cshape : option (list Z)) (val : Nd.ndarray R)
  : res (Nd.ndarray R) :=
  match cshape with
  | None => Ok val
  | Some sh =>
      if negb (List.length sh =? List.length (Nd.shape val))%nat
      then Raise ValueError
      else if existsb (fun n12 : Z * nat =>
                         ((0 <? fst n12)%Z
                          && negb (fst n12 =? Z.of_nat (snd n12))%Z)%bool)
                      (combine sh (Nd.shape val))
      then Raise ValueError
      else Ok val
  end.

(** [np.linalg.norm(val)]. *)
Definition norm (val : Nd.ndarray R) : R :=
  sqrt (Arr.sum (map (fun x => x * x) (Nd.data val))).

(** [UnitaryTypedArray.validate_unit]; the warning on a small norm does not
    change the outcome. *)
Definition validate_unit (cshape : option (list Z)) (val : Nd.ndarray R)
  : res (Nd.ndarray R) :=
  val <- validate_type cshape val ;;
  let arr_norm := norm val in
  if Arr.Reqb arr_norm 0 then Raise ValueError
  else Ok (Nd.mk (Nd.shape val) (map (fun x => x / arr_norm) (Nd.data val))).

(** The declared shape of [axis_u], [axis_v], [axis_w]:
    [UnitaryArray[float, 3]]. *)
Definition axis_shape : option (list Z) := Some [3%Z].

(** The validated values handed to a root validator; a field whose own
    validation failed is absent. *)
Record values : Type := mk_values {
  axis_u : option (Nd.ndarray R);
  axis_v : option (Nd.ndarray R);
  axis_w : option (Nd.ndarray R)
}.

(** [a.dot(b)] on 1-D arrays. *)
Definition dot (a b : Nd.ndarray R) : R := Mat.dot (Nd.data a) (Nd.data b).





End Validation.

(** ** Notions used to state the properties of the interpolation *)

Module InterpolationSpec.

Local Open Scope R_scope.

(** A stand-in for [utils.interpmat] on one axis: every point takes the
    value of the first entry of the axis tensor. *)
Definition first_node_interp (loc : list (list R)) (t : list (list R)) : Mat.t :=
  Mat.mk (List.length (nth 0 t []))
         (map (fun _ => 1 :: repeat 0 (List.length (nth 0 t []) - 1)) loc).

End InterpolationSpec.

(** ** Notions used to state the properties of the volumes *)

Module VolumeSpec.

Local Open Scope R_scope.


End VolumeSpec.

(** ** base_mesh.py: edges per axis, projections onto normals and tangents *)

Module BaseMeshMore.

Import BaseMesh.
Local Open Scope Z_scope.

(** The count of the edges along axis [a], through the property of that
    axis; an axis the mesh does not have gives [None]. *)
Definition nE_axis (shape : list Z) (a : nat) : option Z :=
  match a with
  | 0%nat => Some (nEx shape)
  | 1%nat => nEy shape
  | 2%nat => nEz shape
  | _ => None
  end.

(** The product of [shape[i] + (0 if i == a else 1)]: along its own axis an
    edge spans a cell, across it there is one more layer of edges than of
    cells. *)
Definition edgeCountAxis (shape : list Z) (a : nat) : Z :=
  prod_from (fun i => if (i =? a)%nat then 0 else 1) 0 shape.

(** The unit basis vector of axis [a] in dimension [d]. *)
Definition unit_vector (d a : nat) : list R :=
  map (fun i => if (i =? a)%nat then 1%R else 0%R) (seq 0 d).

(** Per-axis blocks of unit vectors: [counts a] copies of the unit vector
    of axis [a], for the axes in order. *)
Definition blocks (d : nat) (counts : nat -> Z) : list (list R) :=
  concat (map (fun a => repeat (unit_vector d a) (Z.to_nat (counts a)))
              (seq 0 d)).

(** The rows of a 2-D array. *)
Definition rows_of (a : Nd.ndarray R) : list (list R) :=
  map (fun i => map (fun j => Nd.get 0%R a [i; j])
                    (seq 0 (nth 1 (Nd.shape a) 0%nat)))
      (seq 0 (nth 0 (Nd.shape a) 0%nat)).

(** [np.sum(x * y, 1)] for two 2-D arrays of one shape, given by their
    rows (the arrays multiplied below have one shape, so that no axis is
    broadcast). *)
Definition sum_of_products (x y : list (list R)) : res (list R) :=
  if ((List.length x =? List.length y)%nat
      && forallb (fun xy : list R * list R =>
                    (List.length (fst xy) =? List.length (snd xy))%nat)
                 (combine x y))%bool
  then Ok (map (fun xy : list R * list R => Mat.dot (fst xy) (snd xy))
               (combine x y))
  else Raise ValueError.

(** The test of [projectFaceVector] and [projectEdgeVector] on the shape of
    their argument, [n] being [nF] or [nE]. *)
Definition shape_is (v : Nd.ndarray R) (n : Z) (d : nat) : bool :=
  ((List.length (Nd.shape v) =? 2)%nat
   && (Z.of_nat (nth 0 (Nd.shape v) 0%nat) =? n)
   && (nth 1 (Nd.shape v) 0%nat =? d)%nat)%bool.

(** [projectFaceVector(fV)], on an array [fV]. *)
Definition projectFaceVector (shape : list Z) (fV : Nd.ndarray R)
  : res (list R) :=
  if negb (shape_is fV (nF shape) (dim shape)) then Raise Exception
  else
    nm <- normals shape ;;
    match nm with
    | None => Raise TypeError
    | Some rows => sum_of_products (rows_of fV) rows
    end.

(** [projectEdgeVector(eV)], on an array [eV]. *)
Definition projectEdgeVector (shape : list Z) (eV : Nd.ndarray R)
  : res (list R) :=
  if negb (shape_is eV (nE shape) (dim shape)) then Raise Exception
  else
    tg <- tangents shape ;;
    match tg with
    | None => Raise TypeError
    | Some rows => sum_of_products (rows_of eV) rows
    end.

End BaseMeshMore.

(** ** base_mesh.py: the per-axis count vectors, by axis *)

Module RectangularMore.

Import BaseRectangularMesh.

(** [vnFx], [vnFy], [vnFz] and [vnEx], [vnEy], [vnEz] through the property
    of the axis [a]. *)
Definition vnF_axis (shape : list Z) (a : nat) : res (option (list Z)) :=
  match a with
  | 0%nat => v <- vnFx shape ;; Ok (Some v)
  | 1%nat => vnFy shape
  | 2%nat => vnFz shape
  | _ => Ok None
  end.

Definition vnE_axis (shape : list Z) (a : nat) : res (option (list Z)) :=
  match a with
  | 0%nat => v <- vnEx shape ;; Ok (Some v)
  | 1%nat => vnEy shape
  | 2%nat => vnEz shape
  | _ => Ok None
  end.

End RectangularMore.

(** ** base_mesh.py: the rotation matrix of the reference frame *)

Module ReferenceFrame.


End ReferenceFrame.

(** ** base_tensor_mesh.py: the staggered grids, the gridded widths and the
    validator of the origin *)

Module TensorMeshMore.

Import BaseTensorMesh.
Local Open Scope R_scope.

(** [n == 0] for a count that is [None] below its dimension. *)
Definition is_zero (o : option Z) : bool :=
  match o with
  | Some n => (n =? 0)%Z
  | None => false
  end.

(** [gridFx], ..., [gridEz]: [None] stands for the bare [return]. *)
Definition gridFx (m : mesh) : res (option (Nd.ndarray R)) :=
  if (BaseMesh.nFx (shape m) =? 0)%Z then Ok None
  else g <- _getTensorGrid m "Fx" ;; Ok (Some g).

Definition gridFy (m : mesh) : res (option (Nd.ndarray R)) :=
  if (is_zero (BaseMesh.nFy (shape m)) || (dim m <? 2)%nat)%bool then Ok None
  else g <- _getTensorGrid m "Fy" ;; Ok (Some g).

Definition gridFz (m : mesh) : res (option (Nd.ndarray R)) :=
  if (is_zero (BaseMesh.nFz (shape m)) || (dim m <? 3)%nat)%bool then Ok None
  else g <- _getTensorGrid m "Fz" ;; Ok (Some g).

Definition gridEx (m : mesh) : res (option (Nd.ndarray R)) :=
  if (BaseMesh.nEx (shape m) =? 0)%Z then Ok None
  else g <- _getTensorGrid m "Ex" ;; Ok (Some g).

Definition gridEy (m : mesh) : res (option (Nd.ndarray R)) :=
  if (is_zero (BaseMesh.nEy (shape m)) || (dim m <? 2)%nat)%bool then Ok None
  else g <- _getTensorGrid m "Ey" ;; Ok (Some g).

Definition gridEz (m : mesh) : res (option (Nd.ndarray R)) :=
  if (is_zero (BaseMesh.nEz (shape m)) || (dim m <? 3)%nat)%bool then Ok None
  else g <- _getTensorGrid m "Ez" ;; Ok (Some g).

(** The grid of the faces normal to axis [a] and of the edges along it,
    through the property of that axis. *)
Definition gridF (m : mesh) (a : nat) : res (option (Nd.ndarray R)) :=
  match a with
  | 0%nat => gridFx m
  | 1%nat => gridFy m
  | 2%nat => gridFz m
  | _ => Ok None
  end.

Definition gridE (m : mesh) (a : nat) : res (option (Nd.ndarray R)) :=
  match a with
  | 0%nat => gridEx m
  | 1%nat => gridEy m
  | 2%nat => gridEz m
  | _ => Ok None
  end.

(** The letter of axis [a] in the keys ['Fx'], ['Ey'], ... *)
Definition axis_name (a : nat) : string := nth a ["x"; "y"; "z"]%string ""%string.

(** [np.kron(a, b)] of two 1-D arrays. *)
Definition kron (a b : list R) : list R :=
  flat_map (fun x => map (fun y => x * y) b) a.

(** [h_gridded]: [None] stands for the value of a call that falls through
    the three branches.  In dimension 1, [np.reshape(self.h, (nC, 1))]
    makes one row of each width. *)
Definition h_gridded (m : mesh) : res (option (list (list R))) :=
  if (dim m =? 1)%nat then
    h0 <- item (h m) 0 ;;
    if (Z.of_nat (List.length h0) =? nC m)%Z
    then Ok (Some (map (fun w => [w]) h0))
    else Raise ValueError
  else if (dim m =? 2)%nat then
    ny <- BaseMesh.opt_count (BaseRectangularMesh.nCy (shape m)) ;;
    o <- Np.ones ny ;;
    h0 <- item (h m) 0 ;;
    let hx := kron o h0 in
    h1 <- item (h m) 1 ;;
    nx <- BaseRectangularMesh.nCx (shape m) ;;
    o <- Np.ones nx ;;
    let hy := kron h1 o in
    Ok (Some (Np.c_2 hx hy))
  else if (dim m =? 3)%nat then
    ny <- BaseMesh.opt_count (BaseRectangularMesh.nCy (shape m)) ;;
    nz <- BaseMesh.opt_count (BaseRectangularMesh.nCz (shape m)) ;;
    o <- Np.ones (ny * nz)%Z ;;
    h0 <- item (h m) 0 ;;
    let hx := kron o h0 in
    oz <- Np.ones nz ;;
    h1 <- item (h m) 1 ;;
    nx <- BaseRectangularMesh.nCx (shape m) ;;
    ox <- Np.ones nx ;;
    let hy := kron oz (kron h1 ox) in
    h2 <- item (h m) 2 ;;
    oxy <- Np.ones (nx * ny)%Z ;;
    let hz := kron h2 oxy in
    Ok (Some (Np.c_3 hx hy hz))
  else Ok None.

End TensorMeshMore.

Module TensorValidators.

Local Open Scope R_scope.

(** What a validator ends with: here an [AttributeError] or a [NameError]
    can occur as well. *)
Inductive py_error : Type :=
| PyValueError
| PyTypeError
| PyAttributeError
| PyIndexError
| PyNameError.

Inductive outcome (A : Type) : Type :=
| Returns (a : A)
| Fails (e : py_error).

Arguments Returns {A} a.
Arguments Fails {A} e.

(** An entry of the origin handed to the constructor: a string or a
    number. *)
Inductive x0_entry : Type :=
| Str (s : string)
| Num (x : R).

(** [str.lower] on the letters of ASCII.  The results below are only
    compared with ['0'], ['c'] and ['n'], which no other character
    lower-cases to. *)
Definition lower_char (c : ascii) : ascii :=
  let n := nat_of_ascii c in
  if ((65 <=? n) && (n <=? 90))%nat%bool then ascii_of_nat (n + 32) else c.

Fixpoint lower (s : string) : string :=
  match s with
  | EmptyString => EmptyString
  | String c s' => String (lower_char c) (lower s')
  end.

(** The entries that [_prevalid_x0] turns into a number: the numbers, and
    the strings ['0'] and ['c'] in either case. *)
Definition accepted (e : x0_entry) : Prop :=
  match e with
  | Num _ => True
  | Str s => lower s = "0"%string \/ lower s = "c"%string
  end.

(** The loop of [_prevalid_x0] over [enumerate(v)], from position [i]. *)
Fixpoint x0_loop (h : list (list R)) (i : nat) (v : list x0_entry)
  : outcome (list R) :=
  match v with
  | [] => Returns []
  | vi :: v' =>
      let rest (x : R) :=
        match x0_loop h (S i) v' with
        | Returns out => Returns (x :: out)
        | Fails e => Fails e
        end in
      match vi with
      | Num x => rest x
      | Str s =>
          if String.eqb (lower s) "0" then rest 0
          else if String.eqb (lower s) "c" then
            match nth_error h i with
            | Some hi => rest (- Arr.sum hi / 2)
            | None => Fails PyIndexError
            end
          else if String.eqb (lower s) "n" then
            (* [-h[i].sum]: the method is not called *)
            match nth_error h i with
            | Some _ => Fails PyTypeError
            | None => Fails PyIndexError
            end
          else Fails PyValueError
      end
  end.

(** [_prevalid_x0(v, values)]: [h] is [values['h']] when ['h'] is among the
    validated values; without it the lookup of [cls._unitDimension], an
    attribute the class does not have, fails. *)
Definition _prevalid_x0 (v : list x0_entry) (h : option (list (list R)))
  : outcome (list R) :=
  match h with
  | Some h =>
      if negb (List.length v =? List.length h)%nat then Fails PyValueError
      else x0_loop h 0 v
  | None => Fails PyAttributeError
  end.

End TensorValidators.

(** ** pydantic/typing.py: arrays to and from their JSON form *)

Module Serialization.

Import BaseRectangularMesh.

(** How the elements of an array lie in memory: in C order, in Fortran
    order, or strided (a view that is contiguous in neither order).  The
    [ndarray] itself holds the elements by multi-index, whatever the
    layout. *)
Inductive layout : Type :=
| C_order
| F_order
| Strided.

(** A shape for which the C and the Fortran order are one and the same
    order: no element, or at most one axis of an extent other than 1.
    numpy flags a contiguous array of such a shape as contiguous in both
    orders. *)
Definition degenerate (sh : list nat) : bool :=
  ((Nd.size sh =? 0)%nat
   || (List.length (filter (fun n => negb (n =? 1)%nat) sh) <=? 1)%nat)%bool.

Section Layout.

Variable A : Type.
Variable d : A.

Record np_array : Type := mk_np { arr : Nd.ndarray A; layout_of : layout }.

(** [x.flags['C_CONTIGUOUS']] and [x.flags['F_CONTIGUOUS']]. *)
Definition c_contiguous (x : np_array) : bool :=
  match layout_of x with
  | C_order => true
  | F_order => degenerate (Nd.shape (arr x))
  | Strided => false
  end.

Definition f_contiguous (x : np_array) : bool :=
  match layout_of x with
  | F_order => true
  | C_order => degenerate (Nd.shape (arr x))
  | Strided => false
  end.

(** [x.flatten(order='A')]: in Fortran order when the array is Fortran
    contiguous and not C contiguous, in C order otherwise. *)
Definition flatten_A (x : np_array) : list A :=
  if (f_contiguous x && negb (c_contiguous x))%bool
  then Nd.data (Nd.mkvc d (arr x))
  else Nd.data (arr x).

(** [out.reshape(shape)] and [out.reshape(shape, order='F')] of a 1-D
    array. *)
Definition reshape_C (l : list A) (sh : list nat) : res (Nd.ndarray A) :=
  if (List.length l =? Nd.size sh)%nat then Ok (Nd.mk sh l)
  else Raise ValueError.

Definition reshape_1d (l : list A) (sh : list nat) (f_order : bool)
  : res (Nd.ndarray A) :=
  if f_order then Nd.reshape_F d (Nd.vec l) (map Z.of_nat sh)
  else reshape_C l sh.

End Layout.

(** An array of a real dtype, of which [str(dtype)] is [name], or of the
    dtype [complex64] ([wide = false]) or [complex128]. *)
Inductive np_value : Type :=
| VReal (name : string) (x : np_array R)
| VComplex (wide : bool) (x : np_array (R * R)).

Inductive np_result : Type :=
| OReal (a : Nd.ndarray R)
| OComplex (a : Nd.ndarray (R * R)).

(** The dictionary built by [_serialize_numpy]. *)
Record dict : Type := mk_dict {
  d_shape : list nat;
  d_np_type : string;
  d_f_order : bool;
  d_items : list R
}.

(** [x.view(dtype=np.float32)] or [np.float64] of a flat complex array, and
    [out.view(dtype=dtype)] of a flat array of floats. *)
Definition view_float (l : list (R * R)) : list R :=
  flat_map (fun c => [fst c; snd c]) l.

Fixpoint view_complex (l : list R) : res (list (R * R)) :=
  match l with
  | [] => Ok []
  | re :: im :: l' => rest <- view_complex l' ;; Ok ((re, im) :: rest)
  | [_] => Raise ValueError
  end.

(** [_serialize_numpy(x)]. *)
Definition _serialize_numpy (x : np_value) : dict :=
  match x with
  | VReal name a =>
      mk_dict (Nd.shape (arr a)) name (f_contiguous a) (flatten_A 0%R a)
  | VComplex wide a =>
      mk_dict (Nd.shape (arr a))
              (if wide then "complex128" else "complex64")
              (f_contiguous a)
              (view_float (flatten_A (0%R, 0%R) a))
  end.

(** [_deserialize_numpy_dict(dic)].  Of the names that contain ['complex']
    only [complex64] and [complex128] are dtypes of the arrays handled
    here; any other such name is refused. *)
Definition _deserialize_numpy_dict (dic : dict) : res np_result :=
  let dtype := d_np_type dic in
  if str_in "complex" dtype then
    if (String.eqb dtype "complex64" || String.eqb dtype "complex128")%bool
    then
      out <- view_complex (d_items dic) ;;
      a <- reshape_1d (0%R, 0%R) out (d_shape dic) (d_f_order dic) ;;
      Ok (OComplex a)
    else Raise TypeError
  else
    a <- reshape_1d 0%R (d_items dic) (d_shape dic) (d_f_order dic) ;;
    Ok (OReal a).

(** The elements of a value, by multi-index. *)
Definition content (x : np_value) : np_result :=
  match x with
  | VReal _ a => OReal (arr a)
  | VComplex _ a => OComplex (arr a)
  end.

Definition wf_value (x : np_value) : Prop :=
  match x with
  | VReal name a => Nd.wf (arr a) /\ str_in "complex" name = false
  | VComplex _ a => Nd.wf (arr a)
  end.

End Serialization.

(** ** pydantic/listeners.py and the dispatch of [__setattr__] *)

Module Listeners.

Section Registry.

(** The [Listener] objects. *)
Variable listener : Type.

(** A dictionary from field names to lists of listeners, its keys in the
    order of their insertion. *)
Definition registry : Type := list (string * list listener).

Fixpoint lookup (k : string) (d : registry) : option (list listener) :=
  match d with
  | [] => None
  | (k', l) :: d' => if String.eqb k k' then Some l else lookup k d'
  end.

(** [d[k] = l]. *)
Fixpoint set_key (k : string) (l : list listener) (d : registry) : registry :=
  match d with
  | [] => [(k, l)]
  | (k', l') :: d' =>
      if String.eqb k k' then (k', l) :: d' else (k', l') :: set_key k l d'
  end.

(** What the decorator [listener(field)] stored as [field]: a string, or a
    list (or tuple) of strings. *)
Inductive fields_t : Type :=
| FStr (s : string)
| FList (l : list string).

(** The characters of a string, each as a string. *)
Fixpoint chars (s : string) : list string :=
  match s with
  | EmptyString => []
  | String c s' => String c EmptyString :: chars s'
  end.

(** What [for field in fields] goes through. *)
Definition iter (f : fields_t) : list string :=
  match f with
  | FStr s => chars s
  | FList l => l
  end.

(** One turn of the loop of [inherit_listeners]. *)
Definition inherit_one (listeners : registry)
    (item : string * list listener) : registry :=
  let field := fst item in
  let listeners :=
    match lookup field listeners with
    | Some _ => listeners
    | None => set_key field [] listeners
    end in
  match lookup field listeners with
  | Some l => set_key field (l ++ snd item) listeners
  | None => listeners
  end.

(** [inherit_listeners(base_listeners, listeners)]. *)
Definition inherit_listeners (base_listeners listeners : registry)
  : registry :=
  fold_left inherit_one base_listeners listeners.

(** One turn of the inner loop of [extract_listeners]. *)
Definition file_under (v : listener) (listeners : registry) (field : string)
  : registry :=
  match lookup field listeners with
  | Some l => set_key field (l ++ [v]) listeners
  | None => set_key field [v] listeners
  end.

(** [extract_listeners(namespace)]: the namespace is given by its items,
    each value with its [__listener_config__] when it has one. *)
Definition extract_listeners
    (namespace : list (string * option (fields_t * listener))) : registry :=
  fold_left
    (fun listeners item =>
       match snd item with
       | Some (fields, v) => fold_left (file_under v) (iter fields) listeners
       | None => listeners
       end)
    namespace [].

(** The listeners that [__setattr__(name, value)] calls once the value is
    set. *)
Definition called_on_set (listeners : registry) (name : string)
  : list listener :=
  match lookup name listeners with
  | Some l => l
  | None => []
  end.

End Registry.

End Listeners.

(** ** base_mesh.py and curvilinear_mesh.py: the validators of [shape], [x0]
    and [nodes] *)

Module MeshValidators.

Import TensorValidators.
Local Open Scope Z_scope.

(** The values validated so far, as a validator sees them; of the node
    arrays only the shapes are read. *)
Record values : Type := mk_values {
  v_shape : option (list Z);
  v_x0 : option (list R);
  v_nodes : option (list (list nat))
}.

(** [np.any(a != b)] for two 1-D integer arrays: an array of length 1 is
    compared with every entry of the other one; two arrays that cannot be
    broadcast compare as different as a whole. *)
Definition ne_any (a b : list Z) : bool :=
  match a, b with
  | [x], _ => existsb (fun y => negb (x =? y)) b
  | _, [y] => existsb (fun x => negb (x =? y)) a
  | _, _ =>
      if (List.length a =? List.length b)%nat
      then existsb (fun xy : Z * Z => negb (fst xy =? snd xy)) (combine a b)
      else true
  end.

(** The last test of [_check_shape], on the node arrays of a curvilinear
    mesh. *)
Definition check_node_shape (v : list Z) (vals : values) : outcome unit :=
  match v_nodes vals with
  | Some nodes =>
      match nodes with
      | [] => Fails PyIndexError
      | n0 :: _ =>
          if ne_any v (map (fun n => Z.of_nat n - 1) n0)
          then Fails PyTypeError else Returns tt
      end
  | None => Returns tt
  end.

(** [BaseMesh._check_shape(v, values)].  The message of the second error
    refers to a name, [change], that is not defined, so that building the
    message fails before the error is raised. *)
Definition _check_shape (v : list Z) (vals : values) : outcome unit :=
  if (3 <? List.length v)%nat then Fails PyValueError
  else
    match v_x0 vals with
    | Some x0 =>
        if negb (List.length x0 =? List.length v)%nat then Fails PyNameError
        else check_node_shape v vals
    | None => check_node_shape v vals
    end.

(** [BaseMesh._check_x0(v, values)]. *)
Definition _check_x0 (v : list R) (vals : values) : outcome unit :=
  match v_shape vals with
  | Some shape =>
      if negb (List.length v =? List.length shape)%nat
      then Fails PyValueError else Returns tt
  | None => Returns tt
  end.

Definition shape_eqb (a b : list nat) : bool :=
  if list_eq_dec Nat.eq_dec a b then true else false.

(** [CurvilinearMesh._check_nodes(v, values)], on the shapes of the node
    arrays. *)
Definition _check_nodes (v : list (list nat)) (vals : values)
  : outcome (list (list nat)) :=
  let dim := List.length v in
  if negb ((dim =? 2)%nat || (dim =? 3)%nat) then Fails PyValueError
  else if existsb (fun vi => negb (List.length vi =? dim)%nat) v
  then Fails PyValueError
  else
    let v0_shape := nth 0 v [] in
    if (negb (shape_eqb v0_shape (nth 1 v []))
        || ((List.length v =? 3)%nat
            && negb (shape_eqb v0_shape (nth 2 v []))))%bool
    then Fails PyValueError
    else
      match v_shape vals with
      | Some shape =>
          if existsb (fun vi => ne_any shape (map Z.of_nat vi)) v
          then Fails PyValueError else Returns v
      | None => Returns v
      end.

End MeshValidators.

(** * Properties *)

(** ** Counting faces and edges *)

Module BaseMeshFacts.

Import BaseMesh.
Local Open Scope Z_scope.

Lemma prodz_cons (x : Z) (l : list Z) : Np.prodz (x :: l) = x * Np.prodz l.
Proof.
  unfold Np.prodz. cbn [fold_left].
  assert (G : forall l a b, fold_left Z.mul l (a * b) = a * fold_left Z.mul l b).
  { clear. induction l as [|y l IH]; intros a b; cbn [fold_left]; [reflexivity|].
    rewrite <- IH. f_equal. ring. }
  rewrite Z.mul_1_l. rewrite <- (Z.mul_1_r x) at 1. apply G.
Qed.

Lemma prodz_nil : Np.prodz [] = 1.
Proof. reflexivity. Qed.

Lemma sumz_cons (x : Z) (l : list Z) : Np.sumz (x :: l) = x + Np.sumz l.
Proof.
  unfold Np.sumz. cbn [fold_left].
  assert (G : forall l a b, fold_left Z.add l (a + b) = a + fold_left Z.add l b).
  { clear. induction l as [|y l IH]; intros a b; cbn [fold_left]; [reflexivity|].
    rewrite <- IH. f_equal. ring. }
  rewrite Z.add_0_l. rewrite <- (Z.add_0_r x) at 1. apply G.
Qed.

Lemma sumz_nil : Np.sumz [] = 0.
Proof. reflexivity. Qed.

(** A shape of one, two or three axes is one of three explicit lists. *)
Lemma shape_cases (shape : list Z) :
  (1 <= dim shape <= 3)%nat ->
  (exists n0, shape = [n0]) \/
  (exists n0 n1, shape = [n0; n1]) \/
  (exists n0 n1 n2, shape = [n0; n1; n2]).
Proof.
  unfold dim.
  destruct shape as [|n0 [|n1 [|n2 [|n3 rest]]]]; simpl; intros H; try lia.
  - left; eauto.
  - right; left; eauto.
  - right; right; eauto.
Qed.





(** ** Normals and tangents of the axis-aligned mesh *)

Local Open Scope R_scope.

Lemma c_2_repeat (x y : R) (n : nat) :
  Np.c_2 (repeat x n) (repeat y n) = repeat [x; y] n.
Proof. induction n as [|n IH]; simpl; [reflexivity|now rewrite IH]. Qed.

Lemma c_3_repeat (x y z : R) (n : nat) :
  Np.c_3 (repeat x n) (repeat y n) (repeat z n) = repeat [x; y; z] n.
Proof. induction n as [|n IH]; simpl; [reflexivity|now rewrite IH]. Qed.

(** C6, the failing input: on a 1-D mesh (here of 4 cells, with its 5 faces
    and 4 edges) neither [normals] nor [tangents] has a branch, and the call
    returns Python's [None] instead of a [(nF, 1)] array of [[1.]] rows. *)
Theorem C6_dim1_returns_none :
  normals [4%Z] = Ok None /\ tangents [4%Z] = Ok None /\
  nF [4%Z] = 5%Z /\ nE [4%Z] = 4%Z.
Proof. repeat split; reflexivity. Qed.

(** In dimension 2 the rows of [normals] are [nFx] copies of [(1, 0)]
    followed by [nFy] copies of [(0, 1)]; likewise for [tangents]. *)
Lemma normals_dim2 (n0 n1 : Z) :
  (0 <= n0)%Z -> (0 <= n1)%Z ->
  normals [n0; n1] =
    Ok (Some (repeat [1; 0] (Z.to_nat ((n0 + 1) * n1))
              ++ repeat [0; 1] (Z.to_nat (n0 * (n1 + 1))))) /\
  tangents [n0; n1] =
    Ok (Some (repeat [1; 0] (Z.to_nat (n0 * (n1 + 1)))
              ++ repeat [0; 1] (Z.to_nat ((n0 + 1) * n1)))).
Proof.
  intros H0 H1.
  unfold normals, tangents, nFx, nFy, nEx, nEy, dim. simpl.
  repeat first [rewrite prodz_cons | rewrite prodz_nil].
  unfold Np.ones, Np.zeros.
  replace ((n0 + 1) * ((n1 + 0) * 1))%Z with ((n0 + 1) * n1)%Z by ring.
  replace ((n0 + 0) * ((n1 + 1) * 1))%Z with (n0 * (n1 + 1))%Z by ring.
  assert (A : ((n0 + 1) * n1 <? 0)%Z = false) by (apply Z.ltb_ge; nia).
  assert (B : (n0 * (n1 + 1) <? 0)%Z = false) by (apply Z.ltb_ge; nia).
  rewrite A, B. simpl. rewrite !c_2_repeat. split; reflexivity.
Qed.

(** In dimension 3: [nFx] copies of [(1, 0, 0)], then [nFy] copies of
    [(0, 1, 0)], then [nFz] copies of [(0, 0, 1)]. *)
Lemma normals_dim3 (n0 n1 n2 : Z) :
  (0 <= n0)%Z -> (0 <= n1)%Z -> (0 <= n2)%Z ->
  normals [n0; n1; n2] =
    Ok (Some (repeat [1; 0; 0] (Z.to_nat ((n0 + 1) * n1 * n2))
              ++ repeat [0; 1; 0] (Z.to_nat (n0 * (n1 + 1) * n2))
              ++ repeat [0; 0; 1] (Z.to_nat (n0 * n1 * (n2 + 1))))).
Proof.
  intros H0 H1 H2.
  unfold normals, nFx, nFy, nFz, dim. simpl.
  repeat first [rewrite prodz_cons | rewrite prodz_nil].
  unfold Np.ones, Np.zeros.
  replace ((n0 + 1) * ((n1 + 0) * ((n2 + 0) * 1)))%Z
    with ((n0 + 1) * n1 * n2)%Z by ring.
  replace ((n0 + 0) * ((n1 + 1) * ((n2 + 0) * 1)))%Z
    with (n0 * (n1 + 1) * n2)%Z by ring.
  replace ((n0 + 0) * ((n1 + 0) * ((n2 + 1) * 1)))%Z
    with (n0 * n1 * (n2 + 1))%Z by ring.
  assert (A : ((n0 + 1) * n1 * n2 <? 0)%Z = false) by (apply Z.ltb_ge; nia).
  assert (B : (n0 * (n1 + 1) * n2 <? 0)%Z = false) by (apply Z.ltb_ge; nia).
  assert (C : (n0 * n1 * (n2 + 1) <? 0)%Z = false) by (apply Z.ltb_ge; nia).
  rewrite A, B, C. simpl. rewrite !c_3_repeat. reflexivity.
Qed.

Lemma tangents_dim3 (n0 n1 n2 : Z) :
  (0 <= n0)%Z -> (0 <= n1)%Z -> (0 <= n2)%Z ->
  tangents [n0; n1; n2] =
    Ok (Some (repeat [1; 0; 0] (Z.to_nat (n0 * (n1 + 1) * (n2 + 1)))
              ++ repeat [0; 1; 0] (Z.to_nat ((n0 + 1) * n1 * (n2 + 1)))
              ++ repeat [0; 0; 1] (Z.to_nat ((n0 + 1) * (n1 + 1) * n2)))).
Proof.
  intros H0 H1 H2.
  unfold tangents, nEx, nEy, nEz, dim. simpl.
  repeat first [rewrite prodz_cons | rewrite prodz_nil].
  unfold Np.ones, Np.zeros.
  replace ((n0 + 0) * ((n1 + 1) * ((n2 + 1) * 1)))%Z
    with (n0 * (n1 + 1) * (n2 + 1))%Z by ring.
  replace ((n0 + 1) * ((n1 + 0) * ((n2 + 1) * 1)))%Z
    with ((n0 + 1) * n1 * (n2 + 1))%Z by ring.
  replace ((n0 + 1) * ((n1 + 1) * ((n2 + 0) * 1)))%Z
    with ((n0 + 1) * (n1 + 1) * n2)%Z by ring.
  assert (A : (n0 * (n1 + 1) * (n2 + 1) <? 0)%Z = false) by (apply Z.ltb_ge; nia).
  assert (B : ((n0 + 1) * n1 * (n2 + 1) <? 0)%Z = false) by (apply Z.ltb_ge; nia).
  assert (C : ((n0 + 1) * (n1 + 1) * n2 <? 0)%Z = false) by (apply Z.ltb_ge; nia).
  rewrite A, B, C. simpl. rewrite !c_3_repeat. reflexivity.
Qed.

End BaseMeshFacts.

(** ** Node and centre vectors of a tensor mesh *)

Module TensorVectorFacts.

Import BaseTensorMesh.
Local Open Scope R_scope.

Lemma fold_plus_acc (l : list R) (a b : R) :
  fold_left Rplus l (a + b) = a + fold_left Rplus l b.
Proof.
  revert a b. induction l as [|x l IH]; intros a b; cbn [fold_left].
  - reflexivity.
  - rewrite <- IH. f_equal. ring.
Qed.

Lemma sum_cons (x : R) (l : list R) : Arr.sum (x :: l) = x + Arr.sum l.
Proof.
  unfold Arr.sum. cbn [fold_left].
  rewrite Rplus_0_l. rewrite <- (Rplus_0_r x) at 1. apply fold_plus_acc.
Qed.

Lemma sum_nil : Arr.sum [] = 0.
Proof. reflexivity. Qed.

Lemma sum_firstn_S (l : list R) (k : nat) :
  (k < List.length l)%nat ->
  Arr.sum (firstn (S k) l) = Arr.sum (firstn k l) + nth k l 0.
Proof.
  revert k. induction l as [|x l IH]; intros k Hk; simpl in Hk; [lia|].
  destruct k as [|k].
  - cbn [firstn nth]. rewrite sum_cons, !sum_nil. ring.
  - change (firstn (S (S k)) (x :: l)) with (x :: firstn (S k) l).
    change (firstn (S k) (x :: l)) with (x :: firstn k l).
    rewrite !sum_cons. cbn [nth]. rewrite IH by lia. ring.
Qed.

Lemma cumsum_from_length (acc : R) (l : list R) :
  List.length (Arr.cumsum_from acc l) = List.length l.
Proof.
  revert acc. induction l as [|x l IH]; intros acc; simpl; [reflexivity|].
  now rewrite IH.
Qed.

Lemma cumsum_length (l : list R) : List.length (Arr.cumsum l) = List.length l.
Proof. destruct l; simpl; [reflexivity|]. now rewrite cumsum_from_length. Qed.

Lemma cumsum_from_nth (l : list R) (acc : R) (k : nat) :
  (k < List.length l)%nat ->
  nth k (Arr.cumsum_from acc l) 0 = acc + Arr.sum (firstn (S k) l).
Proof.
  revert acc k. induction l as [|x l IH]; intros acc k Hk; simpl in Hk; [lia|].
  destruct k as [|k].
  - cbn [Arr.cumsum_from nth firstn]. rewrite sum_cons, sum_nil. ring.
  - cbn [Arr.cumsum_from nth]. rewrite IH by lia.
    change (firstn (S (S k)) (x :: l)) with (x :: firstn (S k) l).
    rewrite sum_cons. ring.
Qed.

(** The [k]-th entry of [np.r_[0., l.cumsum()]] is the sum of the first [k]
    entries of [l]. *)
Lemma r_cumsum_nth (l : list R) (k : nat) :
  (k <= List.length l)%nat ->
  nth k (0 :: Arr.cumsum l) 0 = Arr.sum (firstn k l).
Proof.
  intros Hk. destruct k as [|k]; [reflexivity|].
  cbn [nth]. destruct l as [|x l]; simpl in Hk; [lia|].
  destruct k as [|k].
  - cbn [Arr.cumsum nth firstn]. rewrite sum_cons, sum_nil. ring.
  - cbn [Arr.cumsum nth]. rewrite cumsum_from_nth by lia.
    change (firstn (S (S k)) (x :: l)) with (x :: firstn (S k) l).
    rewrite sum_cons. reflexivity.
Qed.

Lemma nth_map_plus (l : list R) (o : R) (k : nat) :
  (k < List.length l)%nat ->
  nth k (map (fun v => v + o) l) 0 = nth k l 0 + o.
Proof.
  intros Hk.
  rewrite (nth_indep _ 0 (0 + o)) by (now rewrite length_map).
  apply (map_nth (fun v => v + o)).
Qed.

Lemma nodes_of_length (hi : list R) (o : R) :
  List.length (nodes_of hi o) = S (List.length hi).
Proof. unfold nodes_of. rewrite length_map. simpl. now rewrite cumsum_length. Qed.

Lemma nodes_of_nth (hi : list R) (o : R) (k : nat) :
  (k <= List.length hi)%nat ->
  nth k (nodes_of hi o) 0 = o + Arr.sum (firstn k hi).
Proof.
  intros Hk. unfold nodes_of.
  rewrite nth_map_plus by (simpl; rewrite cumsum_length; lia).
  rewrite r_cumsum_nth by exact Hk. ring.
Qed.

Lemma zip_with_length (op : R -> R -> R) (a b : list R) :
  List.length a = List.length b ->
  List.length (Arr.zip_with op a b) = List.length a.
Proof.
  revert b. induction a as [|x a IH]; intros [|y b] H; simpl in *; try lia.
  now rewrite IH by lia.
Qed.

Lemma zip_with_nth (op : R -> R -> R) (a b : list R) (k : nat) :
  (k < List.length a)%nat -> (k < List.length b)%nat ->
  nth k (Arr.zip_with op a b) 0 = op (nth k a 0) (nth k b 0).
Proof.
  revert b k. induction a as [|x a IH]; intros [|y b] k Ha Hb;
    simpl in *; try lia.
  destruct k as [|k]; [reflexivity|]. apply IH; lia.
Qed.

(** Broadcasting two arrays of one length is the element-wise operation. *)
Lemma broadcast_same_length (op : R -> R -> R) (a b : list R) :
  List.length a = List.length b ->
  Arr.broadcast op a b = Ok (Arr.zip_with op a b).
Proof.
  intros H. unfold Arr.broadcast.
  destruct a as [|x [|x' a]]; destruct b as [|y [|y' b]];
    simpl in H; try lia; try reflexivity.
  cbn [List.length]. rewrite (proj2 (Nat.eqb_eq _ _)) by (simpl; lia).
  reflexivity.
Qed.

Lemma length_removelast (l : list R) :
  List.length (removelast l) = (List.length l - 1)%nat.
Proof.
  induction l as [|x [|y l] IH]; try reflexivity.
  cbn [removelast List.length] in *. rewrite IH. lia.
Qed.

Lemma firstn_removelast_le (l : list R) (k : nat) :
  (k < List.length l)%nat -> firstn k (removelast l) = firstn k l.
Proof.
  revert k. induction l as [|x [|y l] IH]; intros k Hk; simpl in Hk; try lia.
  - assert (k = 0%nat) by lia. subst k. reflexivity.
  - destruct k as [|k]; [reflexivity|].
    change (removelast (x :: y :: l)) with (x :: removelast (y :: l)).
    cbn [firstn]. f_equal. apply IH. simpl. lia.
Qed.

(** [centers_of] returns, and its [k]-th entry is the left node of cell [k]
    plus half the width of the cell. *)
Lemma centers_of_ok (hi : list R) (o : R) :
  exists cc, centers_of hi o = Ok cc /\
    List.length cc = List.length hi /\
    forall k, (k < List.length hi)%nat ->
      nth k cc 0 = Arr.sum (firstn k hi) + nth k hi 0 * 0.5 + o.
Proof.
  unfold centers_of.
  destruct hi as [|w hi].
  - simpl. eexists; split; [reflexivity|]. split; [reflexivity|].
    simpl; intros; lia.
  - set (l := w :: hi).
    assert (Hlen : List.length (0 :: Arr.cumsum (removelast l))
                   = List.length (map (fun v => v * 0.5) l)).
    { cbn [List.length]. rewrite cumsum_length, length_removelast, length_map.
      subst l. simpl. lia. }
    rewrite (broadcast_same_length Rplus _ _ Hlen). cbn [bind].
    eexists; split; [reflexivity|]. split.
    + rewrite length_map, zip_with_length by exact Hlen.
      rewrite Hlen, length_map. reflexivity.
    + intros k Hk.
      rewrite nth_map_plus
        by (rewrite zip_with_length, Hlen, length_map by exact Hlen; exact Hk).
      rewrite zip_with_nth
        by (rewrite ?Hlen, ?length_map; exact Hk).
      rewrite r_cumsum_nth by (rewrite length_removelast; lia).
      rewrite firstn_removelast_le by exact Hk.
      f_equal. f_equal.
      rewrite (nth_indep _ 0 (0 * 0.5)) by (now rewrite length_map).
      apply (map_nth (fun v => v * 0.5)).
Qed.

Lemma vectorN_unfold (m : mesh) (a : nat) (hi : list R) (o : R) :
  (List.length (h m) <= 3)%nat ->
  nth_error (h m) a = Some hi ->
  nth_error (x0 m) a = Some o ->
  vectorN m a = Ok (Some (nodes_of hi o)) /\
  vectorCC m a = (c <- centers_of hi o ;; Ok (Some c)).
Proof.
  intros H3 Hh Ho.
  assert (Ha : (a < List.length (h m))%nat)
    by (apply nth_error_Some; congruence).
  assert (Hd : dim m = List.length (h m))
    by (unfold dim, BaseMesh.dim, shape; now rewrite length_map).
  unfold vectorN, vectorCC, vectorNx, vectorNy, vectorNz,
    vectorCCx, vectorCCy, vectorCCz, hx, item.
  destruct a as [|[|[|a]]]; [| | |lia]; rewrite ?Hd.
  - rewrite Hh, Ho. cbn [bind]. split; reflexivity.
  - rewrite (proj2 (Nat.ltb_ge _ _)) by lia.
    rewrite Hh, Ho. cbn [bind]. split; reflexivity.
  - rewrite (proj2 (Nat.ltb_ge _ _)) by lia.
    rewrite Hh, Ho. cbn [bind]. split; reflexivity.
Qed.

(** C4: on every axis [a] of a tensor mesh the node vector starts at the
    origin and its [k]-th entry is the origin plus the sum of the first [k]
    cell widths; the centre vector has one entry per cell, the midpoint of
    the two nodes of the cell; and for [h = [1,1,1,1]], origin [[0]] the
    node vector is [[0,1,2,3,4]] and the centre vector
    [[0.5,1.5,2.5,3.5]]. *)
Theorem C4_node_and_center_vectors (m : mesh) (a : nat) (hi : list R) (o : R) :
  (List.length (h m) <= 3)%nat ->
  nth_error (h m) a = Some hi ->
  nth_error (x0 m) a = Some o ->
  (exists N CC,
      vectorN m a = Ok (Some N) /\ vectorCC m a = Ok (Some CC) /\
      List.length N = S (List.length hi) /\
      nth 0 N 0 = o /\
      (forall k, (k <= List.length hi)%nat ->
                 nth k N 0 = o + Arr.sum (firstn k hi)) /\
      List.length CC = List.length hi /\
      (forall k, (k < List.length hi)%nat ->
                 nth k CC 0 = (nth k N 0 + nth (S k) N 0) / 2)) /\
  vectorNx (mk [[1; 1; 1; 1]] [0] "TENSOR") = Ok [0; 1; 2; 3; 4] /\
  vectorCCx (mk [[1; 1; 1; 1]] [0] "TENSOR") = Ok [0.5; 1.5; 2.5; 3.5].
Proof.
  intros H3 Hh Ho. split.
  - destruct (vectorN_unfold m a H3 Hh Ho) as [HN HC].
    destruct (centers_of_ok hi o) as [cc [Hcc [Hlen Hnth]]].
    exists (nodes_of hi o), cc.
    rewrite HN, HC, Hcc. cbn [bind].
    repeat split; try reflexivity.
    + apply nodes_of_length.
    + rewrite nodes_of_nth by lia. cbn [firstn]. rewrite sum_nil. ring.
    + intros k Hk. now apply nodes_of_nth.
    + exact Hlen.
    + intros k Hk. rewrite Hnth by exact Hk.
      rewrite !nodes_of_nth by lia.
      rewrite sum_firstn_S by exact Hk. lra.
  - unfold vectorNx, vectorCCx, hx, item, centers_of, nodes_of. simpl.
    split; repeat (f_equal; try lra).
Qed.

Lemma C4_node_and_center_vectors_witness :
  (exists N CC,
      vectorN (mk [[1; 2]; [3]] [5; 7] "TENSOR") 0 = Ok (Some N) /\
      vectorCC (mk [[1; 2]; [3]] [5; 7] "TENSOR") 0 = Ok (Some CC) /\
      List.length N = 3%nat /\
      nth 0 N 0 = 5 /\
      (forall k, (k <= 2)%nat -> nth k N 0 = 5 + Arr.sum (firstn k [1; 2])) /\
      List.length CC = 2%nat /\
      (forall k, (k < 2)%nat ->
                 nth k CC 0 = (nth k N 0 + nth (S k) N 0) / 2)) /\
  vectorNx (mk [[1; 1; 1; 1]] [0] "TENSOR") = Ok [0; 1; 2; 3; 4] /\
  vectorCCx (mk [[1; 1; 1; 1]] [0] "TENSOR") = Ok [0.5; 1.5; 2.5; 3.5].
Proof.
  apply (@C4_node_and_center_vectors (mk [[1; 2]; [3]] [5; 7] "TENSOR")
           0%nat [1; 2] 5); simpl; try reflexivity; lia.
Defined.

End TensorVectorFacts.

(** ** Fortran and C order on n-dimensional arrays *)

Module NdFacts.

Import Nd.

Section Orders.

Variable A : Type.
Variable d : A.

Lemma size_cons (n : nat) (sh : list nat) : size (n :: sh) = n * size sh.
Proof. reflexivity. Qed.

Lemma valid_length (sh idx : list nat) :
  valid sh idx -> List.length idx = List.length sh.
Proof. intros H. induction H; simpl; congruence. Qed.

Lemma ravelF_unravelF (sh : list nat) (k : nat) :
  k < size sh -> ravelF sh (unravelF sh k) = k.
Proof.
  revert k. induction sh as [|n sh IH]; intros k Hk.
  - simpl in Hk. simpl. lia.
  - rewrite size_cons in Hk. cbn [unravelF ravelF].
    assert (Hn : n <> 0) by (intros ->; simpl in Hk; lia).
    rewrite IH.
    + pose proof (Nat.div_mod_eq k n). lia.
    + apply Nat.Div0.div_lt_upper_bound. lia.
Qed.

Lemma unravelF_valid (sh : list nat) (k : nat) :
  k < size sh -> valid sh (unravelF sh k).
Proof.
  revert k. induction sh as [|n sh IH]; intros k Hk.
  - constructor.
  - rewrite size_cons in Hk. cbn [unravelF].
    assert (Hn : n <> 0) by (intros ->; simpl in Hk; lia).
    constructor.
    + now apply Nat.mod_upper_bound.
    + apply IH. apply Nat.Div0.div_lt_upper_bound. lia.
Qed.

Lemma unravelF_ravelF (sh idx : list nat) :
  valid sh idx -> unravelF sh (ravelF sh idx) = idx.
Proof.
  intros H. induction H as [|i n idx sh Hi H IH].
  - reflexivity.
  - cbn [ravelF unravelF]. f_equal.
    + rewrite (Nat.mul_comm n), Nat.Div0.mod_add.
      now apply Nat.mod_small.
    + rewrite (Nat.mul_comm n), Nat.div_add by lia.
      rewrite (Nat.div_small i n) by exact Hi.
      rewrite Nat.add_0_l. exact IH.
Qed.

Lemma ravelF_bound (sh idx : list nat) :
  valid sh idx -> ravelF sh idx < size sh.
Proof.
  intros H. induction H as [|i n idx sh Hi H IH].
  - simpl. lia.
  - cbn [ravelF]. rewrite size_cons. nia.
Qed.

Lemma ravelC_bound (sh idx : list nat) :
  valid sh idx -> ravelC sh idx < size sh.
Proof.
  intros H. induction H as [|i n idx sh Hi H IH].
  - simpl. lia.
  - cbn [ravelC]. rewrite size_cons. nia.
Qed.

Lemma unravelC_ravelC (sh idx : list nat) :
  valid sh idx -> unravelC sh (ravelC sh idx) = idx.
Proof.
  intros H. induction H as [|i n idx sh Hi H IH].
  - reflexivity.
  - cbn [ravelC unravelC].
    pose proof (ravelC_bound H) as Hb.
    f_equal.
    + rewrite Nat.div_add_l by lia.
      rewrite (Nat.div_small _ _ Hb). lia.
    + rewrite Nat.add_comm, Nat.Div0.mod_add.
      rewrite (Nat.mod_small _ _ Hb). exact IH.
Qed.

Lemma nth_map_seq (g : nat -> A) (n i : nat) :
  i < n -> nth i (map g (seq 0 n)) d = g i.
Proof.
  intros Hi.
  rewrite (nth_indep _ d (g 0)) by (now rewrite length_map, length_seq).
  rewrite (map_nth g (seq 0 n) 0 i). now rewrite seq_nth.
Qed.

Lemma map_seq_ext (g : nat -> A) (l : list A) :
  (forall k, k < List.length l -> g k = nth k l d) ->
  map g (seq 0 (List.length l)) = l.
Proof.
  intros H. apply (nth_ext _ _ d d).
  - now rewrite length_map, length_seq.
  - intros k Hk. rewrite length_map, length_seq in Hk.
    rewrite nth_map_seq by exact Hk. now apply H.
Qed.

(** Reading the array built from [f] at a valid multi-index gives [f]. *)
Lemma get_of_fun (sh : list nat) (f : list nat -> A) (idx : list nat) :
  valid sh idx -> get d (of_fun sh f) idx = f idx.
Proof.
  intros H. unfold get, of_fun. cbn [shape data].
  rewrite nth_map_seq by (now apply ravelC_bound).
  now rewrite unravelC_ravelC.
Qed.

Lemma of_fun_wf (sh : list nat) (f : list nat -> A) : wf (of_fun sh f).
Proof. unfold wf, of_fun. cbn [shape data]. now rewrite length_map, length_seq. Qed.

Lemma mkvc_data_ext (a b : ndarray A) :
  size (shape a) = size (shape b) ->
  (forall k, k < size (shape a) ->
     get d a (unravelF (shape a) k) = get d b (unravelF (shape b) k)) ->
  mkvc d a = mkvc d b.
Proof.
  intros Hs H. unfold mkvc. rewrite <- Hs. f_equal.
  apply map_ext_in. intros k Hk. apply in_seq in Hk. apply H. lia.
Qed.

Lemma no_negative_to_nat (nn : list Z) :
  existsb (fun n => (n <? 0)%Z) nn = false ->
  map Z.of_nat (map Z.to_nat nn) = nn.
Proof.
  induction nn as [|n nn IH]; intros H; [reflexivity|].
  simpl in H. apply orb_false_elim in H. destruct H as [Hn H].
  apply Z.ltb_ge in Hn. simpl. rewrite Z2Nat.id by exact Hn.
  now rewrite IH.
Qed.

(** Reshaping in Fortran order and flattening in Fortran order again gives
    the flattening of the array one started from. *)
Lemma mkvc_reshape_F (a m : ndarray A) (nn : list Z) :
  reshape_F d a nn = Ok m -> mkvc d m = mkvc d a.
Proof.
  unfold reshape_F.
  destruct (existsb (fun n => (n <? 0)%Z) nn); [discriminate|].
  destruct (Nat.eqb_spec (size (shape a)) (size (map Z.to_nat nn)))
    as [Hs|Hs]; [|discriminate].
  intros H. injection H as <-.
  apply mkvc_data_ext; cbn [shape of_fun]; [now rewrite Hs|].
  intros k Hk.
  rewrite get_of_fun by (now apply unravelF_valid).
  rewrite ravelF_unravelF by exact Hk. reflexivity.
Qed.

(** A 1-D array is its own vector form. *)
Lemma mkvc_vec (l : list A) : mkvc d (vec l) = vec l.
Proof.
  unfold mkvc. f_equal. cbn [vec shape].
  replace (size [List.length l]) with (List.length l)
    by (unfold size; cbn [fold_right]; now rewrite Nat.mul_1_r).
  apply map_seq_ext. intros k Hk.
  unfold get. cbn [shape data unravelF ravelC size fold_right].
  rewrite Nat.mod_small by exact Hk. f_equal.
  cbn [vec shape ravelC size fold_right]. lia.
Qed.

Lemma get_vec (l : list A) (k : nat) : get d (vec l) [k] = nth k l d.
Proof.
  unfold get, vec. cbn [shape data ravelC size fold_right]. f_equal. lia.
Qed.

(** The element of a reshaped 1-D array at a multi-index is the element of
    the vector at the Fortran offset of the multi-index. *)
Lemma get_reshape_F_vec (l : list A) (m : ndarray A) (nn : list Z)
    (idx : list nat) :
  reshape_F d (vec l) nn = Ok m ->
  valid (shape m) idx ->
  get d m idx = nth (ravelF (shape m) idx) l d.
Proof.
  unfold reshape_F.
  destruct (existsb (fun n => (n <? 0)%Z) nn); [discriminate|].
  destruct (Nat.eqb_spec (size (shape (vec l))) (size (map Z.to_nat nn)))
    as [Hs|Hs]; [|discriminate].
  intros H. injection H as <-. cbn [shape of_fun]. intros Hv.
  rewrite get_of_fun by exact Hv.
  pose proof (ravelF_bound Hv) as Hb. rewrite <- Hs in Hb.
  cbn [vec shape size fold_right] in Hb.
  unfold get. cbn [vec shape data unravelF ravelC size fold_right].
  rewrite Nat.mod_small by lia. f_equal. lia.
Qed.

End Orders.

End NdFacts.

(** ** The grid of a tensor mesh and the reshape utility *)

Module GridFacts.

Import Nd NdFacts BaseRectangularMesh BaseTensorMesh GridSpec.

Lemma coords_nth (vs : list (list R)) (idx : list nat) (a : nat) :
  List.length idx = List.length vs -> a < List.length vs ->
  nth a (coords vs idx) 0%R = nth (nth a idx 0) (nth a vs []) 0%R.
Proof.
  revert idx a. induction vs as [|v vs IH]; intros [|i idx] a Hl Ha;
    simpl in *; try lia.
  destruct a as [|a]; [reflexivity|]. apply IH; lia.
Qed.

Section FlatMap.

Variables B C : Type.
Variable db : B.
Variable dc : C.

Lemma flat_map_uniform_length (f : B -> list C) (l : list B) (n : nat) :
  Forall (fun x => List.length (f x) = n) l ->
  List.length (flat_map f l) = n * List.length l.
Proof.
  induction 1 as [|x l Hx H IH]; simpl; [lia|].
  rewrite length_app, IH, Hx. lia.
Qed.

(** In a concatenation of blocks of [n] elements, position [k] is position
    [k mod n] of block [k / n]. *)
Lemma flat_map_uniform_nth (f : B -> list C) (l : list B) (n k : nat) :
  Forall (fun x => List.length (f x) = n) l ->
  k < n * List.length l ->
  nth k (flat_map f l) dc = nth (k mod n) (f (nth (k / n) l db)) dc.
Proof.
  intros H. revert k. induction H as [|x l Hx H IH]; intros k Hk.
  - simpl in Hk. lia.
  - assert (Hn : n <> 0) by (intros ->; simpl in Hk; lia).
    cbn [flat_map]. destruct (Nat.lt_ge_cases k n) as [Hlt|Hge].
    + rewrite app_nth1 by lia.
      rewrite Nat.div_small, Nat.mod_small by exact Hlt. reflexivity.
    + rewrite app_nth2 by lia. rewrite Hx.
      assert (E : k = k - n + 1 * n) by lia.
      rewrite E at 2 3.
      rewrite Nat.Div0.mod_add, Nat.div_add by exact Hn.
      rewrite IH by (simpl in Hk; lia).
      replace ((k - n) / n + 1) with (S ((k - n) / n)) by lia.
      reflexivity.
Qed.

End FlatMap.

Lemma outer_length (vs : list (list R)) :
  List.length (outer vs) = size (map (@List.length R) vs).
Proof.
  induction vs as [|v vs IH]; [reflexivity|].
  cbn [outer map]. rewrite size_cons.
  rewrite (@flat_map_uniform_length _ _ _ _ (List.length v)).
  - now rewrite IH.
  - apply Forall_forall. intros tail _. apply length_map.
Qed.

Lemma outer_row_length (vs : list (list R)) :
  Forall (fun p => List.length p = List.length vs) (outer vs).
Proof.
  induction vs as [|v vs IH]; [repeat constructor|].
  cbn [outer]. apply Forall_forall. intros p Hp.
  apply in_flat_map in Hp. destruct Hp as [tail [Ht Hp]].
  apply in_map_iff in Hp. destruct Hp as [x [<- _]].
  rewrite Forall_forall in IH. simpl. f_equal. now apply IH.
Qed.

(** Row [k] of the grid holds, on axis [a], the entry of the [a]-th vector
    at the [a]-th component of the Fortran multi-index of [k]. *)
Lemma outer_nth (vs : list (list R)) (k : nat) :
  k < size (map (@List.length R) vs) ->
  nth k (outer vs) [] = coords vs (unravelF (map (@List.length R) vs) k).
Proof.
  revert k. induction vs as [|v vs IH]; intros k Hk.
  - simpl in Hk. assert (k = 0) by lia. subst k. reflexivity.
  - cbn [map] in Hk. rewrite size_cons in Hk.
    assert (Hn : List.length v <> 0) by (intros E; rewrite E in Hk; simpl in Hk; lia).
    cbn [outer map unravelF coords].
    rewrite (@flat_map_uniform_nth _ _ [] [] _ _ (List.length v)).
    + rewrite (nth_indep _ [] (nth 0 v 0%R :: nth (k / List.length v) (outer vs) []))
        by (rewrite length_map; now apply Nat.mod_upper_bound).
      rewrite (map_nth (fun x => x :: nth (k / List.length v) (outer vs) [])).
      f_equal.
      * apply nth_indep. now apply Nat.mod_upper_bound.
      * apply IH. apply Nat.Div0.div_lt_upper_bound. lia.
    + apply Forall_forall. intros tail _. apply length_map.
    + rewrite outer_length. exact Hk.
Qed.

(** Entry [(i, j)] of a 2-D array given by its rows. *)
Lemma get_of_rows (w : nat) (rows : list (list R)) (i j : nat) :
  Forall (fun p => List.length p = w) rows ->
  i < List.length rows -> j < w ->
  get 0%R (of_rows w rows) [i; j] = nth j (nth i rows []) 0%R.
Proof.
  intros Hw Hi Hj. unfold get, of_rows.
  cbn [Nd.shape data ravelC size fold_right].
  replace (i * (w * 1) + (j * 1 + 0)) with (j + i * w) by lia.
  replace (concat rows) with (flat_map (fun p : list R => p) rows)
    by (rewrite flat_map_concat_map; now rewrite map_id).
  assert (Hb : j + i * w < w * List.length rows).
  { apply Nat.lt_le_trans with (w + i * w); [lia|].
    replace (w + i * w) with (w * S i) by lia.
    apply Nat.mul_le_mono_l. lia. }
  rewrite (@flat_map_uniform_nth _ _ [] 0%R (fun p => p) rows w _ Hw Hb).
  rewrite Nat.Div0.mod_add, Nat.div_add by lia.
  rewrite Nat.mod_small, Nat.div_small by exact Hj. reflexivity.
Qed.

Lemma column_ndgrid (vs : list (list R)) (a : nat) :
  a < List.length vs ->
  column 0%R (ndgrid vs) a =
    vec (map (fun k => nth a (coords vs (unravelF (map (@List.length R) vs) k)) 0%R)
             (seq 0 (size (map (@List.length R) vs)))).
Proof.
  intros Ha. unfold column, ndgrid. f_equal.
  cbn [of_rows Nd.shape nth]. rewrite outer_length.
  apply map_ext_in. intros k Hk. apply in_seq in Hk.
  fold (of_rows (List.length vs) (outer vs)).
  rewrite get_of_rows.
  - rewrite outer_nth by lia. reflexivity.
  - apply outer_row_length.
  - rewrite outer_length. lia.
  - exact Ha.
Qed.

Lemma prodz_of_nat_size (l : list nat) :
  Np.prodz (map Z.of_nat l) = Z.of_nat (size l).
Proof.
  induction l as [|n l IH]; [reflexivity|].
  cbn [map]. rewrite BaseMeshFacts.prodz_cons, IH, size_cons. lia.
Qed.

Lemma collect_map_ok (B : Type) (f : B -> res (option (ndarray R)))
    (g : B -> ndarray R) (l : list B) :
  (forall x, In x l -> f x = Ok (Some (g x))) ->
  collect (map f l) = Ok (map (fun x => Some (g x)) l).
Proof.
  induction l as [|x l IH]; intros H; [reflexivity|].
  cbn [map collect]. rewrite H by (now left). cbn [bind].
  rewrite IH by (intros y Hy; apply H; now right). reflexivity.
Qed.

Lemma to_nat_of_nat_map (l : list nat) : map Z.to_nat (map Z.of_nat l) = l.
Proof.
  induction l as [|n l IH]; [reflexivity|].
  simpl. now rewrite Nat2Z.id, IH.
Qed.

Lemma no_negative_of_nat (l : list nat) :
  existsb (fun n => (n <? 0)%Z) (map Z.of_nat l) = false.
Proof.
  induction l as [|n l IH]; [reflexivity|].
  cbn [map existsb]. rewrite IH, orb_false_r. apply Z.ltb_ge. lia.
Qed.

(** What [r] does on node data in matrix format. *)
Lemma r_N_M_unfold (sh : list Z) (x : ndarray R) :
  r sh x "N" "N" "M" =
    if ((List.length (Nd.shape x) =? 2)
        && (nth 1 (Nd.shape x) 0 =? BaseMesh.dim sh))%bool
    then (out <- collect
                   (map (fun ii => switchKernal sh "M" "N" "N" (column 0%R x ii))
                        (seq 0 (nth 1 (Nd.shape x) 0))) ;;
          Ok (RTuple out))
    else (a <- switchKernal sh "M" "N" "N" x ;; Ok (RArr a)).
Proof. reflexivity. Qed.

Lemma switchKernal_N_M_unfold (sh : list Z) (xx : ndarray R) :
  switchKernal sh "M" "N" "N" xx =
    if negb (size_is xx (Np.prodz (map (fun n => (n + 1)%Z) sh)))
    then Raise Exception
    else (m <- reshape_F 0%R xx (map (fun n => (n + 1)%Z) sh) ;; Ok (Some m)).
Proof. reflexivity. Qed.

Lemma switchKernal_N_M_vec (sh : list Z) (lens : list nat) (l : list R) :
  map (fun n => (n + 1)%Z) sh = map Z.of_nat lens ->
  List.length l = size lens ->
  switchKernal sh "M" "N" "N" (vec l) = Ok (Some (as_matrix lens l)) /\
  reshape_F 0%R (vec l) (map Z.of_nat lens) = Ok (as_matrix lens l).
Proof.
  intros Hsh Hl.
  assert (E : reshape_F 0%R (vec l) (map Z.of_nat lens) = Ok (as_matrix lens l)).
  { unfold reshape_F. rewrite no_negative_of_nat, to_nat_of_nat_map.
    assert (E1 : (size (Nd.shape (vec l)) =? size lens) = true).
    { apply Nat.eqb_eq. cbn [vec Nd.shape size fold_right].
      rewrite Nat.mul_1_r. exact Hl. }
    rewrite E1. reflexivity. }
  split; [|exact E].
  rewrite switchKernal_N_M_unfold, Hsh, E.
  unfold size_is. cbn [vec Nd.shape size fold_right].
  rewrite prodz_of_nat_size, Nat.mul_1_r, Hl, Z.eqb_refl. reflexivity.
Qed.

(** [r] on the grid of the vectors [vs], in matrix format: one matrix per
    axis; its vector form is the column of the grid it came from, and its
    element at a multi-index is the entry of that axis's vector at the
    index of that axis. *)
Lemma r_ndgrid (sh : list Z) (vs : list (list R)) :
  map (fun n => (n + 1)%Z) sh = map Z.of_nat (map (@List.length R) vs) ->
  exists Ms,
    r sh (ndgrid vs) "N" "N" "M" = Ok (RTuple (map Some Ms)) /\
    List.length Ms = List.length vs /\
    forall a M, nth_error Ms a = Some M ->
      Nd.shape M = map (@List.length R) vs /\
      mkvc 0%R M = column 0%R (ndgrid vs) a /\
      forall idx, valid (Nd.shape M) idx ->
        get 0%R M idx = nth (nth a idx 0) (nth a vs []) 0%R.
Proof.
  intros Hsh.
  set (lens := map (@List.length R) vs).
  set (col := fun a =>
         map (fun k => nth a (coords vs (unravelF lens k)) 0%R) (seq 0 (size lens))).
  assert (Hdim : BaseMesh.dim sh = List.length vs).
  { unfold BaseMesh.dim.
    rewrite <- (length_map (fun n => (n + 1)%Z) sh), Hsh, !length_map.
    reflexivity. }
  exists (map (fun a => as_matrix lens (col a)) (seq 0 (List.length vs))).
  assert (Hcol : forall a, List.length (col a) = size lens)
    by (intros a; unfold col; now rewrite length_map, length_seq).
  split; [|split].
  - assert (Hshape : Nd.shape (ndgrid vs)
                     = [List.length (outer vs); List.length vs]) by reflexivity.
    rewrite r_N_M_unfold, Hshape. cbn [nth List.length].
    rewrite Hdim, !Nat.eqb_refl. cbn [andb].
    rewrite (@collect_map_ok _ _ (fun a => as_matrix lens (col a))).
    + cbn [bind]. now rewrite map_map.
    + intros a Ha. apply in_seq in Ha.
      rewrite column_ndgrid by lia. fold lens. fold (col a).
      now apply switchKernal_N_M_vec.
  - now rewrite length_map, length_seq.
  - intros a M HM.
    assert (Ha : a < List.length vs).
    { assert (H' : nth_error (map (fun a => as_matrix lens (col a))
                               (seq 0 (List.length vs))) a <> None) by congruence.
      apply nth_error_Some in H'. now rewrite length_map, length_seq in H'. }
    rewrite nth_error_map, nth_error_seq in HM.
    rewrite (proj2 (Nat.ltb_lt _ _) Ha) in HM. cbn [option_map Nat.add] in HM.
    injection HM as <-.
    destruct (@switchKernal_N_M_vec sh lens (col a) Hsh (Hcol a)) as [_ HR].
    split; [reflexivity|]. split.
    + rewrite (mkvc_reshape_F 0%R _ _ HR), mkvc_vec.
      rewrite column_ndgrid by exact Ha. reflexivity.
    + intros idx Hv.
      rewrite (get_reshape_F_vec 0%R _ _ HR) by exact Hv.
      unfold as_matrix in *. cbn [of_fun Nd.shape] in *.
      pose proof (ravelF_bound Hv) as Hb.
      unfold col. rewrite nth_map_seq by exact Hb.
      rewrite unravelF_ravelF by exact Hv.
      apply coords_nth; [|exact Ha].
      rewrite (valid_length Hv). unfold lens. now rewrite length_map.
Qed.

End GridFacts.

(** ** The round trip between the node grid and its matrix form *)

Module RoundTrip.

Import Nd NdFacts BaseRectangularMesh BaseTensorMesh GridSpec GridFacts.
Import TensorVectorFacts.

(** The node vectors of a mesh of one to three axes: [getTensor('N')]
    returns them, one per axis and each one entry longer than the axis has
    cells. *)
Lemma getTensor_N (m : mesh) :
  1 <= List.length (h m) <= 3 ->
  List.length (x0 m) = List.length (h m) ->
  exists vs,
    getTensor m "N" = Ok vs /\
    List.length vs = dim m /\
    map (fun n => (n + 1)%Z) (BaseTensorMesh.shape m)
      = map Z.of_nat (map (@List.length R) vs) /\
    forall a, a < dim m -> vectorN m a = Ok (Some (nth a vs [])).
Proof.
  destruct m as [hs os t]. cbn [h x0]. intros Hd Hx.
  destruct hs as [|h0 [|h1 [|h2 [|h3 hs]]]]; simpl in Hd; try lia;
    destruct os as [|o0 [|o1 [|o2 [|o3 os]]]]; simpl in Hx; try lia.
  - exists [nodes_of h0 o0].
    split; [reflexivity|]. split; [reflexivity|]. split.
    + unfold BaseTensorMesh.shape. cbn [h map List.length].
      rewrite nodes_of_length, Nat2Z.inj_succ.
      repeat (f_equal; try lia).
    + intros a Ha. unfold dim, BaseMesh.dim, BaseTensorMesh.shape in Ha.
      simpl in Ha. destruct a as [|a]; [reflexivity|lia].
  - exists [nodes_of h0 o0; nodes_of h1 o1].
    split; [reflexivity|]. split; [reflexivity|]. split.
    + unfold BaseTensorMesh.shape. cbn [h map List.length].
      rewrite !nodes_of_length, !Nat2Z.inj_succ.
      repeat (f_equal; try lia).
    + intros a Ha. unfold dim, BaseMesh.dim, BaseTensorMesh.shape in Ha.
      simpl in Ha. destruct a as [|[|a]]; [reflexivity|reflexivity|lia].
  - exists [nodes_of h0 o0; nodes_of h1 o1; nodes_of h2 o2].
    split; [reflexivity|]. split; [reflexivity|]. split.
    + unfold BaseTensorMesh.shape. cbn [h map List.length].
      rewrite !nodes_of_length, !Nat2Z.inj_succ.
      repeat (f_equal; try lia).
    + intros a Ha. unfold dim, BaseMesh.dim, BaseTensorMesh.shape in Ha.
      simpl in Ha.
      destruct a as [|[|[|a]]]; [reflexivity|reflexivity|reflexivity|lia].
Qed.

(** C2: for a tensor mesh of one to three axes, [r(gridN, 'N', 'N', 'M')]
    returns one matrix per axis, of the shape of the node grid; bringing a
    matrix back to vector form gives the column of [gridN] it was made of,
    element for element in the same order; and the orders of the grid
    builder and of the reshape agree: the matrix of axis [a] holds at a
    multi-index the node of axis [a] at the index of that axis. *)
Theorem C2_grid_reshape_roundtrip (m : mesh) :
  1 <= List.length (h m) <= 3 ->
  List.length (x0 m) = List.length (h m) ->
  exists G Ms,
    gridN m = Ok G /\
    r (BaseTensorMesh.shape m) G "N" "N" "M" = Ok (RTuple (map Some Ms)) /\
    List.length Ms = dim m /\
    forall a M, nth_error Ms a = Some M ->
      Nd.shape M = map Z.to_nat (vnN (BaseTensorMesh.shape m)) /\
      mkvc 0%R M = column 0%R G a /\
      exists Na,
        vectorN m a = Ok (Some Na) /\
        forall idx, valid (Nd.shape M) idx ->
          get 0%R M idx = nth (nth a idx 0) Na 0%R.
Proof.
  intros Hd Hx.
  destruct (getTensor_N m Hd Hx) as [vs [Hvs [Hlen [Hsh HN]]]].
  destruct (r_ndgrid (BaseTensorMesh.shape m) vs Hsh) as [Ms [Hr [HMs HM]]].
  exists (ndgrid vs), Ms.
  unfold gridN, _getTensorGrid. rewrite Hvs. cbn [bind].
  repeat split; try assumption; try congruence.
  - destruct (HM a M H) as [E _]. rewrite E. unfold vnN.
    rewrite Hsh. now rewrite to_nat_of_nat_map.
  - now destruct (HM a M H) as [_ [E _]].
  - assert (Ha : a < dim m).
    { rewrite <- Hlen, <- HMs. apply nth_error_Some. congruence. }
    exists (nth a vs []). split; [now apply HN|].
    now destruct (HM a M H) as [_ [_ E]].
Qed.

Lemma C2_grid_reshape_roundtrip_witness :
  exists G Ms,
    gridN (mk [[1%R; 2%R]; [3%R]] [0%R; 0%R] "TENSOR") = Ok G /\
    r (BaseTensorMesh.shape (mk [[1%R; 2%R]; [3%R]] [0%R; 0%R] "TENSOR"))
      G "N" "N" "M" = Ok (RTuple (map Some Ms)) /\
    List.length Ms = dim (mk [[1%R; 2%R]; [3%R]] [0%R; 0%R] "TENSOR") /\
    forall a M, nth_error Ms a = Some M ->
      Nd.shape M
        = map Z.to_nat
            (vnN (BaseTensorMesh.shape (mk [[1%R; 2%R]; [3%R]] [0%R; 0%R] "TENSOR"))) /\
      mkvc 0%R M = column 0%R G a /\
      exists Na,
        vectorN (mk [[1%R; 2%R]; [3%R]] [0%R; 0%R] "TENSOR") a = Ok (Some Na) /\
        forall idx, valid (Nd.shape M) idx ->
          get 0%R M idx = nth (nth a idx 0) Na 0%R.
Proof.
  apply (@C2_grid_reshape_roundtrip (mk [[1%R; 2%R]; [3%R]] [0%R; 0%R] "TENSOR"));
    simpl; lia.
Defined.

End RoundTrip.

(** ** The fast inner product *)

Module InnerProductFacts.

Import BaseRectangularMesh BaseTensorMesh OperatorSpec TensorVectorFacts.
Local Open Scope R_scope.

Lemma sum_over_S (n : nat) (f : nat -> R) :
  sum_over (S n) f = f 0%nat + sum_over n (fun c => f (S c)).
Proof.
  unfold sum_over. cbn [seq map]. rewrite sum_cons.
  now rewrite <- seq_shift, map_map.
Qed.

Lemma dot_cons (x y : R) (a b : list R) :
  Mat.dot (x :: a) (y :: b) = x * y + Mat.dot a b.
Proof. unfold Mat.dot. cbn [Arr.zip_with]. apply sum_cons. Qed.

(** The dot product of two arrays of one length, position by position. *)
Lemma dot_as_sum (a b : list R) :
  List.length a = List.length b ->
  Mat.dot a b = sum_over (List.length a) (fun c => nth c a 0 * nth c b 0).
Proof.
  revert b. induction a as [|x a IH]; intros [|y b] H; simpl in H; try lia.
  - reflexivity.
  - rewrite dot_cons. cbn [List.length]. rewrite sum_over_S. cbn [nth].
    f_equal. apply IH. lia.
Qed.

Lemma entry_sdiag (v : list R) (i j : nat) :
  (i < List.length v)%nat -> (j < List.length v)%nat ->
  Mat.entry (Mat.sdiag v) i j = if (i =? j)%nat then nth i v 0 else 0.
Proof.
  intros Hi Hj. unfold Mat.entry, Mat.sdiag. cbn [Mat.rows].
  rewrite (NdFacts.nth_map_seq []) by exact Hi.
  now rewrite (NdFacts.nth_map_seq 0) by exact Hj.
Qed.

Lemma entry_scale (c : R) (m : Mat.t) (i j : nat) :
  Mat.entry (Mat.scale c m) i j = c * Mat.entry m i j.
Proof.
  unfold Mat.entry, Mat.scale. cbn [Mat.rows].
  change (@nil R) with (map (fun x => c * x) []) at 1.
  rewrite (map_nth (map (fun x => c * x))).
  destruct (Nat.lt_ge_cases j (List.length (nth i (Mat.rows m) []))) as [H|H].
  - rewrite (nth_indep _ 0 (c * 0)) by (now rewrite length_map).
    apply (map_nth (fun x => c * x)).
  - rewrite !nth_overflow by (rewrite ?length_map; exact H). ring.
Qed.

Lemma mem_F_E (projType : string) :
  projType = "F"%string \/ projType = "E"%string ->
  mem projType ["F"; "E"]%string = true.
Proof. intros [->| ->]; reflexivity. Qed.

Lemma ones_of_nat (n : nat) : Np.ones (Z.of_nat n) = Ok (repeat 1 n).
Proof.
  unfold Np.ones. rewrite (proj2 (Z.ltb_ge _ _)) by lia.
  now rewrite Nat2Z.id.
Qed.

(** C1, the claim as stated fails: on the 1-D mesh of one cell of width 1,
    with its face-to-centre averaging [(1/2, 1/2)], volume 1 and property
    1, the code returns the diagonal matrix [diag(1/2, 1/2)], where
    [scale * Average^T * diag(cellVolume * property) * Average] is the full
    matrix of entries [1/4]. *)
Lemma C1_counterexample :
  exists M M',
    _fastInnerProduct ave_one_cell vol_one_cell one_cell "F"
      (PArray (Nd.vec [1])) false false = Ok (Some M) /\
    innerProduct_spec (INR (dim one_cell)) (ave_one_cell "aveF2CC")
      vol_one_cell [1] = Ok M' /\
    Mat.entry M 0 1 = 0 /\ Mat.entry M' 0 1 = 1 / 4 /\
    M <> M'.
Proof.
  eexists. eexists.
  split; [reflexivity|]. split; [reflexivity|].
  split; [|split].
  - unfold Mat.entry. simpl. lra.
  - unfold Mat.entry, Mat.dot, Arr.sum. simpl. lra.
  - intros H.
    assert (H' : forall M1 M2 : Mat.t, M1 = M2 ->
                   Mat.entry M1 0 1 = Mat.entry M2 0 1) by (intros; now subst).
    apply H' in H. unfold Mat.entry, Mat.dot, Arr.sum in H. simpl in H. lra.
Qed.

Lemma transpose_row (Av : Mat.t) (i : nat) :
  (i < Mat.ncols Av)%nat ->
  nth i (Mat.rows (Mat.transpose Av)) []
    = map (fun row => nth i row 0) (Mat.rows Av).
Proof.
  intros Hi. unfold Mat.transpose. cbn [Mat.rows].
  now rewrite (NdFacts.nth_map_seq []) by exact Hi.
Qed.

(** C1 (amended): for a tensor mesh and an isotropic property with one
    value per cell, the matrix returned by [_fastInnerProduct] is
    [scale * diag(Average^T * (cellVolume * property))]: it is square of the
    size of the faces (edges), its off-diagonal entries are zero, and its
    diagonal entry [i] is [scale] times the sum over the cells [c] of
    [Average[c, i] * cellVolume[c] * property[c]]; [scale] is the number of
    elements averaged, which is the dimension of the mesh unless the mesh
    is cylindrical. *)
Theorem C1_fast_inner_product (ave : string -> Mat.t) (vol : list R)
    (m : mesh) (projType : string) (p : list R) :
  projType = "F"%string \/ projType = "E"%string ->
  Z.of_nat (List.length p) = nC m ->
  List.length vol = List.length p ->
  Mat.nrows (ave (String.append "ave" (String.append projType "2CC")))
    = List.length p ->
  let Av := ave (String.append "ave" (String.append projType "2CC")) in
  let scale := INR (n_elements m projType) in
  exists M,
    _fastInnerProduct ave vol m projType (PArray (Nd.vec p)) false false
      = Ok (Some M) /\
    Mat.nrows M = Mat.ncols Av /\ Mat.ncols M = Mat.ncols Av /\
    (forall i j, (i < Mat.ncols Av)%nat -> (j < Mat.ncols Av)%nat ->
       Mat.entry M i j =
         if (i =? j)%nat then
           scale *
           sum_over (List.length p)
             (fun c => Mat.entry Av c i * (nth c vol 0 * nth c p 0))
         else 0) /\
    (String.eqb (_meshType m) "CYL" = false -> scale = INR (dim m)).
Proof.
  intros HP HnC Hvol Hrows Av scale.
  unfold _fastInnerProduct.
  rewrite (mem_F_E HP). cbn [negb].
  rewrite <- HnC, ones_of_nat. cbn [bind].
  assert (Hsize : (prop_size (Nd.vec p) =? Z.of_nat (List.length p))%Z = true).
  { apply Z.eqb_eq. unfold prop_size. cbn [Nd.vec Nd.shape Nd.size fold_right].
    now rewrite Nat.mul_1_r. }
  rewrite Hsize. rewrite (NdFacts.mkvc_vec 0 p). cbn [Nd.vec Nd.data].
  rewrite (broadcast_same_length Rmult vol p Hvol). cbn [bind].
  fold Av.
  assert (Hmulv : Mat.mulv (Mat.transpose Av) (Arr.zip_with Rmult vol p)
                  = Ok (map (fun row => Mat.dot row (Arr.zip_with Rmult vol p))
                            (Mat.rows (Mat.transpose Av)))).
  { unfold Mat.mulv. cbn [Mat.transpose Mat.ncols].
    rewrite zip_with_length by exact Hvol.
    unfold Av. rewrite Hrows, Hvol, Nat.eqb_refl. reflexivity. }
  rewrite Hmulv. cbn [bind]. fold scale.
  eexists. split; [reflexivity|].
  set (d := map (fun row => Mat.dot row (Arr.zip_with Rmult vol p))
                (Mat.rows (Mat.transpose Av))).
  assert (Hd : List.length d = Mat.ncols Av).
  { unfold d, Mat.transpose. cbn [Mat.rows].
    now rewrite !length_map, length_seq. }
  split; [|split; [|split]].
  - unfold Mat.nrows, Mat.scale, Mat.sdiag. cbn [Mat.rows].
    now rewrite !length_map, length_seq.
  - unfold Mat.scale, Mat.sdiag. cbn [Mat.ncols]. exact Hd.
  - intros i j Hi Hj.
    rewrite entry_scale, entry_sdiag by (rewrite Hd; assumption).
    destruct (i =? j)%nat; [|ring].
    f_equal. unfold d.
    rewrite (nth_indep _ 0 (Mat.dot [] (Arr.zip_with Rmult vol p)))
      by (fold d; rewrite Hd; exact Hi).
    rewrite (map_nth (fun row => Mat.dot row (Arr.zip_with Rmult vol p))).
    rewrite transpose_row by exact Hi.
    rewrite dot_as_sum
      by (rewrite length_map, zip_with_length by exact Hvol;
          fold (Mat.nrows Av); unfold Av; now rewrite Hrows, Hvol).
    rewrite length_map. fold (Mat.nrows Av). unfold Av at 1. rewrite Hrows.
    unfold sum_over. f_equal. apply map_ext_in. intros c Hc.
    apply in_seq in Hc.
    rewrite zip_with_nth by lia.
    f_equal. unfold Mat.entry.
    rewrite (nth_indep _ 0 (nth i [] 0))
      by (rewrite length_map; fold (Mat.nrows Av); unfold Av; rewrite Hrows; lia).
    apply (map_nth (fun row => nth i row 0)).
  - intros Hcyl. unfold scale, n_elements. now rewrite Hcyl.
Qed.

Lemma C1_fast_inner_product_witness :
  exists M,
    _fastInnerProduct ave_one_cell vol_one_cell one_cell "F"
      (PArray (Nd.vec [1])) false false = Ok (Some M) /\
    Mat.nrows M = 2%nat /\ Mat.ncols M = 2%nat /\
    (forall i j, (i < 2)%nat -> (j < 2)%nat ->
       Mat.entry M i j =
         if (i =? j)%nat then
           INR (n_elements one_cell "F") *
           sum_over 1
             (fun c => Mat.entry (ave_one_cell "aveF2CC") c i
                       * (nth c vol_one_cell 0 * nth c [1] 0))
         else 0) /\
    (String.eqb (_meshType one_cell) "CYL" = false ->
     INR (n_elements one_cell "F") = INR (dim one_cell)).
Proof.
  apply (@C1_fast_inner_product ave_one_cell vol_one_cell one_cell "F" [1]);
    try reflexivity.
  left; reflexivity.
Defined.

End InnerProductFacts.

(** ** The containment test *)

Module ContainmentFacts.

Import BaseTensorMesh ContainmentSpec.
Local Open Scope R_scope.

Lemma Rleb_true (x y : R) : Arr.Rleb x y = true <-> x <= y.
Proof.
  unfold Arr.Rleb. destruct (Rle_dec x y); split; intros H;
    try assumption; try reflexivity; try discriminate; contradiction.
Qed.

Lemma nth_map_combine (f : bool * list R -> bool) (inside : list bool)
    (pts : list (list R)) (k : nat) (p : list R) :
  List.length inside = List.length pts ->
  nth_error pts k = Some p ->
  nth k (map f (combine inside pts)) false = f (nth k inside false, p).
Proof.
  revert pts k. induction inside as [|b inside IH]; intros [|q pts] k Hl Hk;
    simpl in Hl; try lia.
  - destruct k; discriminate Hk.
  - destruct k as [|k]; simpl in Hk.
    + injection Hk as ->. reflexivity.
    + cbn [combine map nth]. apply IH; [lia|exact Hk].
Qed.

Lemma min_some (t : list R) :
  (1 <= List.length t)%nat -> exists lo, Arr.min t = Ok lo.
Proof. destruct t as [|x t]; simpl; intros H; [lia|eauto]. Qed.

Lemma max_some (t : list R) :
  (1 <= List.length t)%nat -> exists hi, Arr.max t = Ok hi.
Proof. destruct t as [|x t]; simpl; intros H; [lia|eauto]. Qed.

Lemma diff_min_some (t : list R) :
  (2 <= List.length t)%nat -> exists dmin, Arr.min (Arr.diff t) = Ok dmin.
Proof.
  destruct t as [|x [|y t]]; simpl; intros H; try lia. eauto.
Qed.

Lemma fold_min_spec (l : list R) (x : R) :
  In (fold_left Rmin l x) (x :: l) /\
  forall y, In y (x :: l) -> fold_left Rmin l x <= y.
Proof.
  revert x. induction l as [|z l IH]; intros x; cbn [fold_left].
  - split; [now left|]. intros y [<-|[]]. lra.
  - destruct (IH (Rmin x z)) as [Hin Hle]. split.
    + destruct Hin as [H|H]; [|right; right; exact H].
      rewrite <- H. unfold Rmin. destruct (Rle_dec x z); [left|right; left];
        reflexivity.
    + intros y [<-|[<-|Hy]].
      * apply Rle_trans with (Rmin x z); [apply Hle; now left|apply Rmin_l].
      * apply Rle_trans with (Rmin x z); [apply Hle; now left|apply Rmin_r].
      * apply Hle. now right.
Qed.

Lemma fold_max_spec (l : list R) (x : R) :
  In (fold_left Rmax l x) (x :: l) /\
  forall y, In y (x :: l) -> y <= fold_left Rmax l x.
Proof.
  revert x. induction l as [|z l IH]; intros x; cbn [fold_left].
  - split; [now left|]. intros y [<-|[]]. lra.
  - destruct (IH (Rmax x z)) as [Hin Hle]. split.
    + destruct Hin as [H|H]; [|right; right; exact H].
      rewrite <- H. unfold Rmax. destruct (Rle_dec x z); [right; left|left];
        reflexivity.
    + intros y [<-|[<-|Hy]].
      * apply Rle_trans with (Rmax x z); [apply Rmax_l|apply Hle; now left].
      * apply Rle_trans with (Rmax x z); [apply Rmax_r|apply Hle; now left].
      * apply Hle. now right.
Qed.

(** [a.min()] is the least entry of the array and [a.max()] the greatest. *)
Lemma min_least (t : list R) (lo : R) :
  Arr.min t = Ok lo -> In lo t /\ forall y, In y t -> lo <= y.
Proof.
  destruct t as [|x t]; [discriminate|]. cbn [Arr.min].
  intros [= <-]. apply fold_min_spec.
Qed.

Lemma max_greatest (t : list R) (hi : R) :
  Arr.max t = Ok hi -> In hi t /\ forall y, In y t -> y <= hi.
Proof.
  destruct t as [|x t]; [discriminate|]. cbn [Arr.max].
  intros [= <-]. apply fold_max_spec.
Qed.

(** One turn of the loop adds the condition of its axis. *)
Lemma inside_axis_spec (pts : list (list R)) (i : nat) (t : list R)
    (inside : list bool) :
  (2 <= List.length t)%nat ->
  List.length inside = List.length pts ->
  exists bs,
    inside_axis pts i t inside = Ok bs /\
    List.length bs = List.length pts /\
    forall k p, nth_error pts k = Some p ->
      (nth k bs false = true <->
       nth k inside false = true /\ within t (nth i p 0)).
Proof.
  intros Ht Hl.
  destruct (min_some t) as [lo Hlo]; [lia|].
  destruct (max_some t) as [hi Hhi]; [lia|].
  destruct (@diff_min_some t Ht) as [dmin Hd].
  unfold inside_axis. rewrite Hd, Hlo, Hhi. cbn [bind].
  eexists. split; [reflexivity|]. split.
  - now rewrite length_map, length_combine, Hl, Nat.min_id.
  - intros k p Hk.
    rewrite (@nth_map_combine _ inside pts k p Hl Hk). cbn [fst snd].
    rewrite !andb_true_iff, !Rleb_true. unfold within. split.
    + intros [[Hb H1] H2]. split; [exact Hb|].
      exists lo, hi, dmin. repeat split; assumption.
    + intros [Hb [lo' [hi' [dmin' [E1 [E2 [E3 [H1 H2]]]]]]]].
      rewrite Hlo in E1. rewrite Hhi in E2. rewrite Hd in E3.
      injection E1 as <-. injection E2 as <-. injection E3 as <-.
      repeat split; assumption.
Qed.

(** The loop over the axes: a point stays inside exactly when it was and
    every remaining coordinate lies within its tensor. *)
Lemma inside_loop_spec (pts : list (list R)) (tensors : list (list R)) :
  forall (i0 : nat) (inside : list bool),
  Forall (fun t => (2 <= List.length t)%nat) tensors ->
  List.length inside = List.length pts ->
  exists bs,
    inside_loop pts i0 tensors inside = Ok bs /\
    List.length bs = List.length pts /\
    forall k p, nth_error pts k = Some p ->
      (nth k bs false = true <->
       nth k inside false = true /\
       forall j t, nth_error tensors j = Some t ->
                   within t (nth (i0 + j) p 0)).
Proof.
  induction tensors as [|t tensors IH]; intros i0 inside Hts Hl.
  - exists inside. split; [reflexivity|]. split; [exact Hl|].
    intros k p Hk. split.
    + intros H. split; [exact H|]. intros j t Hj. destruct j; discriminate Hj.
    + intros [H _]. exact H.
  - inversion Hts as [|t' ts' Ht Hts']; subst.
    destruct (@inside_axis_spec pts i0 t inside Ht Hl) as [bs1 [E1 [L1 S1]]].
    destruct (IH (S i0) bs1 Hts' L1) as [bs [E [L S']]].
    exists bs. cbn [inside_loop]. rewrite E1. cbn [bind].
    split; [exact E|]. split; [exact L|].
    intros k p Hk. rewrite (S' k p Hk), (S1 k p Hk). split.
    + intros [[Hb Hw] Hrest]. split; [exact Hb|].
      intros [|j] t0 Hj.
      * injection Hj as <-. now rewrite Nat.add_0_r.
      * rewrite Nat.add_succ_r. apply (Hrest j t0 Hj).
    + intros [Hb Hall]. split; [split; [exact Hb|]|].
      * specialize (Hall 0%nat t eq_refl). now rewrite Nat.add_0_r in Hall.
      * intros j t0 Hj. specialize (Hall (S j) t0 Hj).
        now rewrite Nat.add_succ_r in Hall.
Qed.

Lemma nth_repeat_true (n k : nat) :
  (k < n)%nat -> nth k (repeat true n) false = true.
Proof.
  revert k. induction n as [|n IH]; intros k Hk; [lia|].
  destruct k as [|k]; [reflexivity|]. simpl. apply IH. lia.
Qed.

(** What [isInside] returns, in terms of the tensors it tests. *)
Lemma isInside_spec (m : mesh) (pts : list (list R)) (locType : string)
    (tensors : list (list R)) :
  Forall (fun p => List.length p = dim m) pts ->
  tensors_tested m locType = Ok tensors ->
  Forall (fun t => (2 <= List.length t)%nat) tensors ->
  exists bs,
    isInside m pts locType = Ok bs /\
    List.length bs = List.length pts /\
    forall k p, nth_error pts k = Some p ->
      (nth k bs false = true <-> within_all tensors p).
Proof.
  intros Hp Ht H2.
  unfold isInside, asArray_N_x_Dim.
  assert (Hall : forallb (fun p => (List.length p =? dim m)%nat) pts = true).
  { apply forallb_forall. intros p Hin. apply Nat.eqb_eq.
    rewrite Forall_forall in Hp. now apply Hp. }
  rewrite Hall. cbn [bind].
  unfold tensors_tested in Ht.
  destruct (getTensor m locType) as [ts0|e]; [|discriminate Ht].
  cbn [bind] in *. rewrite Ht. cbn [bind].
  destruct (@inside_loop_spec pts tensors 0 (repeat true (List.length pts)) H2
              (repeat_length _ _)) as [bs [E [L S]]].
  exists bs. split; [exact E|]. split; [exact L|].
  intros k p Hk. rewrite (S k p Hk). unfold within_all. split.
  - intros [_ H]. exact H.
  - intros H. split; [|exact H].
    apply nth_repeat_true. apply nth_error_Some. congruence.
Qed.

Ltac solve_minmax :=
  unfold Rmin, Rmax in *;
  repeat match goal with
         | |- context [Rle_dec ?a ?b] => destruct (Rle_dec a b)
         | H : context [Rle_dec ?a ?b] |- _ => destruct (Rle_dec a b)
         end;
  pose proof PI2_1; pose proof PI_4; try lra.

(** C7, the claim as stated fails: on a cylindrical mesh whose radial nodes
    are 1 and 2, the point [(0.5, 0.5, 0.5)] is inside for the code, which
    tests the radial coordinate against the nodes [0, 1, 2]; it is not
    within [[1 - tol, 2 + tol]] of the radial node tensor, as the claim
    requires of every axis (the claim extends the angular tensor only). *)
Lemma C7_counterexample :
  isInside ring_mesh [[0.5; 0.5; 0.5]] "N" = Ok [true] /\
  (forall tensors, tensors_claimed ring_mesh "N" = Ok tensors ->
                   ~ within_all tensors [0.5; 0.5; 0.5]).
Proof.
  split.
  - destruct (@isInside_spec ring_mesh [[0.5; 0.5; 0.5]] "N"
                [[0; 0 + 1; 1 + 1]; [0 + 0; 1 + 0; 2 * PI]; [0 + 0; 1 + 0]])
      as [bs [E [L S]]].
    + repeat constructor.
    + reflexivity.
    + repeat constructor; simpl; lia.
    + rewrite E. f_equal.
      destruct bs as [|b [|b' bs]]; simpl in L; try lia.
      f_equal. apply (S 0%nat [0.5; 0.5; 0.5] eq_refl).
      intros i t Hi.
      destruct i as [|[|[|i]]]; simpl in Hi;
        [ | | |destruct i; discriminate Hi];
        injection Hi as <-; unfold within; cbn [nth];
        (eexists; eexists; eexists;
         split; [reflexivity|]; split; [reflexivity|]; split; [reflexivity|]);
        cbn [fold_left]; solve_minmax.
  - intros tensors Ht Hw.
    assert (E : tensors_claimed ring_mesh "N"
                = Ok [[0 + 1; 1 + 1]; [0 + 0; 1 + 0; 2 * PI]; [0 + 0; 1 + 0]])
      by reflexivity.
    rewrite E in Ht. injection Ht as <-.
    destruct (Hw 0%nat [0 + 1; 1 + 1] eq_refl)
      as [lo [hi [dmin [E1 [E2 [E3 [H1 H2]]]]]]].
    cbn [nth] in H1.
    simpl in E1, E3. injection E1 as <-. injection E3 as <-.
    solve_minmax.
Qed.

(** C7 (amended): for a tensor mesh, points of [dim] coordinates and a
    location whose tested tensors have at least two entries each, [isInside]
    returns one boolean per point, true exactly when every coordinate of the
    point lies within [[min - tol, max + tol]] of the tested tensor of its
    axis, [tol] being [1e-10] times the smallest spacing of that tensor; the
    tested tensors are the location tensors, except on a cylindrical mesh
    queried at the nodes, where for the test only the radial tensor gets a
    node at 0 and the angular tensor a node at [2*pi]. *)
Theorem C7_isInside (m : mesh) (pts : list (list R)) (locType : string)
    (tensors : list (list R)) :
  Forall (fun p => List.length p = dim m) pts ->
  tensors_tested m locType = Ok tensors ->
  Forall (fun t => (2 <= List.length t)%nat) tensors ->
  exists bs,
    isInside m pts locType = Ok bs /\
    List.length bs = List.length pts /\
    forall k p, nth_error pts k = Some p ->
      (nth k bs false = true <-> within_all tensors p).
Proof. apply isInside_spec. Qed.

Lemma C7_isInside_witness :
  exists bs,
    isInside ring_mesh [[0.5; 0.5; 0.5]; [3; 0; 0]] "N" = Ok bs /\
    List.length bs = 2%nat /\
    forall k p, nth_error [[0.5; 0.5; 0.5]; [3; 0; 0]] k = Some p ->
      (nth k bs false = true <->
       within_all [[0; 0 + 1; 1 + 1]; [0 + 0; 1 + 0; 2 * PI]; [0 + 0; 1 + 0]] p).
Proof.
  apply (@C7_isInside ring_mesh [[0.5; 0.5; 0.5]; [3; 0; 0]] "N"
           [[0; 0 + 1; 1 + 1]; [0 + 0; 1 + 0; 2 * PI]; [0 + 0; 1 + 0]]).
  - repeat constructor.
  - reflexivity.
  - repeat constructor; simpl; lia.
Defined.

End ContainmentFacts.

(** ** Interpolation and points outside the mesh *)

Module InterpolationFacts.

Import BaseRectangularMesh BaseTensorMesh ContainmentSpec ContainmentFacts.
Import InterpolationSpec.
Local Open Scope R_scope.

Lemma nth_map_combine_gen (A B C : Type) (f : A * B -> C)
    (l1 : list A) (l2 : list B) (k : nat) (da : A) (db : B) (dc : C) :
  (k < List.length l1)%nat -> (k < List.length l2)%nat ->
  nth k (map f (combine l1 l2)) dc = f (nth k l1 da, nth k l2 db).
Proof.
  revert l2 k. induction l1 as [|x l1 IH]; intros [|y l2] k H1 H2;
    simpl in H1, H2; try lia.
  destruct k as [|k]; [reflexivity|].
  cbn [combine map nth]. apply IH; lia.
Qed.

Lemma asArray_ok (pts pts' : list (list R)) (d : nat) :
  asArray_N_x_Dim pts d = Ok pts' -> pts' = pts.
Proof.
  unfold asArray_N_x_Dim.
  destruct (forallb _ pts); [|discriminate]. now intros [= <-].
Qed.

Lemma inside_loop_length (pts : list (list R)) (tensors : list (list R)) :
  forall (i : nat) (inside bs : list bool),
  inside_loop pts i tensors inside = Ok bs ->
  List.length inside = List.length pts ->
  List.length bs = List.length pts.
Proof.
  induction tensors as [|t tensors IH]; intros i inside bs H Hl.
  - simpl in H. injection H as <-. exact Hl.
  - cbn [inside_loop] in H. unfold inside_axis in H.
    destruct (Arr.min (Arr.diff t)); [|discriminate H].
    destruct (Arr.min t); [|discriminate H].
    destruct (Arr.max t); [|discriminate H].
    cbn [bind] in H. apply IH in H; [exact H|].
    now rewrite length_map, length_combine, Hl, Nat.min_id.
Qed.

(** [isInside] answers for the points it was given, one answer each. *)
Lemma isInside_ok (m : mesh) (pts : list (list R)) (locType : string)
    (bs : list bool) :
  isInside m pts locType = Ok bs ->
  asArray_N_x_Dim pts (dim m) = Ok pts /\ List.length bs = List.length pts.
Proof.
  unfold isInside. intros H.
  destruct (asArray_N_x_Dim pts (dim m)) as [pts'|e] eqn:E; [|discriminate H].
  pose proof (asArray_ok _ _ E) as ->. split; [reflexivity|].
  cbn [bind] in H.
  destruct (getTensor m locType) as [ts|e]; [|discriminate H].
  cbn [bind] in H.
  destruct (if (String.eqb locType "N" && String.eqb (_meshType m) "CYL")%bool
            then cyl_tensors ts else Ok ts) as [ts'|e]; [|discriminate H].
  cbn [bind] in H.
  apply inside_loop_length in H; [exact H|apply repeat_length].
Qed.

Lemma hstack_nrows (n : nat) (blocks : list Mat.t) (Q : Mat.t) :
  Mat.hstack n blocks = Ok Q -> Mat.nrows Q = n.
Proof.
  unfold Mat.hstack. destruct blocks as [|b blocks]; [discriminate|].
  destruct (forallb _ (b :: blocks)); [|discriminate].
  intros [= <-]. unfold Mat.nrows. cbn [Mat.rows].
  now rewrite length_map, length_seq.
Qed.

Lemma snap_length (loc : list (list R)) (mask : list bool) (c : list R) :
  List.length mask = List.length loc ->
  List.length (snap loc mask c) = List.length loc.
Proof.
  intros H. unfold snap. now rewrite length_map, length_combine, H, Nat.min_id.
Qed.

Section Interp.

Variable interpmat : list (list R) -> list (list R) -> Mat.t.
Hypothesis interpmat_rows :
  forall loc t, Mat.nrows (interpmat loc t) = List.length loc.

(** The matrix built for [loc] has one row per point. *)
Lemma dispatch_nrows (m : mesh) (loc : list (list R)) (locType : string)
    (Q : Mat.t) :
  locType_dispatch interpmat m loc locType = Ok Q ->
  Mat.nrows Q = List.length loc.
Proof.
  unfold locType_dispatch.
  destruct (mem locType ["Fx"; "Fy"; "Fz"; "Ex"; "Ey"; "Ez"]%string).
  - destruct (xyz_index (String.get 1 locType)) as [ind|e]; [|discriminate].
    cbn [bind]. destruct (dim m <? ind)%nat; [discriminate|].
    destruct (getTensor m locType) as [t|e]; [|discriminate].
    cbn [bind]. destruct (set_item _ ind (interpmat loc t)); [|discriminate].
    cbn [bind]. apply hstack_nrows.
  - destruct (mem locType ["CC"; "N"]%string).
    + destruct (getTensor m locType) as [t|e]; [|discriminate].
      cbn [bind]. intros [= <-]. apply interpmat_rows.
    + destruct (mem locType ["CCVx"; "CCVy"; "CCVz"]%string); [|discriminate].
      destruct (getTensor m "CC") as [t|e]; [|discriminate].
      cbn [bind].
      destruct (String.eqb locType "CCVx"); [apply hstack_nrows|].
      destruct (String.eqb locType "CCVy"); apply hstack_nrows.
Qed.

(** What [_getInterpolationMat] does with the points outside the mesh. *)
Lemma getInterpolationMat_outside (m : mesh) (loc : list (list R))
    (locType : string) (bs : list bool) :
  isInside m loc "N" = Ok bs ->
  ((exists k, nth_error bs k = Some false) ->
   _getInterpolationMat interpmat m loc locType false = Raise AssertionError) /\
  (forall cc Q0,
     getTensor m "CC" = Ok cc ->
     locType_dispatch interpmat m
       (snap loc (map negb bs) (map Arr.mean cc)) locType = Ok Q0 ->
     exists Q,
       _getInterpolationMat interpmat m loc locType true = Ok Q /\
       Mat.nrows Q = List.length loc /\
       Mat.ncols Q = Mat.ncols Q0 /\
       forall k, (k < List.length loc)%nat ->
         (nth k bs true = false ->
            nth k (snap loc (map negb bs) (map Arr.mean cc)) []
              = map Arr.mean cc /\
            nth k (Mat.rows Q) [] = repeat 0 (Mat.ncols Q)) /\
         (nth k bs true = true ->
            nth k (snap loc (map negb bs) (map Arr.mean cc)) [] = nth k loc [] /\
            nth k (Mat.rows Q) [] = nth k (Mat.rows Q0) [])).
Proof.
  intros Hin. destruct (isInside_ok _ _ _ Hin) as [Has Hlen].
  split.
  - intros [k Hk]. unfold _getInterpolationMat.
    rewrite Has. cbn [bind]. rewrite Hin. cbn [bind negb].
    assert (E : forallb (fun b : bool => b) bs = false).
    { destruct (forallb (fun b : bool => b) bs) eqn:E; [|reflexivity].
      rewrite forallb_forall in E.
      apply nth_error_In in Hk. apply E in Hk. discriminate Hk. }
    rewrite E. reflexivity.
  - intros cc Q0 Hcc HQ0.
    set (mask := map negb bs) in *.
    set (loc' := snap loc mask (map Arr.mean cc)) in *.
    assert (Hmask : List.length mask = List.length loc)
      by (unfold mask; now rewrite length_map).
    assert (Hloc' : List.length loc' = List.length loc)
      by (apply snap_length; exact Hmask).
    pose proof (dispatch_nrows _ _ _ HQ0) as HnQ0. rewrite Hloc' in HnQ0.
    unfold _getInterpolationMat.
    rewrite Has. cbn [bind]. rewrite Hin. cbn [bind negb].
    rewrite Hcc. cbn [bind fst snd]. fold mask. fold loc'.
    rewrite HQ0. cbn [bind].
    unfold Mat.zero_rows. rewrite HnQ0, Hmask, Nat.eqb_refl.
    eexists. split; [reflexivity|].
    split; [|split].
    + unfold Mat.nrows in *. cbn [Mat.rows].
      now rewrite length_map, length_combine, HnQ0, Hmask, Nat.min_id.
    + reflexivity.
    + intros k Hk. cbn [Mat.rows Mat.ncols].
      rewrite (@nth_map_combine_gen _ _ _ _ (Mat.rows Q0) mask k [] false [])
        by (unfold Mat.nrows in HnQ0; lia).
      unfold loc', snap.
      rewrite (@nth_map_combine_gen _ _ _ _ loc mask k [] false []) by lia.
      cbn [fst snd].
      assert (Hm : nth k mask false = negb (nth k bs true)).
      { unfold mask.
        rewrite (nth_indep _ false (negb true)) by (rewrite length_map; lia).
        apply (map_nth negb). }
      rewrite Hm.
      split; intros Hb; rewrite Hb; cbn [negb]; split; reflexivity.
Qed.

(** A point with a coordinate outside its node tensor makes the strict call
    fail. *)
Lemma outside_point_fails (m : mesh) (loc : list (list R)) (locType : string)
    (tensors : list (list R)) (k : nat) (p : list R) :
  Forall (fun q => List.length q = dim m) loc ->
  tensors_tested m "N" = Ok tensors ->
  Forall (fun t => (2 <= List.length t)%nat) tensors ->
  nth_error loc k = Some p ->
  ~ within_all tensors p ->
  _getInterpolationMat interpmat m loc locType false = Raise AssertionError.
Proof.
  intros Hl Ht H2 Hk Hout.
  destruct (@isInside_spec m loc "N" tensors Hl Ht H2) as [bs [E [L S]]].
  apply (proj1 (@getInterpolationMat_outside m loc locType bs E)).
  exists k.
  assert (Hlt : (k < List.length bs)%nat)
    by (rewrite L; apply nth_error_Some; congruence).
  rewrite (nth_error_nth' bs false Hlt). f_equal.
  destruct (nth k bs false) eqn:Eb; [|reflexivity].
  exfalso. apply Hout. now apply (S k p Hk).
Qed.

End Interp.

(** C8: with [zerosOutside=False], [_getInterpolationMat] fails (its
    assertion "Points outside of mesh") as soon as one point lies outside
    the mesh; with [zerosOutside=True] it moves the points outside to the
    centre of the mesh, builds the matrix for the moved points, and sets the
    rows of the points outside to zero: those rows of the returned matrix
    are identically zero, the other rows are the interpolation rows. *)
Theorem C8_interpolation_outside
    (interpmat : list (list R) -> list (list R) -> Mat.t)
    (m : mesh) (loc : list (list R)) (locType : string) (bs : list bool) :
  (forall l t, Mat.nrows (interpmat l t) = List.length l) ->
  isInside m loc "N" = Ok bs ->
  ((exists k, nth_error bs k = Some false) ->
   _getInterpolationMat interpmat m loc locType false = Raise AssertionError) /\
  (forall cc Q0,
     getTensor m "CC" = Ok cc ->
     locType_dispatch interpmat m
       (snap loc (map negb bs) (map Arr.mean cc)) locType = Ok Q0 ->
     exists Q,
       _getInterpolationMat interpmat m loc locType true = Ok Q /\
       Mat.nrows Q = List.length loc /\
       Mat.ncols Q = Mat.ncols Q0 /\
       forall k, (k < List.length loc)%nat ->
         (nth k bs true = false ->
            nth k (snap loc (map negb bs) (map Arr.mean cc)) []
              = map Arr.mean cc /\
            nth k (Mat.rows Q) [] = repeat 0 (Mat.ncols Q)) /\
         (nth k bs true = true ->
            nth k (snap loc (map negb bs) (map Arr.mean cc)) [] = nth k loc [] /\
            nth k (Mat.rows Q) [] = nth k (Mat.rows Q0) [])).
Proof. intros H. now apply getInterpolationMat_outside. Qed.

(** On the unit interval, 0.5 is inside and 5 is not. *)
Lemma isInside_unit_mesh :
  isInside unit_mesh [[0.5]; [5]] "N" = Ok [true; false].
Proof.
  destruct (@isInside_spec unit_mesh [[0.5]; [5]] "N" [[0 + 0; 1 + 0]])
    as [bs [E [L S]]].
  - repeat constructor.
  - reflexivity.
  - repeat constructor; simpl; lia.
  - rewrite E. f_equal.
    destruct bs as [|b0 [|b1 [|b2 bs]]]; simpl in L; try lia.
    f_equal; [|f_equal].
    + apply (S 0%nat [0.5] eq_refl).
      intros i t Hi. destruct i as [|i]; [|destruct i; discriminate Hi].
      injection Hi as <-. unfold within. cbn [nth].
      eexists; eexists; eexists.
      split; [reflexivity|]. split; [reflexivity|]. split; [reflexivity|].
      cbn [fold_left]. solve_minmax.
    + destruct b1; [|reflexivity]. exfalso.
      assert (Hw : within_all [[0 + 0; 1 + 0]] [5])
        by (apply (S 1%nat [5] eq_refl); reflexivity).
      destruct (Hw 0%nat [0 + 0; 1 + 0] eq_refl)
        as [lo [hi [dmin [E1 [E2 [E3 [H1 H2]]]]]]].
      cbn [nth] in H2. simpl in E2, E3.
      injection E2 as <-. injection E3 as <-. solve_minmax.
Qed.

Lemma C8_interpolation_outside_witness :
  _getInterpolationMat first_node_interp unit_mesh [[0.5]; [5]] "N" false
    = Raise AssertionError /\
  exists Q,
    _getInterpolationMat first_node_interp unit_mesh [[0.5]; [5]] "N" true
      = Ok Q /\
    Mat.nrows Q = 2%nat /\ Mat.ncols Q = 2%nat /\
    nth 0 (Mat.rows Q) [] = [1; 0] /\
    nth 1 (Mat.rows Q) [] = [0; 0].
Proof.
  destruct (@C8_interpolation_outside first_node_interp unit_mesh
              [[0.5]; [5]] "N" [true; false]) as [HA HB].
  - intros l t. unfold Mat.nrows, first_node_interp. cbn [Mat.rows].
    apply length_map.
  - exact isInside_unit_mesh.
  - split.
    + apply HA. exists 1%nat. reflexivity.
    + destruct (HB [[0 + 1 * 0.5 + 0]]
                  (first_node_interp
                     (snap [[0.5]; [5]] (map negb [true; false])
                        (map Arr.mean [[0 + 1 * 0.5 + 0]]))
                     [[0 + 0; 1 + 0]])
                  eq_refl eq_refl) as [Q [E [Hn [Hc Hk]]]].
      exists Q. split; [exact E|]. split; [exact Hn|]. split; [exact Hc|].
      split.
      * destruct (Hk 0%nat (Nat.lt_0_succ 1)) as [_ H1].
        destruct (H1 eq_refl) as [_ H2]. exact H2.
      * destruct (Hk 1%nat (Nat.lt_succ_diag_r 1)) as [H1 _].
        destruct (H1 eq_refl) as [_ H2]. rewrite H2, Hc. reflexivity.
Defined.

End InterpolationFacts.

(** ** The reference frame of a mesh *)

Module ValidationFacts.

Import Validation TensorVectorFacts.
Local Open Scope R_scope.



Lemma Reqb_true (x y : R) : Arr.Reqb x y = true <-> x = y.
Proof.
  unfold Arr.Reqb. destruct (Req_dec_T x y); split; intros H;
    try assumption; try reflexivity; try discriminate; contradiction.
Qed.

Lemma sum_sq_nonneg (l : list R) : 0 <= Arr.sum (map (fun x => x * x) l).
Proof.
  induction l as [|x l IH]; [cbn [map]; rewrite sum_nil; lra|].
  cbn [map]. rewrite sum_cons. nra.
Qed.

Lemma sum_sq_div (l : list R) (n : R) :
  n <> 0 ->
  Arr.sum (map (fun x => x / n * (x / n)) l)
    = Arr.sum (map (fun x => x * x) l) / (n * n).
Proof.
  intros Hn. induction l as [|x l IH].
  - cbn [map]. rewrite sum_nil. field. exact Hn.
  - cbn [map]. rewrite !sum_cons, IH. field. exact Hn.
Qed.

Lemma validate_type_ok (cshape : option (list Z)) (val val' : Nd.ndarray R) :
  validate_type cshape val = Ok val' -> val' = val.
Proof.
  unfold validate_type. destruct cshape as [sh|]; [|now intros [= <-]].
  destruct (negb _); [discriminate|].
  destruct (existsb _ _); [discriminate|]. now intros [= <-].
Qed.


(** What [validate_unit] accepts comes out with norm 1. *)
Lemma validate_unit_norm (cshape : option (list Z)) (val v : Nd.ndarray R) :
  validate_unit cshape val = Ok v ->
  norm v = 1 /\ Nd.shape v = Nd.shape val /\
  Nd.data v = map (fun x => x / norm val) (Nd.data val) /\ norm val <> 0.
Proof.
  unfold validate_unit.
  destruct (validate_type cshape val) as [val'|e] eqn:E; [|discriminate].
  apply validate_type_ok in E. subst val'. cbn [bind].
  destruct (Arr.Reqb (norm val) 0) eqn:E0; [discriminate|].
  assert (Hn : norm val <> 0).
  { intros H. apply Reqb_true in H. congruence. }
  intros [= <-]. cbn [Nd.shape Nd.data].
  repeat split; try assumption.
  unfold norm at 1. cbn [Nd.data]. rewrite map_map.
  rewrite (sum_sq_div _ Hn).
  unfold norm in *.
  rewrite sqrt_sqrt by apply sum_sq_nonneg.
  set (S := Arr.sum (map (fun x => x * x) (Nd.data val))) in *.
  assert (HS : S <> 0) by (intros H0; apply Hn; rewrite H0; apply sqrt_0).
  replace (S / S) with 1 by (field; exact HS). apply sqrt_1.
Qed.


(** A vector of norm 1 that has the declared shape is stored as it is. *)
Lemma validate_unit_of_unit (cshape : option (list Z)) (val : Nd.ndarray R) :
  validate_type cshape val = Ok val -> norm val = 1 ->
  validate_unit cshape val = Ok val.
Proof.
  intros Ht Hn. unfold validate_unit. rewrite Ht. cbn [bind].
  assert (E0 : Arr.Reqb (norm val) 0 = false).
  { destruct (Arr.Reqb (norm val) 0) eqn:E; [|reflexivity].
    apply Reqb_true in E. lra. }
  rewrite E0, Hn. f_equal. destruct val as [sh dt]. cbn [Nd.shape Nd.data].
  f_equal. rewrite <- (map_id dt) at 2. apply map_ext. intros x. field.
Qed.
















End ValidationFacts.

(** ** Cell volumes of a curvilinear mesh *)

Module CurvilinearFacts.

Import CurvilinearMesh VolumeSpec TensorVectorFacts.
Local Open Scope R_scope.




Section Hexahedra.

Variable volTetra :
  list (list R) -> list nat -> list nat -> list nat -> list nat -> list R.


End Hexahedra.








End CurvilinearFacts.

(** ** Edges, the Euler relation and the per-axis count vectors *)

Module TopologyFacts.

Import BaseMesh BaseMeshMore BaseRectangularMesh RectangularMore BaseMeshFacts.
Local Open Scope Z_scope.

Ltac topo_simpl :=
  unfold nF_axis, nE_axis, nF, vnF, nFx, nFy, nFz, nE, vnE, nEx, nEy, nEz,
    nC, nN, faceCountAxis, edgeCountAxis, not_none, dim;
  simpl;
  repeat first [rewrite prodz_cons | rewrite prodz_nil
               | rewrite sumz_cons | rewrite sumz_nil].

Ltac topo_solve :=
  topo_simpl; first [reflexivity | ring | (f_equal; ring)].







End TopologyFacts.

(** ** Normals, tangents and the projections onto them *)

Module NormalFacts.

Import BaseMesh BaseMeshMore BaseMeshFacts TopologyFacts.
Local Open Scope R_scope.

Lemma blocks_dim2 (f : nat -> Z) :
  blocks 2 f = repeat [1; 0] (Z.to_nat (f 0%nat))
               ++ repeat [0; 1] (Z.to_nat (f 1%nat)).
Proof. unfold blocks. simpl. now rewrite app_nil_r. Qed.

Lemma blocks_dim3 (f : nat -> Z) :
  blocks 3 f = repeat [1; 0; 0] (Z.to_nat (f 0%nat))
               ++ repeat [0; 1; 0] (Z.to_nat (f 1%nat))
               ++ repeat [0; 0; 1] (Z.to_nat (f 2%nat)).
Proof. unfold blocks. simpl. now rewrite app_nil_r. Qed.

Lemma blocks_rows (d : nat) (f : nat -> Z) :
  Forall (fun row => List.length row = d) (blocks d f).
Proof.
  unfold blocks. apply Forall_concat. apply Forall_map.
  apply Forall_forall. intros a _. apply Forall_forall. intros row Hrow.
  apply repeat_spec in Hrow. subst row.
  unfold unit_vector. now rewrite length_map, length_seq.
Qed.

(** The rows of [normals] and of [tangents], in dimension 2 and 3. *)
Lemma normals_blocks (shape : list Z) :
  (dim shape = 2 \/ dim shape = 3)%nat ->
  Forall (fun n => (0 <= n)%Z) shape ->
  normals shape = Ok (Some (blocks (dim shape) (faceCountAxis shape))) /\
  tangents shape = Ok (Some (blocks (dim shape) (edgeCountAxis shape))) /\
  List.length (blocks (dim shape) (faceCountAxis shape)) = Z.to_nat (nF shape) /\
  List.length (blocks (dim shape) (edgeCountAxis shape)) = Z.to_nat (nE shape).
Proof.
  intros Hd Hpos. unfold dim in Hd.
  destruct shape as [|n0 [|n1 [|n2 [|n3 rest]]]]; simpl in Hd; try lia.
  - inversion Hpos as [|? ? H0 Hpos1]; subst.
    inversion Hpos1 as [|? ? H1 _]; subst.
    destruct (normals_dim2 H0 H1) as [EN ET].
    change (dim [n0; n1]) with 2%nat. rewrite !blocks_dim2.
    unfold faceCountAxis, edgeCountAxis. cbn [prod_from Nat.eqb].
    replace ((n0 + 1) * ((n1 + 0) * 1))%Z with ((n0 + 1) * n1)%Z by ring.
    replace ((n0 + 0) * ((n1 + 1) * 1))%Z with (n0 * (n1 + 1))%Z by ring.
    split; [exact EN|]. split; [exact ET|].
    rewrite !length_app, !repeat_length.
    split; topo_simpl; nia.
  - inversion Hpos as [|? ? H0 Hpos1]; subst.
    inversion Hpos1 as [|? ? H1 Hpos2]; subst.
    inversion Hpos2 as [|? ? H2 _]; subst.
    pose proof (normals_dim3 H0 H1 H2) as EN.
    pose proof (tangents_dim3 H0 H1 H2) as ET.
    change (dim [n0; n1; n2]) with 3%nat. rewrite !blocks_dim3.
    unfold faceCountAxis, edgeCountAxis. cbn [prod_from Nat.eqb].
    replace ((n0 + 1) * ((n1 + 0) * ((n2 + 0) * 1)))%Z
      with ((n0 + 1) * n1 * n2)%Z by ring.
    replace ((n0 + 0) * ((n1 + 1) * ((n2 + 0) * 1)))%Z
      with (n0 * (n1 + 1) * n2)%Z by ring.
    replace ((n0 + 0) * ((n1 + 0) * ((n2 + 1) * 1)))%Z
      with (n0 * n1 * (n2 + 1))%Z by ring.
    replace ((n0 + 0) * ((n1 + 1) * ((n2 + 1) * 1)))%Z
      with (n0 * (n1 + 1) * (n2 + 1))%Z by ring.
    replace ((n0 + 1) * ((n1 + 0) * ((n2 + 1) * 1)))%Z
      with ((n0 + 1) * n1 * (n2 + 1))%Z by ring.
    replace ((n0 + 1) * ((n1 + 1) * ((n2 + 0) * 1)))%Z
      with ((n0 + 1) * (n1 + 1) * n2)%Z by ring.
    split; [exact EN|]. split; [exact ET|].
    rewrite !length_app, !repeat_length.
    split; topo_simpl; nia.
Qed.

(** X4: for a mesh of dimension 2 or 3 (with no negative cell count),
    [normals] is an array of [nF] rows and [dim] columns made of per-axis
    blocks: for each axis in turn, as many copies of the unit vector of the
    axis as there are faces normal to it; [tangents] is the same with the
    edge counts. *)
Theorem X4_normals_and_tangents (shape : list Z) :
  (dim shape = 2 \/ dim shape = 3)%nat ->
  Forall (fun n => (0 <= n)%Z) shape ->
  (normals shape = Ok (Some (blocks (dim shape) (faceCountAxis shape))) /\
   tangents shape = Ok (Some (blocks (dim shape) (edgeCountAxis shape))) /\
   List.length (blocks (dim shape) (faceCountAxis shape)) = Z.to_nat (nF shape) /\
   List.length (blocks (dim shape) (edgeCountAxis shape)) = Z.to_nat (nE shape)) /\
  Forall (fun row => List.length row = dim shape)
         (blocks (dim shape) (faceCountAxis shape)) /\
  Forall (fun row => List.length row = dim shape)
         (blocks (dim shape) (edgeCountAxis shape)).
Proof.
  intros Hd Hpos. split; [now apply normals_blocks|].
  split; apply blocks_rows.
Qed.

Lemma X4_normals_and_tangents_witness :
  (normals [2%Z; 1%Z] = Ok (Some (blocks 2 (faceCountAxis [2%Z; 1%Z]))) /\
   tangents [2%Z; 1%Z] = Ok (Some (blocks 2 (edgeCountAxis [2%Z; 1%Z]))) /\
   List.length (blocks 2 (faceCountAxis [2%Z; 1%Z])) = Z.to_nat (nF [2%Z; 1%Z]) /\
   List.length (blocks 2 (edgeCountAxis [2%Z; 1%Z])) = Z.to_nat (nE [2%Z; 1%Z])) /\
  Forall (fun row => List.length row = 2%nat)
         (blocks 2 (faceCountAxis [2%Z; 1%Z])) /\
  Forall (fun row => List.length row = 2%nat)
         (blocks 2 (edgeCountAxis [2%Z; 1%Z])).
Proof.
  apply (@X4_normals_and_tangents [2%Z; 1%Z]).
  - left. reflexivity.
  - repeat constructor; lia.
Defined.

(** The dot product with a unit vector picks a component. *)
Lemma dot_unit_from (l : list R) (a s : nat) :
  Mat.dot l (map (fun i => if (i =? a)%nat then 1 else 0) (seq s (List.length l)))
    = if ((s <=? a) && (a <? s + List.length l))%nat%bool
      then nth (a - s) l 0 else 0.
Proof.
  revert s. induction l as [|x l IH]; intros s.
  - simpl. destruct (s <=? a)%nat eqn:E1; destruct (a <? s + 0)%nat eqn:E2;
      try reflexivity.
    apply Nat.leb_le in E1. apply Nat.ltb_lt in E2. lia.
  - cbn [List.length seq map]. rewrite InnerProductFacts.dot_cons, IH.
    destruct (Nat.eqb_spec s a) as [->|Hne].
    + rewrite Nat.leb_refl.
      rewrite (proj2 (Nat.ltb_lt a (a + S (List.length l)))) by lia.
      rewrite (proj2 (Nat.leb_gt (S a) a)) by lia.
      cbn [andb]. rewrite Nat.sub_diag. cbn [nth]. ring.
    + destruct (s <=? a)%nat eqn:E1.
      * apply Nat.leb_le in E1.
        rewrite (proj2 (Nat.leb_le (S s) a)) by lia.
        replace (S s + List.length l)%nat with (s + S (List.length l))%nat by lia.
        destruct (a <? s + S (List.length l))%nat; cbn [andb]; [|ring].
        replace (a - s)%nat with (S (a - S s)) by lia. cbn [nth]. ring.
      * apply Nat.leb_gt in E1.
        rewrite (proj2 (Nat.leb_gt (S s) a)) by lia. cbn [andb]. ring.
Qed.

Lemma dot_unit_vector (l : list R) (a : nat) :
  (a < List.length l)%nat ->
  Mat.dot l (unit_vector (List.length l) a) = nth a l 0.
Proof.
  intros Ha. unfold unit_vector. rewrite dot_unit_from.
  cbn [Nat.leb]. rewrite (proj2 (Nat.ltb_lt a (0 + List.length l))) by lia.
  cbn [andb]. now rewrite Nat.sub_0_r.
Qed.

Lemma rows_of_length (x : Nd.ndarray R) (n d : nat) :
  Nd.shape x = [n; d] ->
  List.length (rows_of x) = n /\
  Forall (fun row => List.length row = d) (rows_of x).
Proof.
  intros Hs. unfold rows_of. rewrite Hs. cbn [nth]. split.
  - now rewrite length_map, length_seq.
  - apply Forall_map. apply Forall_forall. intros i _.
    now rewrite length_map, length_seq.
Qed.

Lemma rows_of_nth (x : Nd.ndarray R) (n d k a : nat) :
  Nd.shape x = [n; d] -> (k < n)%nat -> (a < d)%nat ->
  nth a (nth k (rows_of x) []) 0 = Nd.get 0 x [k; a].
Proof.
  intros Hs Hk Ha. unfold rows_of. rewrite Hs. cbn [nth].
  rewrite (NdFacts.nth_map_seq []) by exact Hk.
  now rewrite (NdFacts.nth_map_seq 0) by exact Ha.
Qed.

(** The sum of the products of the rows of [x] with unit vectors picks,
    row by row, the component along the unit vector of the row. *)
Lemma sum_of_products_blocks (x : Nd.ndarray R) (rows : list (list R))
    (n d : nat) :
  Nd.shape x = [n; d] ->
  List.length rows = n ->
  Forall (fun row => List.length row = d) rows ->
  exists v,
    sum_of_products (rows_of x) rows = Ok v /\
    List.length v = n /\
    forall k a, (a < d)%nat ->
      nth_error rows k = Some (unit_vector d a) ->
      nth k v 0 = Nd.get 0 x [k; a].
Proof.
  intros Hs Hn Hrows.
  destruct (rows_of_length x Hs) as [Hlen Hall].
  unfold sum_of_products.
  rewrite Hlen, Hn, Nat.eqb_refl. cbn [andb].
  assert (Hfb : forallb (fun xy : list R * list R =>
                           (List.length (fst xy) =? List.length (snd xy))%nat)
                        (combine (rows_of x) rows) = true).
  { apply forallb_forall. intros [p q] Hin. cbn [fst snd].
    apply Nat.eqb_eq.
    rewrite Forall_forall in Hall, Hrows.
    rewrite (Hall p) by (eapply in_combine_l; exact Hin).
    rewrite (Hrows q) by (eapply in_combine_r; exact Hin). reflexivity. }
  rewrite Hfb. eexists. split; [reflexivity|]. split.
  - now rewrite length_map, length_combine, Hlen, Hn, Nat.min_id.
  - intros k a Ha Hk.
    assert (Hkn : (k < n)%nat)
      by (rewrite <- Hn; apply nth_error_Some; congruence).
    rewrite (@InterpolationFacts.nth_map_combine_gen _ _ _ _ (rows_of x) rows
               k [] [] 0) by lia.
    cbn [fst snd].
    rewrite (nth_error_nth rows k [] Hk).
    assert (Hrow : List.length (nth k (rows_of x) []) = d).
    { rewrite Forall_forall in Hall. apply Hall. apply nth_In. lia. }
    rewrite <- Hrow at 1. rewrite dot_unit_vector by lia.
    now apply (rows_of_nth x Hs).
Qed.

Lemma nF_nE_nonneg (shape : list Z) :
  (dim shape = 2 \/ dim shape = 3)%nat ->
  Forall (fun n => (0 <= n)%Z) shape ->
  (0 <= nF shape)%Z /\ (0 <= nE shape)%Z.
Proof.
  intros Hd Hpos. unfold dim in Hd.
  destruct shape as [|n0 [|n1 [|n2 [|n3 rest]]]]; simpl in Hd; try lia.
  - inversion Hpos as [|? ? H0 Hpos1]; subst.
    inversion Hpos1 as [|? ? H1 _]; subst.
    split; topo_simpl; nia.
  - inversion Hpos as [|? ? H0 Hpos1]; subst.
    inversion Hpos1 as [|? ? H1 Hpos2]; subst.
    inversion Hpos2 as [|? ? H2 _]; subst.
    split; topo_simpl; nia.
Qed.

(** What the two projections return in dimension 2 and 3. *)
Lemma projections_spec (shape : list Z) (fV eV : Nd.ndarray R) :
  (dim shape = 2 \/ dim shape = 3)%nat ->
  Forall (fun n => (0 <= n)%Z) shape ->
  Nd.shape fV = [Z.to_nat (nF shape); dim shape] ->
  Nd.shape eV = [Z.to_nat (nE shape); dim shape] ->
  exists pf pe,
    projectFaceVector shape fV = Ok pf /\
    projectEdgeVector shape eV = Ok pe /\
    List.length pf = Z.to_nat (nF shape) /\
    List.length pe = Z.to_nat (nE shape) /\
    (forall k a, (a < dim shape)%nat ->
       nth_error (blocks (dim shape) (faceCountAxis shape)) k
         = Some (unit_vector (dim shape) a) ->
       nth k pf 0 = Nd.get 0 fV [k; a]) /\
    (forall k a, (a < dim shape)%nat ->
       nth_error (blocks (dim shape) (edgeCountAxis shape)) k
         = Some (unit_vector (dim shape) a) ->
       nth k pe 0 = Nd.get 0 eV [k; a]).
Proof.
  intros Hd Hpos HF HE.
  destruct (normals_blocks Hd Hpos) as [EN [ET [LN LT]]].
  destruct (nF_nE_nonneg Hd Hpos) as [PF PE].
  destruct (@sum_of_products_blocks fV _ _ _ HF LN (blocks_rows _ _))
    as [pf [E1 [L1 S1]]].
  destruct (@sum_of_products_blocks eV _ _ _ HE LT (blocks_rows _ _))
    as [pe [E2 [L2 S2]]].
  exists pf, pe.
  unfold projectFaceVector, projectEdgeVector, shape_is.
  rewrite HF, HE. cbn [List.length nth].
  rewrite !Z2Nat.id by assumption.
  rewrite !Z.eqb_refl, !Nat.eqb_refl. cbn [andb negb].
  rewrite EN, ET. cbn [bind].
  repeat split; assumption.
Qed.

(** X5: in dimension 2 and 3, [projectFaceVector] accepts an array of [nF]
    rows and [dim] columns and returns one number per face: the component
    of the row of the face along the axis the face is normal to;
    [projectEdgeVector] does the same for edges and the axis they run
    along. *)
Theorem X5_projections (shape : list Z) (fV eV : Nd.ndarray R) :
  (dim shape = 2 \/ dim shape = 3)%nat ->
  Forall (fun n => (0 <= n)%Z) shape ->
  Nd.shape fV = [Z.to_nat (nF shape); dim shape] ->
  Nd.shape eV = [Z.to_nat (nE shape); dim shape] ->
  exists pf pe,
    projectFaceVector shape fV = Ok pf /\
    projectEdgeVector shape eV = Ok pe /\
    List.length pf = Z.to_nat (nF shape) /\
    List.length pe = Z.to_nat (nE shape) /\
    (forall k a, (a < dim shape)%nat ->
       nth_error (blocks (dim shape) (faceCountAxis shape)) k
         = Some (unit_vector (dim shape) a) ->
       nth k pf 0 = Nd.get 0 fV [k; a]) /\
    (forall k a, (a < dim shape)%nat ->
       nth_error (blocks (dim shape) (edgeCountAxis shape)) k
         = Some (unit_vector (dim shape) a) ->
       nth k pe 0 = Nd.get 0 eV [k; a]).
Proof. apply projections_spec. Qed.

Lemma X5_projections_witness :
  exists pf pe,
    projectFaceVector [1%Z; 1%Z] (Nd.mk [4; 2]%nat [1; 2; 3; 4; 5; 6; 7; 8])
      = Ok pf /\
    projectEdgeVector [1%Z; 1%Z] (Nd.mk [4; 2]%nat [8; 7; 6; 5; 4; 3; 2; 1])
      = Ok pe /\
    List.length pf = Z.to_nat (nF [1%Z; 1%Z]) /\
    List.length pe = Z.to_nat (nE [1%Z; 1%Z]) /\
    (forall k a, (a < dim [1%Z; 1%Z])%nat ->
       nth_error (blocks (dim [1%Z; 1%Z]) (faceCountAxis [1%Z; 1%Z])) k
         = Some (unit_vector (dim [1%Z; 1%Z]) a) ->
       nth k pf 0
         = Nd.get 0 (Nd.mk [4; 2]%nat [1; 2; 3; 4; 5; 6; 7; 8]) [k; a]) /\
    (forall k a, (a < dim [1%Z; 1%Z])%nat ->
       nth_error (blocks (dim [1%Z; 1%Z]) (edgeCountAxis [1%Z; 1%Z])) k
         = Some (unit_vector (dim [1%Z; 1%Z]) a) ->
       nth k pe 0
         = Nd.get 0 (Nd.mk [4; 2]%nat [8; 7; 6; 5; 4; 3; 2; 1]) [k; a]).
Proof.
  apply (@X5_projections [1%Z; 1%Z]
           (Nd.mk [4; 2]%nat [1; 2; 3; 4; 5; 6; 7; 8])
           (Nd.mk [4; 2]%nat [8; 7; 6; 5; 4; 3; 2; 1])).
  - left. reflexivity.
  - constructor; [lia|]. constructor; [lia|]. constructor.
  - reflexivity.
  - reflexivity.
Defined.

(** X6: on a mesh of dimension 1 both projections always fail: an argument
    of another shape than [(nF, 1)] (or [(nE, 1)]) is refused with
    [Exception], and one of the right shape meets the [None] that [normals]
    (or [tangents]) returns in dimension 1 and fails with [TypeError]. *)
Theorem X6_projections_dim1 :
  forall (n : Z) (v : Nd.ndarray R),
    projectFaceVector [n] v
      = (if shape_is v (nF [n]) 1 then Raise TypeError else Raise Exception) /\
    projectEdgeVector [n] v
      = (if shape_is v (nE [n]) 1 then Raise TypeError else Raise Exception).
Proof.
  intros n v. unfold projectFaceVector, projectEdgeVector.
  change (dim [n]) with 1%nat.
  change (normals [n]) with (@Ok (option (list (list R))) None).
  change (tangents [n]) with (@Ok (option (list (list R))) None).
  split.
  - destruct (shape_is v (nF [n]) 1); reflexivity.
  - destruct (shape_is v (nE [n]) 1); reflexivity.
Qed.

End NormalFacts.

(** ** The reshape utility [r] on cell, node, face and edge data *)

Module ReshapeFacts.

Import Nd NdFacts BaseMesh BaseMeshMore BaseRectangularMesh BaseMeshFacts
  TopologyFacts.
Local Open Scope string_scope.
Local Open Scope list_scope.

Section Orders.
Variable A : Type.
Variable d : A.

Lemma unravelC_valid (sh : list nat) (c : nat) :
  (c < size sh)%nat -> valid sh (unravelC sh c).
Proof.
  revert c. induction sh as [|n sh IH]; intros c Hc; [constructor|].
  rewrite size_cons in Hc. cbn [unravelC].
  assert (Hs : (size sh <> 0)%nat) by (intros E; rewrite E in Hc; lia).
  constructor.
  - apply Nat.Div0.div_lt_upper_bound. lia.
  - apply IH. now apply Nat.mod_upper_bound.
Qed.

Lemma ravelC_unravelC (sh : list nat) (c : nat) :
  (c < size sh)%nat -> ravelC sh (unravelC sh c) = c.
Proof.
  revert c. induction sh as [|n sh IH]; intros c Hc.
  - cbn in *. lia.
  - rewrite size_cons in Hc. cbn [unravelC ravelC].
    assert (Hs : (size sh <> 0)%nat) by (intros E; rewrite E in Hc; lia).
    rewrite IH by now apply Nat.mod_upper_bound.
    pose proof (Nat.div_mod_eq c (size sh)). lia.
Qed.

(** An array is the Fortran-order reshape of its own vector form. *)
Lemma reshape_F_mkvc (a : ndarray A) :
  wf a -> reshape_F d (mkvc d a) (map Z.of_nat (shape a)) = Ok a.
Proof.
  intros Hwf. unfold reshape_F.
  rewrite GridFacts.no_negative_of_nat, GridFacts.to_nat_of_nat_map.
  assert (E : (size (shape (mkvc d a)) =? size (shape a))%nat = true).
  { apply Nat.eqb_eq. unfold mkvc. cbn [vec shape size fold_right].
    rewrite length_map, length_seq. fold (size (shape a)). lia. }
  rewrite E. f_equal. destruct a as [sh dat]. unfold wf in Hwf.
  cbn [shape data] in *. unfold of_fun. f_equal.
  rewrite <- Hwf. apply map_seq_ext with (d := d). intros k Hk.
  rewrite Hwf in Hk.
  pose proof (unravelC_valid sh Hk) as Hv.
  pose proof (ravelF_bound Hv) as Hb.
  assert (Hsh : shape (mkvc d (mk sh dat)) = [size sh]).
  { unfold mkvc. cbn [vec shape]. now rewrite length_map, length_seq. }
  unfold get at 1. rewrite Hsh. cbn [unravelF ravelC size fold_right].
  fold (size sh). rewrite Nat.mod_small by exact Hb.
  rewrite Nat.mul_1_r, Nat.add_0_r.
  unfold mkvc. cbn [vec data shape].
  rewrite (nth_map_seq d) by exact Hb.
  rewrite unravelF_ravelF by exact Hv.
  unfold get. cbn [shape data]. now rewrite ravelC_unravelC.
Qed.

End Orders.


Lemma r_same_unfold (sh : list Z) (x : ndarray R) (node : bool) (fmt : string) :
  fmt = "M" \/ fmt = "V" ->
  r sh x (if node then "N" else "CC") (if node then "N" else "CC") fmt =
    if ((List.length (Nd.shape x) =? 2)%nat
        && (nth 1 (Nd.shape x) 0%nat =? dim sh)%nat)%bool
    then (out <- collect
                   (map (fun ii => switchKernal sh fmt (if node then "N" else "CC") (if node then "N" else "CC")
                                     (column 0%R x ii))
                        (seq 0 (nth 1 (Nd.shape x) 0%nat))) ;;
          Ok (RTuple out))
    else (a <- switchKernal sh fmt (if node then "N" else "CC") (if node then "N" else "CC") x ;; Ok (RArr a)).
Proof. intros [->| ->]; destruct node; reflexivity. Qed.

Lemma switchKernal_same (sh : list Z) (xx : ndarray R) (node : bool)
    (fmt : string) :
  switchKernal sh fmt (if node then "N" else "CC") (if node then "N" else "CC") xx =
    if negb (size_is xx (Np.prodz (if node then vnN sh else vnC sh)))
    then Raise Exception
    else outKernal fmt xx (if node then vnN sh else vnC sh).
Proof. destruct node; reflexivity. Qed.

Lemma size_mkvc (x : ndarray R) :
  size (Nd.shape (mkvc 0%R x)) = size (Nd.shape x).
Proof.
  unfold mkvc. cbn [vec Nd.shape size fold_right].
  rewrite length_map, length_seq. fold (size (Nd.shape x)). lia.
Qed.

(** X10: for data at the cell centres (or at the nodes) held in an array [x]
    of the shape of the mesh (or of its node counts) that is not taken for
    a vector quantity, [r(x, T, T, 'V')] is the vector form of [x] and
    [r] of that vector with format ['M'] is [x] again. *)
Theorem X10_r_roundtrip (sh : list Z) (x : ndarray R) (node : bool) :
  wf x ->
  map Z.of_nat (Nd.shape x) = (if node then vnN sh else vnC sh) ->
  (dim sh = 2%nat -> nth 1 (Nd.shape x) 0%nat <> 2%nat) ->
  r sh x (if node then "N" else "CC") (if node then "N" else "CC") "V"
    = Ok (RArr (Some (mkvc 0%R x))) /\
  r sh (mkvc 0%R x) (if node then "N" else "CC") (if node then "N" else "CC") "M"
    = Ok (RArr (Some x)).
Proof.
  intros Hwf Hsh Hvq.
  assert (Hdim : List.length (Nd.shape x) = dim sh).
  { rewrite <- (length_map Z.of_nat), Hsh. unfold dim, vnN, vnC.
    destruct node; [apply length_map | reflexivity]. }
  assert (Hsz : size_is x (Np.prodz (if node then vnN sh else vnC sh)) = true).
  { unfold size_is. rewrite <- Hsh, GridFacts.prodz_of_nat_size.
    apply Z.eqb_refl. }
  split.
  - rewrite r_same_unfold by (now right).
    assert (E : ((List.length (Nd.shape x) =? 2)%nat
                 && (nth 1 (Nd.shape x) 0%nat =? dim sh)%nat)%bool = false).
    { rewrite Hdim. destruct (Nat.eqb_spec (dim sh) 2) as [E2|E2];
        [|reflexivity].
      cbn [andb]. apply Nat.eqb_neq. rewrite E2. now apply Hvq. }
    rewrite E, switchKernal_same, Hsz. reflexivity.
  - rewrite r_same_unfold by (now left).
    rewrite switchKernal_same.
    assert (Hsz' : size_is (mkvc 0%R x)
                     (Np.prodz (if node then vnN sh else vnC sh)) = true).
    { unfold size_is in *. now rewrite size_mkvc. }
    rewrite Hsz'. cbn [negb]. unfold outKernal. cbn [String.eqb Ascii.eqb Bool.eqb].
    rewrite <- Hsh, reshape_F_mkvc by exact Hwf. reflexivity.
Qed.

Lemma X10_r_roundtrip_witness :
  r [2%Z; 3%Z] (Nd.mk [2; 3]%nat [1; 2; 3; 4; 5; 6]%R) "CC" "CC" "V"
    = Ok (RArr (Some (mkvc 0%R (Nd.mk [2; 3]%nat [1; 2; 3; 4; 5; 6]%R)))) /\
  r [2%Z; 3%Z] (mkvc 0%R (Nd.mk [2; 3]%nat [1; 2; 3; 4; 5; 6]%R))
    "CC" "CC" "M"
    = Ok (RArr (Some (Nd.mk [2; 3]%nat [1; 2; 3; 4; 5; 6]%R))).
Proof.
  apply (@X10_r_roundtrip [2%Z; 3%Z]
           (Nd.mk [2; 3]%nat [1; 2; 3; 4; 5; 6]%R) false).
  - reflexivity.
  - reflexivity.
  - intros _. simpl. lia.
Defined.

Lemma size_column (x : ndarray R) (ii : nat) :
  size (Nd.shape (column 0%R x ii)) = nth 0 (Nd.shape x) 0%nat.
Proof.
  unfold column. cbn [vec Nd.shape size fold_right].
  rewrite length_map, length_seq. lia.
Qed.

Lemma r_bad_format (sh : list Z) (x : ndarray R) (fmt : string) :
  fmt <> "M" -> fmt <> "V" -> r sh x "CC" "CC" fmt = Raise Exception.
Proof.
  intros HM HV. unfold r.
  cbn [mem allowed_xType existsb String.eqb Ascii.eqb Bool.eqb orb negb].
  destruct (String.eqb_spec fmt "M") as [E|_]; [contradiction|].
  destruct (String.eqb_spec fmt "V") as [E|_]; [contradiction|].
  reflexivity.
Qed.

(** X9: an array of [n] rows and [dim] columns is always taken for a vector
    quantity.  With the type ['CC'], [r] returns its columns as a tuple of
    [dim] vectors when [n] is the number of cells, and raises [Exception]
    otherwise, whatever the format: so does a matrix of the shape of a 2-D
    mesh that has two cells along y. *)
Theorem X9_r_vector_quantity (sh : list Z) (x : ndarray R) (n : nat) :
  (1 <= dim sh)%nat ->
  Nd.shape x = [n; dim sh] ->
  (Z.of_nat n = nC sh ->
   r sh x "CC" "CC" "V"
     = Ok (RTuple (map (fun a => Some (column 0%R x a)) (seq 0 (dim sh))))) /\
  (Z.of_nat n <> nC sh ->
   forall fmt, r sh x "CC" "CC" fmt = Raise Exception).
Proof.
  intros Hd Hs.
  assert (U : forall fmt, fmt = "M" \/ fmt = "V" ->
            r sh x "CC" "CC" fmt =
            (out <- collect
                      (map (fun ii => switchKernal sh fmt "CC" "CC"
                                        (column 0%R x ii))
                           (seq 0 (dim sh))) ;;
             Ok (RTuple out))).
  { intros fmt Hf. rewrite (@r_same_unfold sh x false fmt Hf), Hs.
    cbn [List.length nth]. now rewrite !Nat.eqb_refl. }
  assert (K : forall fmt ii,
            switchKernal sh fmt "CC" "CC" (column 0%R x ii) =
            if negb (Z.of_nat n =? nC sh)%Z then Raise Exception
            else outKernal fmt (column 0%R x ii) sh).
  { intros fmt ii. rewrite (@switchKernal_same sh _ false fmt).
    unfold size_is. rewrite size_column, Hs. reflexivity. }
  split.
  - intros Hn. rewrite U by (now right).
    rewrite (@GridFacts.collect_map_ok _ _ (fun a => column 0%R x a)).
    + reflexivity.
    + intros a _. rewrite K, Hn, Z.eqb_refl. cbn [negb].
      unfold outKernal. cbn [String.eqb Ascii.eqb Bool.eqb].
      unfold column. now rewrite mkvc_vec.
  - intros Hn fmt.
    destruct (String.eqb_spec fmt "M") as [EM|EM];
      [|destruct (String.eqb_spec fmt "V") as [EV|EV]].
    + rewrite U by (now left).
      destruct (dim sh) as [|k] eqn:Ek; [lia|].
      cbn [seq map]. rewrite K.
      rewrite (proj2 (Z.eqb_neq _ _) Hn). reflexivity.
    + rewrite U by (now right).
      destruct (dim sh) as [|k] eqn:Ek; [lia|].
      cbn [seq map]. rewrite K.
      rewrite (proj2 (Z.eqb_neq _ _) Hn). reflexivity.
    + now apply r_bad_format.
Qed.

Lemma X9_r_vector_quantity_witness :
  r [3%Z; 2%Z] (Nd.mk [3; 2]%nat [1; 2; 3; 4; 5; 6]%R) "CC" "CC" "M"
    = Raise Exception.
Proof.
  apply (proj2 (@X9_r_vector_quantity [3%Z; 2%Z]
                  (Nd.mk [3; 2]%nat [1; 2; 3; 4; 5; 6]%R) 3
                  (Nat.le_succ_diag_r 1) eq_refl)).
  vm_compute. discriminate.
Defined.

Lemma mem_allowed (s : string) :
  mem s allowed_xType = true ->
  s = "CC" \/ s = "N" \/ s = "F" \/ s = "Fx" \/ s = "Fy" \/ s = "Fz" \/
  s = "E" \/ s = "Ex" \/ s = "Ey" \/ s = "Ez".
Proof.
  unfold mem, allowed_xType. cbn [existsb].
  rewrite !orb_true_iff, !String.eqb_eq. intuition discriminate.
Qed.

(** X8: [r] never changes the type of what it reshapes.  When it returns,
    the format is ['M'] or ['V'] and the output type is the input type, or
    one of its components ['Fx'], ['Fy'], ['Fz'] for ['F'] and ['Ex'],
    ['Ey'], ['Ez'] for ['E']. *)
Theorem X8_r_never_changes_type (sh : list Z) (x : ndarray R)
    (xType outType format : string) (out : r_out) :
  r sh x xType outType format = Ok out ->
  (format = "M" \/ format = "V") /\
  (outType = xType /\ mem xType allowed_xType = true \/
   xType = "F" /\ (outType = "Fx" \/ outType = "Fy" \/ outType = "Fz") \/
   xType = "E" /\ (outType = "Ex" \/ outType = "Ey" \/ outType = "Ez")).
Proof.
  unfold r. intros H.
  destruct (mem xType allowed_xType) eqn:E1; [|discriminate].
  destruct (mem outType allowed_xType) eqn:E2; [|discriminate].
  destruct (mem format ["M"; "V"]) eqn:E3; [|discriminate].
  cbn [negb] in H.
  destruct (String.eqb (substring 0 (String.length xType) outType) xType)
    eqn:E4; [|discriminate].
  clear H. split.
  - unfold mem in E3. cbn [existsb] in E3.
    rewrite !orb_true_iff, !String.eqb_eq in E3. intuition discriminate.
  - apply mem_allowed in E1. apply mem_allowed in E2.
    destruct E1 as [->|[->|[->|[->|[->|[->|[->|[->|[->| ->]]]]]]]]];
    destruct E2 as [->|[->|[->|[->|[->|[->|[->|[->|[->| ->]]]]]]]]];
    first [discriminate E4 | (left; split; reflexivity) | tauto].
Qed.

Lemma X8_r_never_changes_type_witness :
  ("V" = "M" \/ "V" = "V") /\
  ("Fx" = "F" /\ mem "F" allowed_xType = true \/
   "F" = "F" /\ ("Fx" = "Fx" \/ "Fx" = "Fy" \/ "Fx" = "Fz") \/
   "F" = "E" /\ ("Fx" = "Ex" \/ "Fx" = "Ey" \/ "Fx" = "Ez")).
Proof.
  apply (@X8_r_never_changes_type [1%Z; 1%Z] (vec [1; 2; 3; 4]%R)
           "F" "Fx" "V" (RArr (Some (vec [1; 2]%R)))).
  reflexivity.
Defined.

Lemma split3 (A : Type) (l : list A) (a b c : nat) :
  (a + b + c = List.length l)%nat ->
  firstn a l ++ firstn b (skipn a l) ++ firstn c (skipn (a + b) l) = l.
Proof.
  intros H.
  rewrite <- (firstn_skipn a l) at 4. f_equal.
  rewrite <- (firstn_skipn b (skipn a l)) at 2. f_equal.
  rewrite skipn_skipn, (Nat.add_comm b a).
  apply firstn_all2. rewrite length_skipn. lia.
Qed.


Lemma size_is_vec (l : list R) (n : Z) :
  Z.of_nat (List.length l) = n -> size_is (vec l) n = true.
Proof.
  intros H. unfold size_is. cbn [vec Nd.shape size fold_right].
  rewrite Nat.mul_1_r. now apply Z.eqb_eq.
Qed.


Ltac r_eval E Hlen :=
  unfold r, switchKernal;
  cbn -[Z.add Z.mul Z.to_nat Z.of_nat Z.eqb skipn firstn mkvc Np.sumz Np.prodz
        Nat.sub slice size_is vnF vnE];
  rewrite E; cbn [firstn]; rewrite ?mkvc_vec;
  rewrite ?sumz_cons, ?sumz_nil;
  rewrite size_is_vec by (rewrite Hlen, ?sumz_cons, ?sumz_nil; ring);
  cbn -[Z.add Z.mul Z.to_nat Z.of_nat Z.eqb skipn firstn mkvc Nat.sub slice];
  unfold slice; rewrite ?mkvc_vec.


Ltac r_norm :=
  rewrite ?Z.add_0_r, ?Z.add_0_l; change (Z.to_nat 0) with 0%nat;
  rewrite ?Nat.sub_0_r; cbn [skipn data vec].

Ltac len_solve :=
  cbn [vec Nd.shape data nth]; rewrite ?length_firstn, ?length_skipn;
  try (apply f_equal2; [|reflexivity]); lia.

Lemma r_split (shape : list Z) (isF : bool) (l : list R) (cs : list Z) :
  (1 <= dim shape <= 3)%nat ->
  (if isF then vnF shape else vnE shape) = cs ->
  List.length cs = dim shape ->
  Forall (fun c => 0 <= c)%Z cs ->
  Z.of_nat (List.length l) = Np.sumz cs ->
  exists comps,
    r shape (vec l) (if isF then "F" else "E") (if isF then "F" else "E") "V"
      = Ok (RTuple (map Some comps)) /\
    List.length comps = dim shape /\
    concat (map (@data R) comps) = l /\
    forall a, (a < dim shape)%nat ->
      exists c, nth_error comps a = Some c /\
        Nd.shape c = [Z.to_nat (nth a cs 0%Z)] /\
        List.length (data c) = Z.to_nat (nth a cs 0%Z) /\
        r shape (vec l) (if isF then "F" else "E")
          (String.append (if isF then "F" else "E") (nth a ["x"; "y"; "z"] ""))
          "V" = Ok (RArr (Some c)).
Proof.
  intros Hd E Hlen Hpos Hl.
  pose proof Hl as Hl'.
  destruct (shape_cases shape Hd) as [[n0 ->]|[[n0 [n1 ->]]|[n0 [n1 [n2 ->]]]]];
    unfold dim in Hlen; cbn [List.length] in Hlen.
  - destruct cs as [|c0 [|c1 cs]]; try discriminate Hlen.
    inversion Hpos as [|? ? P0 _]; subst.
    rewrite sumz_cons, sumz_nil in Hl'.
    exists [vec (firstn (Z.to_nat c0) l)].
    split; [|split; [reflexivity|split]].
    + destruct isF; r_eval E Hl; r_norm; reflexivity.
    + cbn [map concat data vec]. rewrite app_nil_r.
      apply firstn_all2. lia.
    + intros a Ha. unfold dim in Ha. cbn [List.length] in Ha.
      destruct a as [|a]; [|lia].
      eexists. split; [reflexivity|]. split; [len_solve|]. split; [len_solve|].
      cbn [nth]. destruct isF; r_eval E Hl; r_norm; reflexivity.
  - destruct cs as [|c0 [|c1 [|c2 cs]]]; try discriminate Hlen.
    inversion Hpos as [|? ? P0 Hpos1]; subst.
    inversion Hpos1 as [|? ? P1 _]; subst.
    rewrite !sumz_cons, sumz_nil in Hl'.
    exists [vec (firstn (Z.to_nat c0) l);
            vec (firstn (Z.to_nat c1) (skipn (Z.to_nat c0) l))].
    assert (S1 : (Z.to_nat (c0 + c1) - Z.to_nat c0 = Z.to_nat c1)%nat) by lia.
    split; [|split; [reflexivity|split]].
    + destruct isF; r_eval E Hl; r_norm; rewrite S1; reflexivity.
    + cbn [map concat data vec]. rewrite app_nil_r.
      rewrite <- (firstn_skipn (Z.to_nat c0) l) at 3. f_equal.
      apply firstn_all2. rewrite length_skipn. lia.
    + intros a Ha. unfold dim in Ha. cbn [List.length] in Ha.
      destruct a as [|[|a]]; [| |lia].
      * eexists. split; [reflexivity|]. split; [len_solve|]. split; [len_solve|].
        cbn [nth]. destruct isF; r_eval E Hl; r_norm; reflexivity.
      * eexists. split; [reflexivity|]. split; [len_solve|]. split; [len_solve|].
        cbn [nth]. destruct isF; r_eval E Hl; r_norm; rewrite S1; reflexivity.
  - destruct cs as [|c0 [|c1 [|c2 [|c3 cs]]]]; try discriminate Hlen.
    inversion Hpos as [|? ? P0 Hpos1]; subst.
    inversion Hpos1 as [|? ? P1 Hpos2]; subst.
    inversion Hpos2 as [|? ? P2 _]; subst.
    rewrite !sumz_cons, sumz_nil in Hl'.
    exists [vec (firstn (Z.to_nat c0) l);
            vec (firstn (Z.to_nat c1) (skipn (Z.to_nat c0) l));
            vec (firstn (Z.to_nat c2) (skipn (Z.to_nat c0 + Z.to_nat c1) l))].
    assert (S1 : (Z.to_nat (c0 + c1) - Z.to_nat c0 = Z.to_nat c1)%nat) by lia.
    assert (S2 : (Z.to_nat (c0 + (c1 + c2)) - Z.to_nat (c0 + c1)
                  = Z.to_nat c2)%nat) by lia.
    assert (S3 : (Z.to_nat (c0 + c1) = Z.to_nat c0 + Z.to_nat c1)%nat) by lia.
    split; [|split; [reflexivity|split]].
    + destruct isF; r_eval E Hl; r_norm; rewrite S1, S2, S3; reflexivity.
    + cbn [map concat data vec]. rewrite app_nil_r.
      apply split3. lia.
    + intros a Ha. unfold dim in Ha. cbn [List.length] in Ha.
      destruct a as [|[|[|a]]]; [| | |lia].
      * eexists. split; [reflexivity|]. split; [len_solve|]. split; [len_solve|].
        cbn [nth]. destruct isF; r_eval E Hl; r_norm; reflexivity.
      * eexists. split; [reflexivity|]. split; [len_solve|]. split; [len_solve|].
        cbn [nth]. destruct isF; r_eval E Hl; r_norm; rewrite S1; reflexivity.
      * eexists. split; [reflexivity|]. split; [len_solve|]. split; [len_solve|].
        cbn [nth]. destruct isF; r_eval E Hl; r_norm; rewrite S2, S3; reflexivity.
Qed.

Lemma vn_counts (shape : list Z) :
  (1 <= dim shape <= 3)%nat ->
  vnF shape = map (faceCountAxis shape) (seq 0 (dim shape)) /\
  vnE shape = map (edgeCountAxis shape) (seq 0 (dim shape)).
Proof.
  intros Hd.
  destruct (shape_cases shape Hd) as [[n0 ->]|[[n0 [n1 ->]]|[n0 [n1 [n2 ->]]]]];
    split; topo_simpl; repeat (f_equal; try ring).
Qed.

Lemma prod_from_nonneg (f : nat -> Z) (shape : list Z) (i0 : nat) :
  (forall i, 0 <= f i)%Z ->
  Forall (fun n => 0 <= n)%Z shape ->
  (0 <= prod_from f i0 shape)%Z.
Proof.
  intros Hf Hs. revert i0. induction Hs as [|n rest Hn _ IH]; intros i0.
  - cbn. lia.
  - cbn [prod_from]. specialize (IH (S i0)). specialize (Hf i0). nia.
Qed.

(** X7: on a mesh of dimension 1 to 3, [r(x, 'F', 'F', 'V')] splits a vector
    of [nF] face values into one vector per axis: there are [dim] of them,
    the one of axis [a] has as many entries as there are faces normal to
    [a] and is what [r(x, 'F', 'Fx' | 'Fy' | 'Fz', 'V')] returns, and put
    end to end they give [x] back.  The same holds for ['E'] and the
    edges. *)
Theorem X7_r_splits_field (shape : list Z) (isF : bool) (l : list R) :
  (1 <= dim shape <= 3)%nat ->
  Forall (fun n => 0 <= n)%Z shape ->
  Z.of_nat (List.length l) = (if isF then nF shape else nE shape) ->
  exists comps,
    r shape (vec l) (if isF then "F" else "E") (if isF then "F" else "E") "V"
      = Ok (RTuple (map Some comps)) /\
    List.length comps = dim shape /\
    concat (map (@data R) comps) = l /\
    forall a, (a < dim shape)%nat ->
      exists c, nth_error comps a = Some c /\
        Nd.shape c = [Z.to_nat (if isF then faceCountAxis shape a
                                else edgeCountAxis shape a)] /\
        List.length (data c) = Z.to_nat (if isF then faceCountAxis shape a
                                         else edgeCountAxis shape a) /\
        r shape (vec l) (if isF then "F" else "E")
          (String.append (if isF then "F" else "E") (nth a ["x"; "y"; "z"] ""))
          "V" = Ok (RArr (Some c)).
Proof.
  intros Hd Hpos Hl.
  destruct (vn_counts shape Hd) as [EF EE].
  set (count := if isF then faceCountAxis shape else edgeCountAxis shape).
  assert (Hcs : (if isF then vnF shape else vnE shape)
                 = map count (seq 0 (dim shape)))
    by (unfold count; destruct isF; assumption).
  assert (Hcpos : Forall (fun c => 0 <= c)%Z (map count (seq 0 (dim shape)))).
  { apply Forall_map, Forall_forall. intros a _. unfold count.
    destruct isF; apply prod_from_nonneg; try assumption;
      intros i; destruct (i =? a)%nat; lia. }
  assert (Hsum : Z.of_nat (List.length l)
                 = Np.sumz (map count (seq 0 (dim shape)))).
  { rewrite Hl, <- Hcs. unfold nF, nE. now destruct isF. }
  destruct (@r_split shape isF l _ Hd Hcs
              ltac:(now rewrite length_map, length_seq) Hcpos Hsum)
    as [comps [H1 [H2 [H3 H4]]]].
  exists comps. split; [exact H1|]. split; [exact H2|]. split; [exact H3|].
  intros a Ha. destruct (H4 a Ha) as [c [G1 [G2 [G3 G4]]]].
  rewrite (NdFacts.nth_map_seq 0%Z count Ha) in G2, G3.
  exists c. unfold count in G2, G3. destruct isF; repeat split; assumption.
Qed.

Lemma X7_r_splits_field_witness :
  exists comps,
    r [1%Z; 1%Z] (vec [1; 2; 3; 4]%R) "F" "F" "V"
      = Ok (RTuple (map Some comps)) /\
    List.length comps = dim [1%Z; 1%Z] /\
    concat (map (@data R) comps) = [1; 2; 3; 4]%R /\
    forall a, (a < dim [1%Z; 1%Z])%nat ->
      exists c, nth_error comps a = Some c /\
        Nd.shape c = [Z.to_nat (faceCountAxis [1%Z; 1%Z] a)] /\
        List.length (data c) = Z.to_nat (faceCountAxis [1%Z; 1%Z] a) /\
        r [1%Z; 1%Z] (vec [1; 2; 3; 4]%R) "F"
          (String.append "F" (nth a ["x"; "y"; "z"] "")) "V"
          = Ok (RArr (Some c)).
Proof.
  apply (@X7_r_splits_field [1%Z; 1%Z] true [1; 2; 3; 4]%R).
  - unfold dim; simpl; lia.
  - constructor; [lia|]. constructor; [lia|]. constructor.
  - reflexivity.
Defined.

End ReshapeFacts.

(** ** Typed arrays, unit vectors and the reference frame *)

Module FrameFacts.

Import Validation ReferenceFrame TensorVectorFacts ValidationFacts.
Local Open Scope R_scope.

Lemma shape_check (sh : list Z) (s : list nat) :
  List.length sh = List.length s ->
  (existsb (fun n12 : Z * nat =>
              ((0 <? fst n12)%Z && negb (fst n12 =? Z.of_nat (snd n12))%Z)%bool)
           (combine sh s) = false
   <-> Forall2 (fun n1 n2 => (0 < n1)%Z -> n1 = Z.of_nat n2) sh s).
Proof.
  revert s. induction sh as [|n1 sh IH]; intros [|n2 s] Hl;
    simpl in Hl; try lia.
  - split; [constructor|reflexivity].
  - cbn [combine existsb fst snd]. rewrite orb_false_iff, IH by lia. split.
    + intros [H1 H2]. constructor; [|exact H2].
      intros Hp. apply Z.ltb_lt in Hp. rewrite Hp in H1. cbn [andb] in H1.
      apply negb_false_iff in H1. now apply Z.eqb_eq.
    + intros H. inversion H as [|? ? ? ? Hh Ht]; subst. split; [|exact Ht].
      destruct (Z.ltb_spec 0 n1) as [Hp|Hp]; [|reflexivity].
      cbn [andb]. apply negb_false_iff, Z.eqb_eq. now apply Hh.
Qed.

(** X11: [validate_type] returns the array unchanged when the class declares
    no shape, or when the array has as many axes as the declared shape and
    agrees with every positive declared extent; in every other case it
    raises [ValueError].  A declared extent that is not positive constrains
    nothing: the declared shape [(-1,)] accepts every 1-D array, and the
    declared shape [(3,)] accepts exactly the arrays of shape [(3,)]. *)
Theorem X11_validate_type_accepts (sh : list Z) (val : Nd.ndarray R) :
  validate_type None val = Ok val /\
  (Forall2 (fun n1 n2 => (0 < n1)%Z -> n1 = Z.of_nat n2) sh (Nd.shape val) ->
   validate_type (Some sh) val = Ok val) /\
  (~ Forall2 (fun n1 n2 => (0 < n1)%Z -> n1 = Z.of_nat n2) sh (Nd.shape val) ->
   validate_type (Some sh) val = Raise ValueError) /\
  (forall n : nat, Nd.shape val = [n] ->
     validate_type (Some [(-1)%Z]) val = Ok val) /\
  (validate_type (Some [3%Z]) val = Ok val <-> Nd.shape val = [3%nat]).
Proof.
  assert (Hacc : forall sh0,
            Forall2 (fun n1 n2 => (0 < n1)%Z -> n1 = Z.of_nat n2) sh0
                    (Nd.shape val) ->
            validate_type (Some sh0) val = Ok val).
  { intros sh0 H. unfold validate_type.
    pose proof (Forall2_length H) as Hl.
    rewrite (proj2 (Nat.eqb_eq _ _) Hl). cbn [negb].
    now rewrite (proj2 (shape_check sh0 (Nd.shape val) Hl) H). }
  assert (Hrej : forall sh0,
            ~ Forall2 (fun n1 n2 => (0 < n1)%Z -> n1 = Z.of_nat n2) sh0
                      (Nd.shape val) ->
            validate_type (Some sh0) val = Raise ValueError).
  { intros sh0 H. unfold validate_type.
    destruct (Nat.eqb_spec (List.length sh0) (List.length (Nd.shape val)))
      as [Hl|Hl]; [|reflexivity].
    cbn [negb].
    destruct (existsb _ (combine sh0 (Nd.shape val))) eqn:E; [reflexivity|].
    exfalso. apply H. now apply (shape_check sh0 (Nd.shape val) Hl). }
  split; [reflexivity|]. split; [apply Hacc|]. split; [apply Hrej|]. split.
  - intros n Hn. apply Hacc. rewrite Hn.
    constructor; [lia|constructor].
  - split.
    + intros H.
      destruct (Nd.shape val) as [|n [|n' s]] eqn:Es.
      * rewrite Hrej in H; [discriminate|]. intros F. inversion F.
      * destruct (Nat.eq_dec n 3) as [->|Hn]; [reflexivity|].
        rewrite Hrej in H; [discriminate|]. intros F.
        inversion F as [|? ? ? ? Hh _]; subst. lia.
      * rewrite Hrej in H; [discriminate|]. intros F.
        inversion F as [|? ? ? ? _ Ht]; subst. inversion Ht.
    + intros Hs. apply Hacc. rewrite Hs. constructor; [lia|constructor].
Qed.

Lemma sum_sq_scale (c : R) (l : list R) :
  Arr.sum (map (fun x => x * x) (map (fun x => c * x) l))
    = c * c * Arr.sum (map (fun x => x * x) l).
Proof.
  induction l as [|x l IH].
  - cbn [map]. rewrite sum_nil. ring.
  - cbn [map]. rewrite !sum_cons, IH. ring.
Qed.

Lemma norm_scale (c : R) (val : Nd.ndarray R) :
  0 < c ->
  norm (Nd.mk (Nd.shape val) (map (fun x => c * x) (Nd.data val)))
    = c * norm val.
Proof.
  intros Hc. unfold norm. cbn [Nd.data]. rewrite sum_sq_scale.
  rewrite sqrt_mult by (try apply sum_sq_nonneg; nra).
  now rewrite sqrt_square by lra.
Qed.

Lemma validate_type_shape (cshape : option (list Z)) (a b : Nd.ndarray R) :
  Nd.shape a = Nd.shape b ->
  (validate_type cshape a = Ok a /\ validate_type cshape b = Ok b) \/
  (validate_type cshape a = Raise ValueError /\
   validate_type cshape b = Raise ValueError).
Proof.
  intros Hs. unfold validate_type. destruct cshape as [sh|]; [|now left].
  rewrite Hs.
  destruct (negb _); [now right|].
  destruct (existsb _ _); [now right|now left].
Qed.

(** X12: what [validate_unit] stores depends on the direction of the vector
    only: a vector and its multiple by a positive factor have the same
    outcome (the same unit vector, or the same refusal), and a vector that
    [validate_unit] has returned is returned unchanged when it is validated
    again. *)
Theorem X12_validate_unit_direction (cshape : option (list Z))
    (val : Nd.ndarray R) (c : R) :
  0 < c ->
  validate_unit cshape
    (Nd.mk (Nd.shape val) (map (fun x => c * x) (Nd.data val)))
    = validate_unit cshape val /\
  (forall v, validate_unit cshape val = Ok v -> validate_unit cshape v = Ok v).
Proof.
  intros Hc. split.
  - set (cv := Nd.mk (Nd.shape val) (map (fun x => c * x) (Nd.data val))).
    unfold validate_unit.
    destruct (@validate_type_shape cshape cv val eq_refl) as [[E1 E2]|[E1 E2]];
      rewrite E1, E2; [|reflexivity].
    cbn [bind]. subst cv. rewrite !norm_scale by exact Hc.
    destruct (Arr.Reqb (norm val) 0) eqn:E0.
    + apply Reqb_true in E0. rewrite E0, Rmult_0_r.
      now rewrite (proj2 (Reqb_true 0 0) eq_refl).
    + assert (Hn : norm val <> 0)
        by (intros H; apply Reqb_true in H; congruence).
      assert (E0' : Arr.Reqb (c * norm val) 0 = false).
      { destruct (Arr.Reqb (c * norm val) 0) eqn:E; [|reflexivity].
        apply Reqb_true in E. exfalso. nra. }
      rewrite E0'. f_equal. cbn [Nd.shape Nd.data]. f_equal.
      rewrite map_map. apply map_ext. intros x. cbv beta. field. split; lra.
  - intros v Hv.
    destruct (validate_unit_norm _ _ Hv) as [Nv [Sv _]].
    apply validate_unit_of_unit; [|exact Nv].
    unfold validate_unit in Hv.
    destruct (validate_type cshape val) as [val'|e] eqn:E; [|discriminate].
    destruct (@validate_type_shape cshape v val Sv) as [[E1 E2]|[E1 E2]];
      [exact E1|congruence].
Qed.

Lemma X12_validate_unit_direction_witness :
  validate_unit axis_shape
    (Nd.mk (Nd.shape (Nd.vec [1; 2; 2]))
           (map (fun x => 2 * x) (Nd.data (Nd.vec [1; 2; 2]))))
    = validate_unit axis_shape (Nd.vec [1; 2; 2]) /\
  (forall v, validate_unit axis_shape (Nd.vec [1; 2; 2]) = Ok v ->
             validate_unit axis_shape v = Ok v).
Proof.
  apply (@X12_validate_unit_direction axis_shape (Nd.vec [1; 2; 2]) 2).
  lra.
Defined.






End FrameFacts.

(** ** The tensors of a mesh and its staggered grids *)

Module StaggeredFacts.

Import BaseMesh BaseMeshMore BaseRectangularMesh RectangularMore
  BaseTensorMesh TensorMeshMore TensorVectorFacts BaseMeshFacts TopologyFacts.
Local Open Scope R_scope.

Lemma counts_x (sh : list Z) :
  (1 <= BaseMesh.dim sh <= 3)%nat ->
  nFx sh = faceCountAxis sh 0 /\ nEx sh = edgeCountAxis sh 0.
Proof.
  intros Hd.
  destruct (shape_cases sh Hd) as [[n0 ->]|[[n0 [n1 ->]]|[n0 [n1 [n2 ->]]]]];
    split; topo_solve.
Qed.

Lemma counts_y (sh : list Z) :
  (2 <= BaseMesh.dim sh <= 3)%nat ->
  nFy sh = Some (faceCountAxis sh 1) /\ nEy sh = Some (edgeCountAxis sh 1).
Proof.
  intros Hd.
  destruct (@shape_cases sh ltac:(lia))
    as [[n0 ->]|[[n0 [n1 ->]]|[n0 [n1 [n2 ->]]]]];
    unfold BaseMesh.dim in Hd; simpl in Hd; try lia; split; topo_solve.
Qed.

Lemma counts_z (sh : list Z) :
  BaseMesh.dim sh = 3%nat ->
  nFz sh = Some (faceCountAxis sh 2) /\ nEz sh = Some (edgeCountAxis sh 2).
Proof.
  intros Hd.
  destruct (@shape_cases sh ltac:(lia))
    as [[n0 ->]|[[n0 [n1 ->]]|[n0 [n1 [n2 ->]]]]];
    unfold BaseMesh.dim in Hd; simpl in Hd; try lia; split; topo_solve.
Qed.

Lemma of_nat_S (n : nat) : Z.of_nat (S n) = (Z.of_nat n + 1)%Z.
Proof. lia. Qed.

Ltac grid_eval :=
  unfold gridF, gridE, gridFx, gridFy, gridFz, gridEx, gridEy, gridEz,
    _getTensorGrid, getTensor, ten, vectorNx, vectorNy, vectorNz,
    vectorCCx, vectorCCy, vectorCCz, hx, item;
  cbn -[centers_of nodes_of Z.of_nat Z.add Z.mul Z.eqb ndgrid faceCountAxis
        edgeCountAxis nFx nFy nFz nEx nEy nEz];
  repeat match goal with
         | E : centers_of _ _ = Ok _ |- _ => rewrite E
         end;
  cbn -[nodes_of Z.of_nat Z.add Z.mul Z.eqb ndgrid faceCountAxis
        edgeCountAxis nFx nFy nFz nEx nEy nEz].

Ltac count_rw :=
  repeat match goal with
         | |- context [nFx ?sh] =>
             rewrite (proj1 (@counts_x sh ltac:(unfold BaseMesh.dim; simpl; lia)))
         | |- context [nEx ?sh] =>
             rewrite (proj2 (@counts_x sh ltac:(unfold BaseMesh.dim; simpl; lia)))
         | |- context [nFy ?sh] =>
             rewrite (proj1 (@counts_y sh ltac:(unfold BaseMesh.dim; simpl; lia)))
         | |- context [nEy ?sh] =>
             rewrite (proj2 (@counts_y sh ltac:(unfold BaseMesh.dim; simpl; lia)))
         | |- context [nFz ?sh] =>
             rewrite (proj1 (@counts_z sh ltac:(unfold BaseMesh.dim; simpl; lia)))
         | |- context [nEz ?sh] =>
             rewrite (proj2 (@counts_z sh ltac:(unfold BaseMesh.dim; simpl; lia)))
         end;
  cbn [is_zero]; rewrite ?orb_false_r.

Ltac len_rw :=
  cbn [map]; rewrite ?nodes_of_length, ?of_nat_S;
  repeat match goal with
         | L : List.length _ = List.length _ |- _ => rewrite L; clear L
         end.


Ltac grid_case :=
  grid_eval; count_rw;
  eexists; eexists; eexists; eexists;
  split; [reflexivity|]; split; [reflexivity|];
  split; [reflexivity|]; split; [reflexivity|];
  split; [len_rw; reflexivity|]; split; [len_rw; reflexivity|];
  split; [len_rw; reflexivity|]; split; [len_rw; reflexivity|];
  split; reflexivity.

(** X14: on a tensor mesh of dimension 1 to 3, [getTensor] succeeds for
    every key of the mesh and the lengths of the tensors it returns are
    the count vectors of the base mesh: [vnFx], [vnFy], [vnFz] for the
    faces, [vnEx], [vnEy], [vnEz] for the edges, [vnC] for ['CC'] and [vnN]
    for ['N'].  The staggered grid of an axis is [None] when the mesh has
    no face (or edge) of that axis, and the grid of these tensors
    otherwise. *)
Theorem X14_tensors_and_staggered_grids (m : mesh) (a : nat) :
  (1 <= List.length (h m) <= 3)%nat ->
  List.length (x0 m) = List.length (h m) ->
  (a < dim m)%nat ->
  exists tF tE tC tN,
    getTensor m (String.append "F" (axis_name a)) = Ok tF /\
    getTensor m (String.append "E" (axis_name a)) = Ok tE /\
    getTensor m "CC" = Ok tC /\
    getTensor m "N" = Ok tN /\
    vnF_axis (shape m) a
      = Ok (Some (map (fun t => Z.of_nat (List.length t)) tF)) /\
    vnE_axis (shape m) a
      = Ok (Some (map (fun t => Z.of_nat (List.length t)) tE)) /\
    map (fun t => Z.of_nat (List.length t)) tC = vnC (shape m) /\
    map (fun t => Z.of_nat (List.length t)) tN = vnN (shape m) /\
    gridF m a = (if (faceCountAxis (shape m) a =? 0)%Z then Ok None
                 else Ok (Some (ndgrid tF))) /\
    gridE m a = (if (edgeCountAxis (shape m) a =? 0)%Z then Ok None
                 else Ok (Some (ndgrid tE))).
Proof.
  intros H3 Hx Ha. unfold dim, BaseMesh.dim, shape in Ha.
  rewrite length_map in Ha.
  destruct m as [hh xx mt]. cbn [h x0] in *.
  destruct hh as [|h0 [|h1 [|h2 [|h3 hh]]]]; simpl in H3, Ha; try lia;
    destruct xx as [|o0 [|o1 [|o2 [|o3 xx]]]]; simpl in Hx; try lia.
  - destruct (centers_of_ok h0 o0) as [c0 [E0 [L0 _]]].
    destruct a as [|a]; [|lia]. grid_case.
  - destruct (centers_of_ok h0 o0) as [c0 [E0 [L0 _]]].
    destruct (centers_of_ok h1 o1) as [c1 [E1 [L1 _]]].
    destruct a as [|[|a]]; [| |lia]; grid_case.
  - destruct (centers_of_ok h0 o0) as [c0 [E0 [L0 _]]].
    destruct (centers_of_ok h1 o1) as [c1 [E1 [L1 _]]].
    destruct (centers_of_ok h2 o2) as [c2 [E2 [L2 _]]].
    destruct a as [|[|[|a]]]; [| | |lia]; grid_case.
Qed.

Lemma X14_tensors_and_staggered_grids_witness :
  exists tF tE tC tN,
    getTensor (mk [[1; 2]; [3]] [5; 7] "TENSOR")
      (String.append "F" (axis_name 1)) = Ok tF /\
    getTensor (mk [[1; 2]; [3]] [5; 7] "TENSOR")
      (String.append "E" (axis_name 1)) = Ok tE /\
    getTensor (mk [[1; 2]; [3]] [5; 7] "TENSOR") "CC" = Ok tC /\
    getTensor (mk [[1; 2]; [3]] [5; 7] "TENSOR") "N" = Ok tN /\
    vnF_axis (shape (mk [[1; 2]; [3]] [5; 7] "TENSOR")) 1
      = Ok (Some (map (fun t => Z.of_nat (List.length t)) tF)) /\
    vnE_axis (shape (mk [[1; 2]; [3]] [5; 7] "TENSOR")) 1
      = Ok (Some (map (fun t => Z.of_nat (List.length t)) tE)) /\
    map (fun t => Z.of_nat (List.length t)) tC
      = vnC (shape (mk [[1; 2]; [3]] [5; 7] "TENSOR")) /\
    map (fun t => Z.of_nat (List.length t)) tN
      = vnN (shape (mk [[1; 2]; [3]] [5; 7] "TENSOR")) /\
    gridF (mk [[1; 2]; [3]] [5; 7] "TENSOR") 1
      = (if (faceCountAxis (shape (mk [[1; 2]; [3]]%R [5; 7]%R "TENSOR")) 1 =? 0)%Z
         then Ok None else Ok (Some (ndgrid tF))) /\
    gridE (mk [[1; 2]; [3]] [5; 7] "TENSOR") 1
      = (if (edgeCountAxis (shape (mk [[1; 2]; [3]]%R [5; 7]%R "TENSOR")) 1 =? 0)%Z
         then Ok None else Ok (Some (ndgrid tE))).
Proof.
  apply (@X14_tensors_and_staggered_grids (mk [[1; 2]; [3]] [5; 7] "TENSOR") 1).
  - simpl. lia.
  - reflexivity.
  - unfold dim, BaseMesh.dim. simpl. lia.
Defined.

End StaggeredFacts.

(** ** Containment in terms of the extent of the mesh *)

Module ExtentFacts.

Import BaseTensorMesh TensorMeshMore ContainmentSpec TensorVectorFacts
  ContainmentFacts InterpolationFacts.
Local Open Scope R_scope.

(** A tensor with fewer than two entries has no smallest spacing. *)
Lemma inside_axis_short (pts : list (list R)) (i : nat) (t : list R)
    (inside : list bool) :
  (List.length t < 2)%nat -> inside_axis pts i t inside = Raise ValueError.
Proof.
  intros H. destruct t as [|x [|y t]]; [reflexivity|reflexivity|].
  simpl in H. lia.
Qed.

Lemma inside_axis_outcome (pts : list (list R)) (i : nat) (t : list R)
    (inside : list bool) :
  (exists bs, inside_axis pts i t inside = Ok bs) \/
  inside_axis pts i t inside = Raise ValueError.
Proof.
  destruct (le_lt_dec 2 (List.length t)) as [H|H].
  - left. unfold inside_axis.
    destruct (diff_min_some t H) as [dmin ->].
    destruct (@min_some t ltac:(lia)) as [lo ->].
    destruct (@max_some t ltac:(lia)) as [hi ->].
    cbn [bind]. eauto.
  - right. now apply inside_axis_short.
Qed.

Lemma inside_loop_short (pts : list (list R)) (tensors : list (list R)) :
  Exists (fun t => (List.length t < 2)%nat) tensors ->
  forall i inside, inside_loop pts i tensors inside = Raise ValueError.
Proof.
  induction tensors as [|t ts IH]; intros Hex i inside.
  - inversion Hex.
  - cbn [inside_loop].
    destruct (inside_axis_outcome pts i t inside) as [[bs E]|E].
    + rewrite E. cbn [bind]. apply IH.
      inversion Hex as [? ? Hs|? ? Hs]; subst; [|exact Hs].
      rewrite inside_axis_short in E by exact Hs. discriminate.
    + now rewrite E.
Qed.

(** X16: [isInside] raises [ValueError], whatever the points, as soon as one
    of the tensors it tests has fewer than two entries, because such a
    tensor has no smallest spacing: this is the case of the location
    ['CC'] on a mesh that has a single cell along one of its axes. *)
Theorem X16_isInside_single_entry (m : mesh) (pts : list (list R))
    (locType : string) (tensors : list (list R)) :
  Forall (fun p => List.length p = dim m) pts ->
  tensors_tested m locType = Ok tensors ->
  Exists (fun t => (List.length t < 2)%nat) tensors ->
  isInside m pts locType = Raise ValueError.
Proof.
  intros Hp Ht Hex. unfold isInside.
  assert (Ha : asArray_N_x_Dim pts (dim m) = Ok pts).
  { unfold asArray_N_x_Dim.
    assert (E : forallb (fun p => (List.length p =? dim m)%nat) pts = true).
    { apply forallb_forall. intros p Hin. apply Nat.eqb_eq.
      rewrite Forall_forall in Hp. now apply Hp. }
    now rewrite E. }
  rewrite Ha. cbn [bind]. unfold tensors_tested in Ht.
  destruct (getTensor m locType) as [ts|e]; [|discriminate Ht].
  cbn [bind] in *. rewrite Ht. cbn [bind].
  now apply inside_loop_short.
Qed.

Lemma X16_isInside_single_entry_witness :
  isInside unit_mesh [[0.5]] "CC" = Raise ValueError.
Proof.
  apply (@X16_isInside_single_entry unit_mesh [[0.5]] "CC" [[0 + 1 * 0.5 + 0]]).
  - repeat constructor.
  - reflexivity.
  - left. simpl. lia.
Defined.

Lemma sum_firstn_bounds (l : list R) (k : nat) :
  Forall (fun w => 0 <= w) l ->
  0 <= Arr.sum (firstn k l) <= Arr.sum l.
Proof.
  intros H. revert k. induction H as [|x l Hx _ IH]; intros k.
  - rewrite firstn_nil, sum_nil. lra.
  - destruct k as [|k].
    + cbn [firstn]. rewrite sum_nil, sum_cons.
      specialize (IH 0%nat). cbn [firstn] in IH. rewrite sum_nil in IH. lra.
    + cbn [firstn]. rewrite !sum_cons. specialize (IH k). lra.
Qed.

Lemma diff_cons2 (a b : R) (l : list R) :
  Arr.diff (a :: b :: l) = (b - a) :: Arr.diff (b :: l).
Proof. reflexivity. Qed.

Lemma diff_cumsum_from (l : list R) (acc o : R) :
  Arr.diff (map (fun v => v + o) (acc :: Arr.cumsum_from acc l)) = l.
Proof.
  revert acc. induction l as [|x l IH]; intros acc; [reflexivity|].
  cbn [Arr.cumsum_from map]. rewrite diff_cons2.
  specialize (IH (acc + x)). cbn [map] in IH. rewrite IH.
  f_equal. ring.
Qed.

Lemma diff_nodes (hi : list R) (o : R) : Arr.diff (nodes_of hi o) = hi.
Proof.
  unfold nodes_of. destruct hi as [|x hi]; [reflexivity|].
  cbn [Arr.cumsum].
  pose proof (diff_cumsum_from (x :: hi) 0 o) as H.
  cbn [Arr.cumsum_from] in H. rewrite Rplus_0_l in H. exact H.
Qed.

Lemma in_nodes (hi : list R) (o y : R) :
  In y (nodes_of hi o) ->
  exists k, (k <= List.length hi)%nat /\ y = o + Arr.sum (firstn k hi).
Proof.
  intros Hin. destruct (In_nth _ _ 0 Hin) as [k [Hk <-]].
  rewrite nodes_of_length in Hk. exists k. split; [lia|].
  apply nodes_of_nth. lia.
Qed.

Lemma nodes_first_last (hi : list R) (o : R) :
  In o (nodes_of hi o) /\ In (o + Arr.sum hi) (nodes_of hi o).
Proof.
  split.
  - replace o with (nth 0 (nodes_of hi o) 0) at 1.
    + apply nth_In. rewrite nodes_of_length. lia.
    + rewrite nodes_of_nth by lia. cbn [firstn]. rewrite sum_nil. ring.
  - replace (o + Arr.sum hi) with (nth (List.length hi) (nodes_of hi o) 0).
    + apply nth_In. rewrite nodes_of_length. lia.
    + rewrite nodes_of_nth by lia. now rewrite firstn_all.
Qed.

(** The extent of a node vector whose widths are not negative. *)
Lemma nodes_min_max (hi : list R) (o : R) :
  Forall (fun w => 0 <= w) hi ->
  Arr.min (nodes_of hi o) = Ok o /\
  Arr.max (nodes_of hi o) = Ok (o + Arr.sum hi).
Proof.
  intros Hpos.
  destruct (nodes_first_last hi o) as [I0 I1].
  destruct (@min_some (nodes_of hi o)) as [lo Elo];
    [rewrite nodes_of_length; lia|].
  destruct (@max_some (nodes_of hi o)) as [hi' Ehi];
    [rewrite nodes_of_length; lia|].
  destruct (min_least _ Elo) as [Inlo Hlo].
  destruct (max_greatest _ Ehi) as [Inhi Hhi].
  destruct (in_nodes Inlo) as [k1 [_ E1]].
  destruct (in_nodes Inhi) as [k2 [_ E2]].
  pose proof (sum_firstn_bounds k1 Hpos).
  pose proof (sum_firstn_bounds k2 Hpos).
  pose proof (Hlo _ I0). pose proof (Hhi _ I1).
  rewrite Elo, Ehi. split; f_equal; lra.
Qed.

Lemma within_nodes (hi : list R) (o x tol : R) :
  Forall (fun w => 0 <= w) hi ->
  Arr.min hi = Ok tol ->
  (within (nodes_of hi o) x
   <-> o - tol * 1e-10 <= x <= o + Arr.sum hi + tol * 1e-10).
Proof.
  intros Hpos Htol. destruct (nodes_min_max o Hpos) as [Emin Emax].
  unfold within. rewrite diff_nodes, Emin, Emax, Htol. split.
  - intros [lo [hi' [dmin [E1 [E2 [E3 Hb]]]]]].
    injection E1 as <-. injection E2 as <-. injection E3 as <-. exact Hb.
  - intros Hb. exists o, (o + Arr.sum hi), tol. repeat split; try reflexivity;
      apply Hb.
Qed.

Lemma dim_h (m : mesh) : dim m = List.length (h m).
Proof. unfold dim, BaseMesh.dim, shape. apply length_map. Qed.

(** The node tensors of a mesh, axis by axis. *)
Lemma node_tensors (m : mesh) :
  (1 <= List.length (h m) <= 3)%nat ->
  List.length (x0 m) = List.length (h m) ->
  exists vs,
    getTensor m "N" = Ok vs /\
    List.length vs = List.length (h m) /\
    forall a hi o, nth_error (h m) a = Some hi -> nth_error (x0 m) a = Some o ->
      nth_error vs a = Some (nodes_of hi o).
Proof.
  intros H3 Hx.
  destruct (RoundTrip.getTensor_N m H3 Hx) as [vs [E [L [_ Hv]]]].
  rewrite dim_h in L, Hv.
  exists vs. split; [exact E|]. split; [exact L|].
  intros a hi o Hh Ho.
  assert (Ha : (a < List.length (h m))%nat)
    by (apply nth_error_Some; congruence).
  destruct (@vectorN_unfold m a hi o ltac:(lia) Hh Ho) as [EN _].
  rewrite (Hv a Ha) in EN. injection EN as EN.
  rewrite <- EN. apply nth_error_nth'. lia.
Qed.

(** X15: on a tensor mesh that is not cylindrical, of dimension 1 to 3,
    with at least one cell along every axis and no negative width, a point
    is inside for [isInside(pts, 'N')] exactly when every coordinate lies
    between the origin and the origin plus the sum of the widths of its
    axis, up to a tolerance of [1e-10] times the smallest width of that
    axis. *)
Theorem X15_isInside_extents (m : mesh) (pts : list (list R)) :
  String.eqb (_meshType m) "CYL" = false ->
  (1 <= List.length (h m) <= 3)%nat ->
  List.length (x0 m) = List.length (h m) ->
  Forall (fun hi => hi <> [] /\ Forall (fun w => 0 <= w) hi) (h m) ->
  Forall (fun p => List.length p = dim m) pts ->
  exists bs,
    isInside m pts "N" = Ok bs /\
    List.length bs = List.length pts /\
    forall k p, nth_error pts k = Some p ->
      (nth k bs false = true <->
       forall a hi o tol,
         nth_error (h m) a = Some hi -> nth_error (x0 m) a = Some o ->
         Arr.min hi = Ok tol ->
         o - tol * 1e-10 <= nth a p 0 <= o + Arr.sum hi + tol * 1e-10).
Proof.
  intros Hcyl H3 Hx Hh Hp.
  destruct (node_tensors m H3 Hx) as [vs [E [L Hv]]].
  assert (Ht : tensors_tested m "N" = Ok vs).
  { unfold tensors_tested. rewrite E. cbn [bind]. rewrite Hcyl.
    reflexivity. }
  assert (Hget : forall a, (a < List.length (h m))%nat ->
            exists hi o tol,
              nth_error (h m) a = Some hi /\ nth_error (x0 m) a = Some o /\
              Arr.min hi = Ok tol /\ Forall (fun w => 0 <= w) hi /\
              nth_error vs a = Some (nodes_of hi o)).
  { intros a Ha.
    destruct (nth_error (h m) a) as [hi|] eqn:Eh;
      [|apply nth_error_None in Eh; lia].
    destruct (nth_error (x0 m) a) as [o|] eqn:Eo;
      [|apply nth_error_None in Eo; lia].
    rewrite Forall_forall in Hh.
    destruct (Hh hi (nth_error_In _ _ Eh)) as [Hne Hpos].
    destruct (@min_some hi) as [tol Etol].
    { destruct hi; [contradiction|simpl; lia]. }
    exists hi, o, tol. repeat split; try assumption; try reflexivity.
    now apply Hv. }
  assert (H2 : Forall (fun t => (2 <= List.length t)%nat) vs).
  { apply Forall_forall. intros t Hin.
    destruct (In_nth_error _ _ Hin) as [a Ea].
    assert (Ha : (a < List.length (h m))%nat)
      by (rewrite <- L; apply nth_error_Some; congruence).
    destruct (Hget a Ha) as [hi [o [tol [Eh [Eo [Etol [_ Ev]]]]]]].
    rewrite Ev in Ea. injection Ea as <-. rewrite nodes_of_length.
    destruct hi; [discriminate Etol|simpl; lia]. }
  destruct (@isInside_spec m pts "N" vs Hp Ht H2) as [bs [Eb [Lb Sb]]].
  exists bs. split; [exact Eb|]. split; [exact Lb|].
  intros k p Hk. rewrite (Sb k p Hk). unfold within_all. split.
  - intros Hw a hi o tol Eh Eo Etol.
    assert (Ha : (a < List.length (h m))%nat)
      by (apply nth_error_Some; congruence).
    destruct (Hget a Ha) as [hi' [o' [tol' [Eh' [Eo' [_ [Hpos Ev]]]]]]].
    rewrite Eh in Eh'. injection Eh' as <-.
    rewrite Eo in Eo'. injection Eo' as <-.
    apply (within_nodes o (nth a p 0) Hpos Etol). now apply (Hw a).
  - intros Hb a t Ea.
    assert (Ha : (a < List.length (h m))%nat)
      by (rewrite <- L; apply nth_error_Some; congruence).
    destruct (Hget a Ha) as [hi [o [tol [Eh [Eo [Etol [Hpos Ev]]]]]]].
    rewrite Ev in Ea. injection Ea as <-.
    apply (within_nodes o (nth a p 0) Hpos Etol). now apply (Hb a hi o tol).
Qed.

Lemma X15_isInside_extents_witness :
  exists bs,
    isInside unit_mesh [[0.5]; [5]] "N" = Ok bs /\
    List.length bs = List.length [[0.5]; [5]] /\
    forall k p, nth_error [[0.5]; [5]] k = Some p ->
      (nth k bs false = true <->
       forall a hi o tol,
         nth_error (h unit_mesh) a = Some hi ->
         nth_error (x0 unit_mesh) a = Some o ->
         Arr.min hi = Ok tol ->
         o - tol * 1e-10 <= nth a p 0 <= o + Arr.sum hi + tol * 1e-10).
Proof.
  apply (@X15_isInside_extents unit_mesh [[0.5]; [5]]).
  - reflexivity.
  - simpl. lia.
  - reflexivity.
  - constructor; [|constructor]. split; [discriminate|].
    constructor; [lra|constructor].
  - repeat constructor.
Defined.

End ExtentFacts.

(** ** The axis check of the interpolation *)

Module InterpolationAxisFacts.

Import BaseRectangularMesh BaseTensorMesh ContainmentSpec InterpolationSpec
  ContainmentFacts InterpolationFacts.
Local Open Scope R_scope.

Lemma set_item_out (A : Type) (l : list A) (i : nat) (a : A) :
  (List.length l <= i)%nat -> set_item l i a = Raise IndexError.
Proof.
  revert i. induction l as [|x l IH]; intros i Hi; [reflexivity|].
  destruct i as [|i]; [simpl in Hi; lia|].
  cbn [set_item]. rewrite IH by (simpl in Hi; lia). reflexivity.
Qed.

Lemma vn_lengths (sh : list Z) :
  (1 <= BaseMesh.dim sh <= 3)%nat ->
  List.length (BaseMesh.vnF sh) = BaseMesh.dim sh /\
  List.length (BaseMesh.vnE sh) = BaseMesh.dim sh.
Proof.
  intros Hd. destruct (ReshapeFacts.vn_counts sh Hd) as [-> ->].
  now rewrite !length_map, !length_seq.
Qed.

(** X17: for a component location (['Fx'], ..., ['Ez']) and points inside
    the mesh, [_getInterpolationMat] refuses with [AssertionError] an axis
    whose index exceeds the dimension of the mesh; an axis whose index
    equals the dimension (['Fy'] on a 1-D mesh, ['Fz'] on a 2-D mesh)
    passes the assertion [dim >= ind] and fails with [IndexError] when the
    block of that axis is assigned. *)
Theorem X17_interpolation_axis_check
    (interpmat : list (list R) -> list (list R) -> Mat.t)
    (m : mesh) (loc : list (list R)) (locType : string) (ind : nat)
    (inside : list bool) :
  (1 <= dim m <= 3)%nat ->
  mem locType ["Fx"; "Fy"; "Fz"; "Ex"; "Ey"; "Ez"]%string = true ->
  xyz_index (String.get 1 locType) = Ok ind ->
  isInside m loc "N" = Ok inside ->
  forallb (fun b => b) inside = true ->
  ((dim m < ind)%nat ->
   _getInterpolationMat interpmat m loc locType false = Raise AssertionError) /\
  ((dim m = ind)%nat -> (exists t, getTensor m locType = Ok t) ->
   _getInterpolationMat interpmat m loc locType false = Raise IndexError).
Proof.
  intros Hd Hmem Hind Hin Hall.
  destruct (isInside_ok _ _ _ Hin) as [Ha _].
  unfold _getInterpolationMat. rewrite Ha. cbn [bind]. rewrite Hin.
  cbn [bind negb]. rewrite Hall. cbn [bind fst snd].
  unfold locType_dispatch. rewrite Hmem, Hind. cbn [bind].
  split.
  - intros Hlt. now rewrite (proj2 (Nat.ltb_lt _ _) Hlt).
  - intros Heq [t Ht]. rewrite (proj2 (Nat.ltb_ge _ _)) by lia.
    rewrite Ht. cbn [bind].
    destruct (vn_lengths (shape m) Hd) as [LF LE].
    rewrite set_item_out; [reflexivity|].
    rewrite length_map. unfold dim in Heq.
    destruct (str_in "F" locType); lia.
Qed.

Lemma isInside_unit_half : isInside unit_mesh [[0.5]] "N" = Ok [true].
Proof.
  destruct (@isInside_spec unit_mesh [[0.5]] "N" [[0 + 0; 1 + 0]])
    as [bs [E [L S]]].
  - repeat constructor.
  - reflexivity.
  - repeat constructor; simpl; lia.
  - rewrite E. f_equal.
    destruct bs as [|b0 [|b1 bs]]; simpl in L; try lia.
    f_equal.
    apply (S 0%nat [0.5] eq_refl).
    intros i t Hi. destruct i as [|i]; [|destruct i; discriminate Hi].
    injection Hi as <-. unfold within. cbn [nth].
    eexists; eexists; eexists.
    split; [reflexivity|]. split; [reflexivity|]. split; [reflexivity|].
    cbn [fold_left]. solve_minmax.
Qed.

Lemma unit_mesh_dim : (1 <= dim unit_mesh <= 3)%nat.
Proof. unfold dim, BaseMesh.dim. simpl. lia. Qed.

Lemma X17_interpolation_axis_check_witness :
  _getInterpolationMat first_node_interp unit_mesh [[0.5]] "Fy" false
    = Raise IndexError.
Proof.
  apply (proj2 (@X17_interpolation_axis_check first_node_interp unit_mesh
                  [[0.5]] "Fy" 1 [true] unit_mesh_dim
                  eq_refl eq_refl isInside_unit_half eq_refl)).
  - reflexivity.
  - eexists. reflexivity.
Defined.

End InterpolationAxisFacts.

(** ** The validator of the origin *)

Module OriginFacts.

Import BaseTensorMesh TensorValidators TensorVectorFacts.
Local Open Scope R_scope.

Lemma x0_loop_ok (h : list (list R)) (v : list x0_entry) :
  Forall accepted v ->
  forall i, (i + List.length v <= List.length h)%nat ->
  exists out,
    x0_loop h i v = Returns out /\
    List.length out = List.length v /\
    forall j e hi, nth_error v j = Some e -> nth_error h (i + j) = Some hi ->
      match e with
      | Num x => nth j out 0 = x
      | Str s => if String.eqb (lower s) "0" then nth j out 0 = 0
                 else nth j out 0 = - Arr.sum hi / 2
      end.
Proof.
  induction 1 as [|e v He _ IH]; intros i Hi.
  - exists []. split; [reflexivity|]. split; [reflexivity|].
    intros j e hi Hj. destruct j; discriminate Hj.
  - cbn [List.length] in Hi.
    destruct (IH (S i)) as [out [E [L P]]]; [lia|].
    assert (Hh : exists hi, nth_error h i = Some hi).
    { destruct (nth_error h i) as [hi|] eqn:Eh; [eauto|].
      apply nth_error_None in Eh. lia. }
    destruct Hh as [hi0 Eh0].
    assert (Step : forall x,
              (match e with
               | Num y => x = y
               | Str s => if String.eqb (lower s) "0" then x = 0
                          else x = - Arr.sum hi0 / 2
               end) ->
              x0_loop h i (e :: v) = Returns (x :: out)).
    { intros x Hx. cbn [x0_loop]. rewrite E, Eh0.
      destruct e as [s|y].
      - destruct (String.eqb (lower s) "0") eqn:E0; [now subst x|].
        destruct He as [H0|Hc].
        + apply String.eqb_eq in H0. congruence.
        + rewrite (proj2 (String.eqb_eq _ _) Hc). now subst x.
      - now subst x. }
    exists ((match e with
             | Num y => y
             | Str s => if String.eqb (lower s) "0" then 0
                        else - Arr.sum hi0 / 2
             end) :: out).
    split; [|split].
    + apply Step. destruct e as [s|y]; [|reflexivity].
      destruct (String.eqb (lower s) "0"); reflexivity.
    + cbn [List.length]. now rewrite L.
    + intros j e' hi Hj Hhi. destruct j as [|j].
      * rewrite Nat.add_0_r in Hhi. rewrite Eh0 in Hhi.
        injection Hhi as <-. injection Hj as <-. cbn [nth].
        destruct e as [s|y]; [|reflexivity].
        destruct (String.eqb (lower s) "0"); reflexivity.
      * cbn [nth]. apply (P j e' hi Hj).
        now rewrite <- Nat.add_succ_comm in Hhi.
Qed.

Lemma x0_loop_n (h : list (list R)) (v1 v2 : list x0_entry) (s : string) :
  Forall accepted v1 ->
  lower s = "n"%string ->
  forall i, (i + List.length (v1 ++ Str s :: v2) <= List.length h)%nat ->
  x0_loop h i (v1 ++ Str s :: v2) = Fails PyTypeError.
Proof.
  intros H1 Hs. induction H1 as [|e v He Hv IH]; intros i Hi.
  - cbn [app x0_loop]. rewrite Hs. cbn.
    destruct (nth_error h i) eqn:Eh; [reflexivity|].
    apply nth_error_None in Eh. cbn [app List.length] in Hi. lia.
  - cbn [app List.length] in Hi.
    assert (Hh : exists hi, nth_error h i = Some hi).
    { destruct (nth_error h i) as [hi|] eqn:Eh; [eauto|].
      apply nth_error_None in Eh. lia. }
    destruct Hh as [hi0 Eh0].
    cbn [app x0_loop]. rewrite IH by lia. rewrite Eh0.
    destruct e as [s'|y]; [|reflexivity].
    destruct (String.eqb (lower s') "0") eqn:E0; [reflexivity|].
    destruct He as [H0|Hc].
    + apply String.eqb_eq in H0. congruence.
    + rewrite Hc. reflexivity.
Qed.

(** X18: [_prevalid_x0] fails with [AttributeError] when ['h'] is not among
    the validated values, and with [ValueError] when the origin and [h]
    differ in length.  Otherwise numbers are kept, ['0'] gives 0 and ['C']
    or ['c'] gives minus half the sum of the widths of the axis, which
    centres the nodes of the axis around 0; and the documented ['N'] (or
    ['n']), reached after entries of these kinds, fails with [TypeError],
    since the sum is never called. *)
Theorem X18_prevalid_x0 (v : list x0_entry) (h : list (list R)) :
  _prevalid_x0 v None = Fails PyAttributeError /\
  (List.length v <> List.length h ->
   _prevalid_x0 v (Some h) = Fails PyValueError) /\
  (List.length v = List.length h ->
   (Forall accepted v ->
    exists out,
      _prevalid_x0 v (Some h) = Returns out /\
      List.length out = List.length v /\
      forall i e hi, nth_error v i = Some e -> nth_error h i = Some hi ->
        match e with
        | Num x => nth i out 0 = x
        | Str s =>
            if String.eqb (lower s) "0" then nth i out 0 = 0
            else nth i out 0 = - Arr.sum hi / 2 /\
                 nth 0 (nodes_of hi (nth i out 0)) 0
                 + nth (List.length hi) (nodes_of hi (nth i out 0)) 0 = 0
        end) /\
   (forall v1 s v2, v = v1 ++ Str s :: v2 ->
      Forall accepted v1 -> lower s = "n"%string ->
      _prevalid_x0 v (Some h) = Fails PyTypeError)) /\
  _prevalid_x0 [Str "C"; Str "N"] (Some [[1; 1]; [2]]) = Fails PyTypeError.
Proof.
  split; [reflexivity|]. split; [|split; [|reflexivity]].
  - intros Hne. unfold _prevalid_x0.
    now rewrite (proj2 (Nat.eqb_neq _ _) Hne).
  - intros Hl. unfold _prevalid_x0.
    rewrite (proj2 (Nat.eqb_eq _ _) Hl). cbn [negb]. split.
    + intros Hv.
      destruct (@x0_loop_ok h v Hv 0%nat) as [out [E [L P]]]; [simpl; lia|].
      exists out. split; [exact E|]. split; [exact L|].
      intros i e hi Hi Hhi. specialize (P i e hi Hi Hhi).
      destruct e as [s|x]; [|exact P].
      destruct (String.eqb (lower s) "0"); [exact P|].
      split; [exact P|]. rewrite P.
      rewrite !nodes_of_nth by lia. cbn [firstn].
      rewrite firstn_all, sum_nil. lra.
    + intros v1 s v2 -> H1 Hs. apply x0_loop_n; try assumption.
      simpl. lia.
Qed.

End OriginFacts.

(** ** The gridded cell widths *)

Module GriddedWidthFacts.

Import Nd BaseTensorMesh TensorMeshMore GridSpec TensorVectorFacts GridFacts.
Local Open Scope R_scope.

Lemma kron_ones_l (n : nat) (b : list R) :
  kron (repeat 1 n) b = concat (repeat b n).
Proof.
  unfold kron. induction n as [|n IH]; [reflexivity|].
  cbn [repeat flat_map concat]. rewrite IH. f_equal.
  rewrite <- (map_id b) at 2. apply map_ext. intros y. ring.
Qed.

Lemma kron_ones_r (a : list R) (n : nat) :
  kron a (repeat 1 n) = flat_map (fun x => repeat x n) a.
Proof.
  unfold kron. induction a as [|x a IH]; [reflexivity|].
  cbn [flat_map]. rewrite IH. f_equal.
  rewrite map_repeat. f_equal. ring.
Qed.

Lemma c_2_app (a1 a2 b1 b2 : list R) :
  List.length a1 = List.length b1 ->
  Np.c_2 (a1 ++ a2) (b1 ++ b2) = Np.c_2 a1 b1 ++ Np.c_2 a2 b2.
Proof.
  revert b1. induction a1 as [|x a1 IH]; intros [|y b1] H; simpl in H;
    try lia; [reflexivity|].
  cbn [app Np.c_2]. now rewrite IH by lia.
Qed.

Lemma c_3_app (a1 a2 b1 b2 c1 c2 : list R) :
  List.length a1 = List.length b1 -> List.length a1 = List.length c1 ->
  Np.c_3 (a1 ++ a2) (b1 ++ b2) (c1 ++ c2)
    = Np.c_3 a1 b1 c1 ++ Np.c_3 a2 b2 c2.
Proof.
  revert b1 c1. induction a1 as [|x a1 IH]; intros [|y b1] [|z c1] H1 H2;
    simpl in H1, H2; try lia; [reflexivity|].
  cbn [app Np.c_3]. now rewrite IH by lia.
Qed.

Lemma c_2_repeat_r (a : list R) (y : R) :
  Np.c_2 a (repeat y (List.length a)) = map (fun x => [x; y]) a.
Proof.
  induction a as [|x a IH]; [reflexivity|].
  cbn [List.length repeat Np.c_2 map]. now rewrite IH.
Qed.

Lemma c_3_repeat_r (a : list R) (y z : R) :
  Np.c_3 a (repeat y (List.length a)) (repeat z (List.length a))
    = map (fun x => [x; y; z]) a.
Proof.
  induction a as [|x a IH]; [reflexivity|].
  cbn [List.length repeat Np.c_3 map]. now rewrite IH.
Qed.

Lemma length_concat_repeat (b : list R) (n : nat) :
  List.length (concat (repeat b n)) = (n * List.length b)%nat.
Proof.
  induction n as [|n IH]; [reflexivity|].
  cbn [repeat concat]. rewrite length_app, IH. lia.
Qed.

Lemma length_flat_repeat (a : list R) (n : nat) :
  List.length (flat_map (fun x => repeat x n) a) = (List.length a * n)%nat.
Proof.
  induction a as [|x a IH]; [reflexivity|].
  cbn [flat_map]. rewrite length_app, repeat_length, IH. simpl. lia.
Qed.

Lemma outer_1 (h0 : list R) : outer [h0] = map (fun x => [x]) h0.
Proof. cbn [outer flat_map]. now rewrite app_nil_r. Qed.

(** The columns of [h_gridded] in dimension 2, with a common tail. *)
Lemma grid_2 (h0 h1 : list R) :
  Np.c_2 (concat (repeat h0 (List.length h1)))
         (flat_map (fun y => repeat y (List.length h0)) h1)
    = outer [h0; h1].
Proof.
  change (outer [h0; h1])
    with (flat_map (fun tail => map (fun x => x :: tail) h0) (outer [h1])).
  rewrite outer_1.
  induction h1 as [|y h1 IH]; [reflexivity|].
  cbn [List.length repeat concat flat_map map].
  rewrite c_2_app by (now rewrite repeat_length).
  now rewrite IH, c_2_repeat_r.
Qed.

Lemma block_3 (h0 h1 : list R) (z : R) :
  Np.c_3 (concat (repeat h0 (List.length h1)))
         (flat_map (fun y => repeat y (List.length h0)) h1)
         (repeat z (List.length h0 * List.length h1))
    = flat_map (fun tail => map (fun x => x :: tail) h0)
               (map (fun y => [y; z]) h1).
Proof.
  induction h1 as [|y h1 IH].
  - cbn [List.length]. rewrite Nat.mul_0_r. reflexivity.
  - cbn [List.length repeat concat flat_map map].
    rewrite Nat.mul_succ_r, (Nat.add_comm _ (List.length h0)), repeat_app.
    rewrite c_3_app by (now rewrite !repeat_length).
    rewrite IH, c_3_repeat_r. f_equal.
Qed.

Lemma grid_3 (h0 h1 h2 : list R) :
  Np.c_3 (concat (repeat h0 (List.length h1 * List.length h2)))
         (concat (repeat (flat_map (fun y => repeat y (List.length h0)) h1)
                         (List.length h2)))
         (flat_map (fun z => repeat z (List.length h0 * List.length h1)) h2)
    = outer [h0; h1; h2].
Proof.
  change (outer [h0; h1; h2])
    with (flat_map (fun tail => map (fun x => x :: tail) h0)
            (flat_map (fun tail => map (fun y => y :: tail) h1) (outer [h2]))).
  rewrite outer_1.
  induction h2 as [|z h2 IH].
  - cbn [List.length]. rewrite Nat.mul_0_r. reflexivity.
  - cbn [List.length repeat concat flat_map map].
    rewrite Nat.mul_succ_r, (Nat.add_comm _ (List.length h1)), repeat_app,
      concat_app.
    rewrite c_3_app.
    + rewrite IH, block_3, flat_map_app. reflexivity.
    + rewrite length_concat_repeat, length_flat_repeat. reflexivity.
    + rewrite length_concat_repeat, repeat_length. lia.
Qed.

Lemma ones_of_length (n : nat) : Np.ones (Z.of_nat n) = Ok (repeat 1 n).
Proof.
  unfold Np.ones. rewrite (proj2 (Z.ltb_ge _ _)) by lia.
  now rewrite Nat2Z.id.
Qed.

(** [h_gridded] is the grid of the width vectors. *)
Lemma h_gridded_outer (m : mesh) :
  (1 <= List.length (h m) <= 3)%nat ->
  h_gridded m = Ok (Some (outer (h m))).
Proof.
  intros H3. destruct m as [hh xx mt]. cbn [h] in H3.
  destruct hh as [|h0 [|h1 [|h2 [|h3 hh]]]]; simpl in H3; try lia.
  - unfold h_gridded, nC, BaseMesh.nC, dim, BaseMesh.dim, shape, item.
    cbn -[Z.of_nat outer Np.prodz].
    rewrite BaseMeshFacts.prodz_cons, BaseMeshFacts.prodz_nil, Z.mul_1_r,
      Z.eqb_refl.
    now rewrite outer_1.
  - unfold h_gridded, dim, BaseMesh.dim, shape, item.
    cbn -[Z.of_nat outer Np.ones].
    rewrite !ones_of_length. cbn [bind].
    now rewrite kron_ones_l, kron_ones_r, grid_2.
  - unfold h_gridded, dim, BaseMesh.dim, shape, item.
    cbn -[Z.of_nat outer Np.ones Z.mul].
    rewrite <- !Nat2Z.inj_mul, !ones_of_length. cbn [bind].
    rewrite !kron_ones_l, !kron_ones_r, grid_3. reflexivity.
Qed.

(** X19: on a tensor mesh of dimension 1 to 3, [h_gridded] has one row per
    cell and [dim] columns, and row [k] holds the width of cell [k] along
    each axis, the cells being numbered with the first axis running
    fastest. *)
Theorem X19_h_gridded (m : mesh) :
  (1 <= List.length (h m) <= 3)%nat ->
  exists rows,
    h_gridded m = Ok (Some rows) /\
    Z.of_nat (List.length rows) = nC m /\
    Forall (fun row => List.length row = dim m) rows /\
    forall k, (k < List.length rows)%nat ->
      nth k rows [] = coords (h m) (unravelF (map (@List.length R) (h m)) k).
Proof.
  intros H3. exists (outer (h m)).
  split; [now apply h_gridded_outer|].
  assert (Hd : dim m = List.length (h m))
    by (unfold dim, BaseMesh.dim, shape; apply length_map).
  split; [|split].
  - rewrite outer_length, <- prodz_of_nat_size, map_map. reflexivity.
  - rewrite Hd. apply outer_row_length.
  - intros k Hk. rewrite outer_length in Hk. now apply outer_nth.
Qed.

Lemma X19_h_gridded_witness :
  exists rows,
    h_gridded (mk [[1; 2]; [3]] [5; 7] "TENSOR") = Ok (Some rows) /\
    Z.of_nat (List.length rows) = nC (mk [[1; 2]; [3]] [5; 7] "TENSOR") /\
    Forall (fun row => List.length row = dim (mk [[1; 2]; [3]] [5; 7] "TENSOR"))
           rows /\
    forall k, (k < List.length rows)%nat ->
      nth k rows [] = coords [[1; 2]; [3]] (unravelF [2; 1]%nat k).
Proof.
  apply (@X19_h_gridded (mk [[1; 2]; [3]] [5; 7] "TENSOR")).
  simpl. lia.
Defined.

End GriddedWidthFacts.

(** ** Arrays to and from their JSON form *)

Module SerializationFacts.

Import Nd NdFacts Serialization.

Section Orders.

Variable A : Type.
Variable d : A.

Lemma size_all_ones (sh : list nat) :
  filter (fun n => negb (n =? 1)) sh = [] -> size sh = 1.
Proof.
  induction sh as [|n sh IH]; intros H; [reflexivity|].
  cbn [filter] in H. destruct (Nat.eqb_spec n 1) as [->|Hn];
    cbn [negb] in H; [|discriminate].
  rewrite size_cons, IH by exact H. reflexivity.
Qed.

Lemma ravelC_all_ones (sh : list nat) (k : nat) :
  filter (fun n => negb (n =? 1)) sh = [] ->
  ravelC sh (unravelF sh k) = 0.
Proof.
  revert k. induction sh as [|n sh IH]; intros k H; [reflexivity|].
  cbn [filter] in H. destruct (Nat.eqb_spec n 1) as [->|Hn];
    cbn [negb] in H; [|discriminate].
  cbn [unravelF ravelC]. rewrite IH by exact H.
  rewrite Nat.mod_1_r. lia.
Qed.

(** For a shape with at most one extent other than 1, the C offset of the
    [k]-th multi-index in Fortran order is [k]. *)
Lemma ravelC_unravelF (sh : list nat) (k : nat) :
  List.length (filter (fun n => negb (n =? 1)) sh) <= 1 ->
  k < size sh ->
  ravelC sh (unravelF sh k) = k.
Proof.
  revert k. induction sh as [|n sh IH]; intros k H Hk.
  - cbn in Hk. cbn. lia.
  - cbn [filter] in H. rewrite size_cons in Hk. cbn [unravelF ravelC].
    destruct (Nat.eqb_spec n 1) as [->|Hn]; cbn [negb] in H.
    + rewrite Nat.mod_1_r, Nat.div_1_r, IH by (try exact H; lia). lia.
    + cbn [List.length] in H.
      assert (H0 : filter (fun n => negb (n =? 1)) sh = [])
        by (destruct (filter _ sh); [reflexivity|simpl in H; lia]).
      rewrite (size_all_ones _ H0) in *. rewrite ravelC_all_ones by exact H0.
      rewrite Nat.mod_small by lia. lia.
Qed.

Lemma mkvc_degenerate (a : ndarray A) :
  wf a -> degenerate (shape a) = true -> mkvc d a = vec (data a).
Proof.
  intros Hwf Hd. unfold mkvc. f_equal. unfold wf in Hwf.
  unfold degenerate in Hd. apply orb_true_iff in Hd.
  destruct Hd as [H0|H1].
  - apply Nat.eqb_eq in H0. rewrite H0 in *.
    destruct (data a); [reflexivity|discriminate].
  - apply Nat.leb_le in H1. rewrite <- Hwf.
    apply map_seq_ext with (d := d). intros k Hk. rewrite Hwf in Hk.
    unfold get. now rewrite ravelC_unravelF.
Qed.

Lemma reshape_C_data (a : ndarray A) :
  wf a -> reshape_C (data a) (shape a) = Ok a.
Proof.
  intros Hwf. unfold reshape_C. unfold wf in Hwf.
  rewrite (proj2 (Nat.eqb_eq _ _) Hwf). now destruct a.
Qed.

Lemma data_mkvc (a : ndarray A) : vec (data (mkvc d a)) = mkvc d a.
Proof. reflexivity. Qed.

(** Reshaping what [flatten(order='A')] gave, in the order that the flag
    [F_CONTIGUOUS] names, restores the array. *)
Lemma unflatten (x : np_array A) :
  wf (arr x) ->
  reshape_1d d (flatten_A d x) (shape (arr x)) (f_contiguous x) = Ok (arr x).
Proof.
  intros Hwf. unfold reshape_1d, flatten_A, f_contiguous, c_contiguous.
  destruct (layout_of x); destruct (degenerate (shape (arr x))) eqn:Hd;
    cbn [andb negb].
  - rewrite <- (mkvc_degenerate Hwf Hd).
    now apply ReshapeFacts.reshape_F_mkvc.
  - now apply reshape_C_data.
  - rewrite <- (mkvc_degenerate Hwf Hd).
    now apply ReshapeFacts.reshape_F_mkvc.
  - rewrite data_mkvc. now apply ReshapeFacts.reshape_F_mkvc.
  - now apply reshape_C_data.
  - now apply reshape_C_data.
Qed.

End Orders.

Lemma view_roundtrip (l : list (R * R)) :
  view_complex (view_float l) = Ok l.
Proof.
  induction l as [|[re im] l IH]; [reflexivity|].
  cbn [view_float flat_map app fst snd view_complex].
  fold (view_float l). rewrite IH. reflexivity.
Qed.

(** X20: [_deserialize_numpy_dict] undoes [_serialize_numpy]: for an array
    of a real dtype (whose name does not contain ['complex']) or of the
    dtype [complex64] or [complex128], in any memory layout, reading back
    the dictionary gives an array of the same shape with the same element
    at every multi-index. *)
Theorem X20_serialize_roundtrip (x : np_value) :
  wf_value x ->
  _deserialize_numpy_dict (_serialize_numpy x) = Ok (content x) /\
  d_shape (_serialize_numpy x)
    = match x with VReal _ a | VComplex _ a => shape (arr a) end.
Proof.
  intros Hwf. split; [|destruct x; reflexivity].
  destruct x as [name a|wide a]; cbn [wf_value] in Hwf.
  - destruct Hwf as [Hwf Hname].
    unfold _deserialize_numpy_dict, _serialize_numpy.
    cbn [d_np_type d_items d_shape d_f_order]. rewrite Hname.
    now rewrite unflatten.
  - unfold _deserialize_numpy_dict, _serialize_numpy.
    cbn [d_np_type d_items d_shape d_f_order].
    assert (E : BaseRectangularMesh.str_in "complex"
                  (if wide then "complex128" else "complex64") = true)
      by (destruct wide; reflexivity).
    rewrite E.
    assert (E2 : (String.eqb (if wide then "complex128" else "complex64")
                             "complex64"
                  || String.eqb (if wide then "complex128" else "complex64")
                                "complex128")%bool = true)
      by (destruct wide; reflexivity).
    rewrite E2, view_roundtrip. cbn [bind].
    now rewrite unflatten.
Qed.

Lemma X20_serialize_roundtrip_witness :
  _deserialize_numpy_dict
    (_serialize_numpy
       (VReal "float64"
          (mk_np (Nd.mk [2; 3] [1; 2; 3; 4; 5; 6]%R) F_order)))
    = Ok (content
            (VReal "float64"
               (mk_np (Nd.mk [2; 3] [1; 2; 3; 4; 5; 6]%R) F_order))) /\
  d_shape
    (_serialize_numpy
       (VReal "float64"
          (mk_np (Nd.mk [2; 3] [1; 2; 3; 4; 5; 6]%R) F_order)))
    = [2; 3].
Proof.
  apply (@X20_serialize_roundtrip
           (VReal "float64"
              (mk_np (Nd.mk [2; 3] [1; 2; 3; 4; 5; 6]%R) F_order))).
  split; reflexivity.
Defined.

End SerializationFacts.

(** ** The registry of listeners *)

Module ListenerFacts.

Import Listeners.

Section Registry.

Variable listener : Type.

Lemma lookup_set_key (k f : string) (l : list listener)
    (d : registry listener) :
  lookup k (set_key f l d) = if String.eqb k f then Some l else lookup k d.
Proof.
  induction d as [|[k' l'] d IH].
  - cbn [set_key lookup]. reflexivity.
  - cbn [set_key]. destruct (String.eqb_spec f k') as [->|Hf].
    + cbn [lookup]. destruct (String.eqb k k'); reflexivity.
    + cbn [lookup]. rewrite IH.
      destruct (String.eqb_spec k k') as [->|Hk]; [|reflexivity].
      destruct (String.eqb_spec k' f) as [E|_]; [congruence|reflexivity].
Qed.

Lemma called_file_under (v : listener) (ls : registry listener)
    (f k : string) :
  called_on_set (file_under v ls f) k
    = called_on_set ls k ++ (if String.eqb f k then [v] else []).
Proof.
  unfold called_on_set, file_under.
  destruct (lookup f ls) as [l|] eqn:E; rewrite lookup_set_key;
    rewrite (String.eqb_sym k f);
    (destruct (String.eqb_spec f k) as [->|Hf];
     [rewrite E; reflexivity|now rewrite app_nil_r]).
Qed.

Lemma called_filed (v : listener) (fields : list string)
    (ls : registry listener) (k : string) :
  called_on_set (fold_left (file_under v) fields ls) k
    = called_on_set ls k ++ repeat v (count_occ string_dec fields k).
Proof.
  revert ls. induction fields as [|f fields IH]; intros ls.
  - cbn. now rewrite app_nil_r.
  - cbn [fold_left]. rewrite IH, called_file_under, <- app_assoc. f_equal.
    cbn [count_occ]. destruct (string_dec f k) as [->|Hf].
    + now rewrite String.eqb_refl.
    + now rewrite (proj2 (String.eqb_neq _ _) Hf).
Qed.

Lemma called_inherit_one (ls : registry listener)
    (item : string * list listener) (k : string) :
  called_on_set (inherit_one ls item) k
    = called_on_set ls k
      ++ (if String.eqb (fst item) k then snd item else []).
Proof.
  unfold called_on_set, inherit_one. destruct item as [f fl]. cbn [fst snd].
  destruct (lookup f ls) as [l|] eqn:E.
  - rewrite E, lookup_set_key, (String.eqb_sym k f).
    destruct (String.eqb_spec f k) as [->|Hf];
      [rewrite E; reflexivity|now rewrite app_nil_r].
  - rewrite lookup_set_key, String.eqb_refl, !lookup_set_key.
    rewrite (String.eqb_sym k f).
    destruct (String.eqb_spec f k) as [->|Hf];
      [rewrite E; reflexivity|now rewrite app_nil_r].
Qed.

Lemma chars_length (s k : string) : In k (chars s) -> String.length k = 1.
Proof.
  induction s as [|c s IH]; cbn [chars]; intros H; [contradiction|].
  destruct H as [<-|H]; [reflexivity|now apply IH].
Qed.

End Registry.

(** X21: in the registry built by [extract_listeners], a listener is filed
    under the key [k] once for every occurrence of [k] among the items
    that iterating over its field specification yields; for a
    specification that is a string these items are its characters, so
    that no listener is found (and none is called by [__setattr__]) under
    a name that is not a single character.  [inherit_listeners] appends,
    key by key, the listeners of the base to those already there. *)
Theorem X21_listener_registry (listener : Type)
    (namespace : list (string * option (fields_t * listener)))
    (base ls : registry listener) (k : string) :
  called_on_set (extract_listeners namespace) k
    = flat_map (fun item : string * option (fields_t * listener) =>
                  match snd item with
                  | Some (f, v) => repeat v (count_occ string_dec (iter f) k)
                  | None => []
                  end) namespace /\
  ((forall item f v, In item namespace -> snd item = Some (f, v) ->
                     exists s, f = FStr s) ->
   String.length k <> 1 ->
   called_on_set (extract_listeners namespace) k = []) /\
  called_on_set (inherit_listeners base ls) k
    = called_on_set ls k
      ++ flat_map (fun item : string * list listener =>
                     if String.eqb (fst item) k then snd item else []) base.
Proof.
  assert (G : forall ns (r : registry listener),
            called_on_set
              (fold_left
                 (fun listeners (item : string * option (fields_t * listener)) =>
                    match snd item with
                    | Some (fields, v) =>
                        fold_left (file_under v) (iter fields) listeners
                    | None => listeners
                    end) ns r) k
            = called_on_set r k
              ++ flat_map (fun item : string * option (fields_t * listener) =>
                             match snd item with
                             | Some (f, v) =>
                                 repeat v (count_occ string_dec (iter f) k)
                             | None => []
                             end) ns).
  { induction ns as [|[name cfg] ns IH]; intros r.
    - cbn. now rewrite app_nil_r.
    - cbn [fold_left flat_map snd]. rewrite IH.
      destruct cfg as [[f v]|]; [|reflexivity].
      now rewrite called_filed, <- app_assoc. }
  assert (E1 : called_on_set (extract_listeners namespace) k
               = flat_map (fun item : string * option (fields_t * listener) =>
                             match snd item with
                             | Some (f, v) =>
                                 repeat v (count_occ string_dec (iter f) k)
                             | None => []
                             end) namespace)
    by (unfold extract_listeners; now rewrite G).
  split; [exact E1|]. split.
  - intros Hstr Hk. rewrite E1. clear E1 G.
    induction namespace as [|[name cfg] ns IH]; [reflexivity|].
    cbn [flat_map snd]. rewrite IH by (intros; eapply Hstr; eauto; now right).
    rewrite app_nil_r. destruct cfg as [[f v]|]; [|reflexivity].
    destruct (Hstr (name, Some (f, v)) f v (or_introl eq_refl) eq_refl)
      as [s ->].
    cbn [iter]. rewrite (proj1 (count_occ_not_In string_dec _ _));
      [reflexivity|].
    intros Hin. apply chars_length in Hin. contradiction.
  - unfold inherit_listeners. revert ls.
    induction base as [|item base IH]; intros ls.
    + cbn. now rewrite app_nil_r.
    + cbn [fold_left flat_map]. rewrite IH, called_inherit_one.
      now rewrite <- app_assoc.
Qed.

End ListenerFacts.

(** ** The validators of shape, origin and nodes *)

Module ValidatorFacts.

Import TensorValidators MeshValidators.
Local Open Scope Z_scope.

Lemma existsb_ne_false (x : Z) (b : list Z) :
  existsb (fun y => negb (x =? y)) b = false -> Forall (fun y => y = x) b.
Proof.
  induction b as [|y b IH]; intros H; [constructor|].
  cbn [existsb] in H. apply orb_false_iff in H. destruct H as [H1 H2].
  constructor; [|now apply IH].
  apply negb_false_iff, Z.eqb_eq in H1. congruence.
Qed.

(** Two arrays that agree cannot agree once 1 is taken off every entry of
    the second one (which has at least two entries). *)
Lemma ne_any_shift (a b : list Z) :
  (2 <= List.length b)%nat ->
  ne_any a b = false ->
  ne_any a (map (fun y => y - 1) b) = true.
Proof.
  intros Hb H. destruct b as [|y0 [|y1 b]]; simpl in Hb; try lia.
  destruct a as [|x [|x' a]].
  - cbn in H. discriminate.
  - cbn [ne_any] in H |- *. apply existsb_ne_false in H.
    inversion H as [|? ? H0 _]; subst.
    cbn [map existsb]. apply orb_true_iff. left.
    apply negb_true_iff, Z.eqb_neq. lia.
  - cbn [ne_any] in H. cbn [ne_any map].
    cbn [List.length] in *. rewrite length_map.
    destruct (Nat.eqb (S (S (List.length a))) (S (S (List.length b))));
      [|reflexivity].
    cbn [combine existsb fst snd] in H |- *.
    apply orb_false_iff in H. destruct H as [H0 _].
    apply negb_false_iff, Z.eqb_eq in H0. subst.
    apply orb_true_iff. left. apply negb_true_iff, Z.eqb_neq. lia.
Qed.

Lemma shape_eqb_true (a b : list nat) : shape_eqb a b = true -> a = b.
Proof.
  unfold shape_eqb. destruct (list_eq_dec Nat.eq_dec a b);
    [trivial|discriminate].
Qed.

(** What [_check_nodes] accepts. *)
Lemma check_nodes_ok (nodes out : list (list nat)) (vals : values) :
  _check_nodes nodes vals = Returns out ->
  out = nodes /\
  (List.length nodes = 2 \/ List.length nodes = 3)%nat /\
  Forall (fun vi => vi = nth 0 nodes [] /\
                    List.length vi = List.length nodes) nodes /\
  forall sh, v_shape vals = Some sh ->
    Forall (fun vi => ne_any sh (map Z.of_nat vi) = false) nodes.
Proof.
  unfold _check_nodes. intros H.
  destruct ((List.length nodes =? 2)%nat || (List.length nodes =? 3)%nat)%bool
    eqn:Ed; cbn [negb] in H; [|discriminate].
  destruct (existsb _ nodes) eqn:El; [discriminate|].
  destruct (negb (shape_eqb (nth 0 nodes []) (nth 1 nodes []))
            || (List.length nodes =? 3)%nat
               && negb (shape_eqb (nth 0 nodes []) (nth 2 nodes [])))%bool
    eqn:Es; [discriminate|].
  apply orb_false_iff in Es. destruct Es as [E1 E2].
  apply negb_false_iff, shape_eqb_true in E1.
  assert (Hlen : Forall (fun vi => List.length vi = List.length nodes) nodes).
  { apply Forall_forall. intros vi Hin.
    destruct (Nat.eqb_spec (List.length vi) (List.length nodes)) as [E|E];
      [exact E|].
    assert (Hx : existsb (fun vi => negb (List.length vi =? List.length nodes)%nat)
                   nodes = true).
    { apply existsb_exists. exists vi. split; [exact Hin|].
      apply negb_true_iff, Nat.eqb_neq. exact E. }
    congruence. }
  assert (Hsame : Forall (fun vi => vi = nth 0 nodes []) nodes).
  { apply orb_true_iff in Ed.
    destruct nodes as [|n0 [|n1 [|n2 [|n3 rest]]]]; cbn in Ed;
      destruct Ed as [Ed|Ed]; try discriminate.
    - cbn [nth] in *. subst n1. repeat constructor.
    - cbn [nth List.length Nat.eqb andb] in *.
      apply negb_false_iff, shape_eqb_true in E2. subst n1 n2.
      repeat constructor. }
  assert (Hout : out = nodes /\
                 forall sh, v_shape vals = Some sh ->
                   Forall (fun vi => ne_any sh (map Z.of_nat vi) = false) nodes).
  { destruct (v_shape vals) as [sh|].
    - destruct (existsb (fun vi => ne_any sh (map Z.of_nat vi)) nodes) eqn:E;
        [discriminate|].
      injection H as <-. split; [reflexivity|].
      intros sh' [= <-]. apply Forall_forall. intros vi Hin.
      destruct (ne_any sh (map Z.of_nat vi)) eqn:En; [|reflexivity].
      assert (existsb (fun vi => ne_any sh (map Z.of_nat vi)) nodes = true)
        by (apply existsb_exists; eauto).
      congruence.
    - injection H as <-. split; [reflexivity|]. intros sh' [=]. }
  destruct Hout as [-> Hsh].
  split; [reflexivity|]. split.
  - apply orb_true_iff in Ed. destruct Ed as [Ed|Ed];
      apply Nat.eqb_eq in Ed; [left|right]; exact Ed.
  - split; [|exact Hsh].
    rewrite Forall_forall in *. intros vi Hin. split; auto.
Qed.

(** X22: when the origin and the shape differ in length, [_check_x0] raises
    [ValueError], but [_check_shape] fails with [NameError], while it
    builds the message of its error.  [_check_nodes] returns the nodes it
    accepts unchanged: two or three arrays with as many axes each, all of
    one shape, which is also the value of [shape] when that is set (as for
    two arrays of shape [(2, 3)] and the shape [(2, 3)]).  [_check_shape]
    in turn requires the shape to be that shape minus one: it never
    accepts the shape with which [_check_nodes] accepted the nodes. *)
Theorem X22_mesh_validators (sh : list Z) (x0 : list R)
    (nodes : list (list nat)) (vals : values) :
  (v_x0 vals = Some x0 -> (List.length sh <= 3)%nat ->
   List.length x0 <> List.length sh ->
   _check_shape sh vals = Fails PyNameError) /\
  (v_shape vals = Some sh -> List.length x0 <> List.length sh ->
   _check_x0 x0 vals = Fails PyValueError) /\
  (forall out, _check_nodes nodes vals = Returns out ->
     out = nodes /\
     (List.length nodes = 2 \/ List.length nodes = 3)%nat /\
     Forall (fun vi => vi = nth 0 nodes [] /\
                       List.length vi = List.length nodes) nodes) /\
  (v_shape vals = Some sh ->
   forall out vals', _check_nodes nodes vals = Returns out ->
     v_nodes vals' = Some nodes ->
     exists e, _check_shape sh vals' = Fails e) /\
  _check_nodes [[2; 3]; [2; 3]]%nat (mk_values (Some [2; 3]) None None)
    = Returns [[2; 3]; [2; 3]]%nat.
Proof.
  split; [|split; [|split; [|split; [|reflexivity]]]].
  - intros Hx H3 Hne. unfold _check_shape.
    rewrite (proj2 (Nat.ltb_ge _ _) H3), Hx.
    now rewrite (proj2 (Nat.eqb_neq _ _) Hne).
  - intros Hs Hne. unfold _check_x0. rewrite Hs.
    now rewrite (proj2 (Nat.eqb_neq _ _) Hne).
  - intros out H. destruct (check_nodes_ok _ _ H) as [H1 [H2 [H3 _]]].
    repeat split; assumption.
  - intros Hs out vals' H Hn.
    destruct (check_nodes_ok _ _ H) as [_ [Hd [Hall Hsh]]].
    specialize (Hsh sh Hs).
    destruct nodes as [|n0 rest]; [simpl in Hd; lia|].
    inversion Hall as [|? ? [_ Hl0] _]; subst.
    inversion Hsh as [|? ? Hne _]; subst.
    assert (Hshift : ne_any sh (map (fun n => Z.of_nat n - 1) n0) = true).
    { rewrite <- (map_map Z.of_nat (fun y => y - 1)).
      apply ne_any_shift; [|exact Hne].
      rewrite length_map, Hl0. destruct Hd as [Hd|Hd]; rewrite Hd; lia. }
    unfold _check_shape, check_node_shape. rewrite Hn, Hshift.
    destruct (3 <? List.length sh)%nat; [eauto|].
    destruct (v_x0 vals') as [x0'|]; [|eauto].
    destruct (negb (List.length x0' =? List.length sh)%nat); eauto.
Qed.

End ValidatorFacts.

(** ** The fast inner product as a function of the property *)

Module PropertyFacts.

Import BaseRectangularMesh BaseTensorMesh InnerProductFacts.
Local Open Scope R_scope.



Lemma zip_with_scale (x : R) (a b : list R) :
  Arr.zip_with Rmult a (map (fun v => x * v) b)
    = map (fun v => x * v) (Arr.zip_with Rmult a b).
Proof.
  revert b. induction a as [|u a IH]; intros [|v b]; try reflexivity.
  cbn [map Arr.zip_with]. rewrite IH. f_equal. ring.
Qed.

Lemma broadcast_scale (x : R) (a b w : list R) :
  Arr.broadcast Rmult a b = Ok w ->
  Arr.broadcast Rmult a (map (fun v => x * v) b)
    = Ok (map (fun v => x * v) w).
Proof.
  unfold Arr.broadcast. intros H.
  destruct a as [|u [|u' a]].
  - destruct b as [|v [|v' b]]; cbn [map] in *.
    + injection H as <-. reflexivity.
    + injection H as <-. reflexivity.
    + cbn [List.length] in *. rewrite length_map.
      destruct (0 =? S (S (List.length b)))%nat; [|discriminate].
      injection H as <-. reflexivity.
  - injection H as <-. f_equal. rewrite !map_map. apply map_ext.
    intros v. ring.
  - destruct b as [|v [|v' b]]; cbn [map] in *.
    + cbn [List.length] in *.
      destruct (S (S (List.length a)) =? 0)%nat; [|discriminate].
      injection H as <-. reflexivity.
    + injection H as <-. cbn [map]. f_equal. f_equal; [ring|].
      f_equal; [ring|]. rewrite map_map. apply map_ext. intros t. ring.
    + cbn [List.length] in *. rewrite length_map.
      destruct (S (S (List.length a)) =? S (S (List.length b)))%nat;
        [|discriminate].
      injection H as <-. f_equal.
      exact (zip_with_scale x (u :: u' :: a) (v :: v' :: b)).
Qed.

Lemma dot_scale (x : R) (row w : list R) :
  Mat.dot row (map (fun v => x * v) w) = x * Mat.dot row w.
Proof.
  unfold Mat.dot. rewrite zip_with_scale.
  induction (Arr.zip_with Rmult row w) as [|t l IH].
  - cbn [map]. rewrite TensorVectorFacts.sum_nil. ring.
  - cbn [map]. rewrite !TensorVectorFacts.sum_cons, IH. ring.
Qed.

Lemma mulv_scale (x : R) (A : Mat.t) (w d : list R) :
  Mat.mulv A w = Ok d ->
  Mat.mulv A (map (fun v => x * v) w) = Ok (map (fun v => x * v) d).
Proof.
  unfold Mat.mulv. rewrite length_map.
  destruct (Mat.ncols A =? List.length w)%nat; [|discriminate].
  intros [= <-]. f_equal. rewrite map_map. apply map_ext.
  intros row. apply dot_scale.
Qed.

Lemma entry_sdiag_scale (x : R) (d : list R) (i j : nat) :
  Mat.entry (Mat.sdiag (map (fun v => x * v) d)) i j
    = x * Mat.entry (Mat.sdiag d) i j.
Proof.
  destruct (Nat.lt_ge_cases i (List.length d)) as [Hi|Hi];
    [destruct (Nat.lt_ge_cases j (List.length d)) as [Hj|Hj]|].
  - rewrite !entry_sdiag by (rewrite ?length_map; assumption).
    destruct (i =? j)%nat; [|ring].
    rewrite (nth_indep _ 0 (x * 0)) by (now rewrite length_map).
    apply (map_nth (fun v => x * v)).
  - unfold Mat.entry, Mat.sdiag. cbn [Mat.rows]. rewrite length_map.
    rewrite !(NdFacts.nth_map_seq []) by exact Hi.
    rewrite !nth_overflow by (rewrite length_map, length_seq; exact Hj).
    ring.
  - unfold Mat.entry, Mat.sdiag. cbn [Mat.rows]. rewrite length_map.
    rewrite !(nth_overflow (map _ (seq 0 (List.length d))))
      by (rewrite length_map, length_seq; exact Hi).
    destruct j; cbn; ring.
Qed.

(** X24: the matrix of [_fastInnerProduct] (neither the property nor the
    matrix inverted) is homogeneous in the property: when the property [p]
    gives the matrix [M], the property [x * p] gives a matrix of the same
    size whose every entry is [x] times that of [M]. *)
Theorem X24_inner_product_homogeneous (ave : string -> Mat.t) (vol : list R)
    (m : mesh) (projType : string) (p : list R) (x : R) (M : Mat.t) :
  _fastInnerProduct ave vol m projType (PArray (Nd.vec p)) false false
    = Ok (Some M) ->
  exists M',
    _fastInnerProduct ave vol m projType
      (PArray (Nd.vec (map (fun v => x * v) p))) false false = Ok (Some M') /\
    Mat.nrows M' = Mat.nrows M /\ Mat.ncols M' = Mat.ncols M /\
    forall i j, Mat.entry M' i j = x * Mat.entry M i j.
Proof.
  unfold _fastInnerProduct.
  destruct (mem projType ["F"; "E"]%string); [|discriminate].
  cbn [negb]. destruct (Np.ones (nC m)) as [ones|e]; [|discriminate].
  cbn [bind].
  assert (Hsz : prop_size (Nd.vec (map (fun v => x * v) p))
                = prop_size (Nd.vec p)).
  { unfold prop_size. cbn [Nd.vec Nd.shape]. now rewrite length_map. }
  rewrite Hsz, !(NdFacts.mkvc_vec 0). cbn [Nd.vec Nd.data].
  destruct (prop_size (Nd.vec p) =? nC m)%Z.
  - destruct (Arr.broadcast Rmult vol p) as [w|e] eqn:Ew; [|discriminate].
    rewrite (broadcast_scale x _ _ Ew). cbn [bind].
    destruct (Mat.mulv _ w) as [d|e] eqn:Ed; [|discriminate].
    rewrite (mulv_scale x _ _ Ed). cbn [bind].
    intros [= <-]. eexists. split; [reflexivity|].
    split; [|split].
    + unfold Mat.nrows, Mat.scale, Mat.sdiag. cbn [Mat.rows].
      now rewrite !length_map, !length_seq, ?length_map.
    + unfold Mat.scale, Mat.sdiag. cbn [Mat.ncols]. apply length_map.
    + intros i j. rewrite !entry_scale, entry_sdiag_scale. ring.
  - destruct (prop_size (Nd.vec p) =? nC m * Z.of_nat (dim m))%Z;
      [|discriminate].
    destruct (String.eqb (_meshType m) "CYL").
    + cbn [Nd.shape List.length Nat.eqb]. discriminate.
    + cbn [bind].
      destruct (Mat.mul _ _) as [AV|e]; [|discriminate]. cbn [bind].
      rewrite !(NdFacts.mkvc_vec 0). cbn [Nd.vec Nd.data].
      destruct (Mat.mulv AV p) as [d|e] eqn:Ed; [|discriminate].
      rewrite (mulv_scale x _ _ Ed). cbn [bind].
      intros [= <-]. eexists. split; [reflexivity|].
      split; [|split].
      * unfold Mat.nrows, Mat.sdiag. cbn [Mat.rows].
        now rewrite !length_map, !length_seq, ?length_map.
      * unfold Mat.sdiag. cbn [Mat.ncols]. apply length_map.
      * intros i j. apply entry_sdiag_scale.
Qed.

Lemma one_cell_product :
  exists M,
    _fastInnerProduct OperatorSpec.ave_one_cell OperatorSpec.vol_one_cell
      OperatorSpec.one_cell "F" (PArray (Nd.vec [1])) false false
      = Ok (Some M).
Proof. eexists. reflexivity. Qed.

Lemma X24_inner_product_homogeneous_witness :
  exists M M',
    _fastInnerProduct OperatorSpec.ave_one_cell OperatorSpec.vol_one_cell
      OperatorSpec.one_cell "F" (PArray (Nd.vec [1])) false false
      = Ok (Some M) /\
    _fastInnerProduct OperatorSpec.ave_one_cell OperatorSpec.vol_one_cell
      OperatorSpec.one_cell "F"
      (PArray (Nd.vec (map (fun v => 3 * v) [1]))) false false
      = Ok (Some M') /\
    Mat.nrows M' = Mat.nrows M /\ Mat.ncols M' = Mat.ncols M /\
    forall i j, Mat.entry M' i j = 3 * Mat.entry M i j.
Proof.
  destruct one_cell_product as [M HM]. exists M.
  destruct (@X24_inner_product_homogeneous OperatorSpec.ave_one_cell
              OperatorSpec.vol_one_cell OperatorSpec.one_cell "F" [1] 3 M HM)
    as [M' H].
  exists M'. split; [exact HM|exact H].
Defined.

End PropertyFacts.
